(** * RAPT.io dashboard: telemetry enrichment, OG resolution, thresholds

    A shallow embedding of the serverless function [hydrometers]
    (authentication, telemetry fetch with fallback, original-gravity
    resolution, ABV derivation) and of the display logic of [src/main.js]
    (latest-reading selection, temperature classification, chart series).

    Modelling conventions, used throughout:
    - a JavaScript number is the rational it denotes ([Q]) and is compared
      as such; where the code computes with numbers (the ABV product, the
      colours of the attenuation line) every operation is the binary64
      one: the exact result rounded to the nearest binary64, ties to even
      ([round64]). [NaN], the infinities and overflow are outside the
      model, so every numeric field the code reads is assumed to hold a
      finite number;
    - [createdOn] is the instant the [Date] constructor yields for the
      sample's timestamp, in milliseconds since the epoch ([Z]);
    - a JSON object is a record of the fields the code reads; a telemetry
      sample additionally carries [others], the finite map of all its
      further own properties, which is where object spread puts [abv];
    - [undefined]/[null] is [None];
    - the network is an oracle answering each request from the history of
      requests made so far; a rejected promise / thrown [Error] is [Err];
      a response with a 2xx status resolves to its parsed body, or to the
      body as text when that is not JSON;
    - the serverless function is a CommonJS module without a
      ["use strict"] directive, so assigning to a property of a string
      does nothing. *)

From Stdlib Require Import ZArith QArith Qround Qabs Qminmax Qpower Lia Lqa.
From Stdlib Require Import SpecFloat.
From stdpp Require Import base option list gmap strings sorting pretty.

Local Open Scope Z_scope.

(* ===================================================================== *)
(** ** JavaScript values and operators *)
(* ===================================================================== *)

(** [ToBoolean] on a number: [0] is falsy. *)
Definition truthy (x : Q) : bool := negb (Qeq_bool x 0).

(** [ToBoolean] on a possibly-null number. *)
Definition truthyNum (x : option Q) : bool :=
  match x with
  | Some q => truthy q
  | None => false
  end.

(** [ToBoolean] on a possibly-undefined string: [""] is falsy. *)
Definition truthyStr (x : option string) : bool :=
  match x with
  | Some s => negb (String.eqb s "")
  | None => false
  end.

(** The relational operators [<], [>], [<=], [>=] on numbers. *)
Definition num_lt (x y : Q) : bool :=
  match (x ?= y)%Q with
  | Lt => true
  | _ => false
  end.

Definition num_gt (x y : Q) : bool := num_lt y x.

Definition num_le (x y : Q) : bool :=
  match (x ?= y)%Q with
  | Gt => false
  | _ => true
  end.

Definition num_ge (x y : Q) : bool := num_le y x.

(** [Math.max(a, b)]. *)
Definition Math_max (a b : Q) : Q := if num_lt a b then b else a.

(** Binary64. [pow2 k] is [2^k]; [ilog2 x] is the exponent of the binade
    of a positive [x], so that [2^(ilog2 x) <= x < 2^(ilog2 x + 1)]. *)
Definition pow2 (k : Z) : Q := (2 ^ k)%Q.

Definition ilog2 (x : Q) : Z :=
  let k := Z.log2 (Qnum x) - Z.log2 (Zpos (Qden x)) in
  if num_le (pow2 k) x then k else k - 1.

(** The integer nearest to [t], the even one of the two when [t] lies
    halfway. *)
Definition rne (t : Q) : Z :=
  let f := Qfloor t in
  match (t - inject_Z f ?= 1 # 2)%Q with
  | Lt => f
  | Gt => f + 1
  | Eq => if Z.even f then f else f + 1
  end.

(** The distance between neighbouring binary64 numbers around a positive
    [x]: 53 significant bits, exponents from -1022 on (below, the
    subnormal numbers are [2^-1074] apart). *)
Definition exponent (x : Q) : Z := Z.max (ilog2 x) (-1022).

Definition ulp (x : Q) : Q := pow2 (exponent x - 52).

Definition roundPos (x : Q) : Q := (inject_Z (rne (x / ulp x)) * ulp x)%Q.

(** The binary64 number nearest to [x], ties to even: the value a numeric
    literal denotes and the result of every arithmetic operation. It is
    the identity on a binary64 number. (No exponent is too large for it:
    the products and sums modelled below stay far from the largest
    binary64 number whenever their operands are binary64 numbers.) *)
Definition round64 (x : Q) : Q :=
  match (x ?= 0)%Q with
  | Eq => 0%Q
  | Gt => roundPos x
  | Lt => (- roundPos (- x))%Q
  end.

(** The operators [/], [*], [-], [+] on numbers: the operands are read as
    binary64 and the exact result is rounded. (The divisors in the code
    modelled here are non-zero constants.) *)
Definition js_div (x y : Q) : Q := round64 (round64 x / round64 y).
Definition js_mul (x y : Q) : Q := round64 (round64 x * round64 y).
Definition js_sub (x y : Q) : Q := round64 (round64 x - round64 y).
Definition js_add (x y : Q) : Q := round64 (round64 x + round64 y).

(** [Math.floor]. *)
Definition Math_floor (x : Q) : Z := Qfloor x.

Arguments pow2 k : simpl never.
Arguments round64 x : simpl never.
Arguments js_div x y : simpl never.
Arguments js_mul x y : simpl never.
Arguments js_sub x y : simpl never.
Arguments js_add x y : simpl never.

(** [parseFloat(x.toFixed(2))]: [toFixed] negates a negative [x], takes the
    integer [n] with [n / 100] closest to [x] (the larger one on a tie) and
    prints its digits with two decimals; [parseFloat] reads them back.
    (From [10^21] on [toFixed] prints the shortest round-trip notation
    instead; a binary64 of that size is an integer, so the number denoted
    is the same.) *)
Definition toFixed2 (x : Q) : Q :=
  if num_lt x 0
  then Qopp (Qmake (Qfloor (Qopp x * 100 + (1 # 2))%Q) 100)
  else Qmake (Qfloor (x * 100 + (1 # 2))%Q) 100.

(** [Array.prototype.sort(cmp)]: a stable sort; [cmp a b > 0] puts [b]
    before [a], otherwise the input order of the two is kept. *)
Fixpoint sortInsert {A} (cmp : A → A → Z) (x : A) (l : list A) : list A :=
  match l with
  | [] => [x]
  | y :: l' => if cmp x y >? 0 then y :: sortInsert cmp x l' else x :: y :: l'
  end.

Fixpoint sortBy {A} (cmp : A → A → Z) (l : list A) : list A :=
  match l with
  | [] => []
  | x :: l' => sortInsert cmp x (sortBy cmp l')
  end.

(* ===================================================================== *)
(** ** Data model *)
(* ===================================================================== *)

(** One telemetry reading as the vendor API returns it, plus whatever other
    own properties the object has. *)
Record Sample := mkSample {
  createdOn : Z;
  gravity : Q;
  temperature : Q;
  battery : Q;
  rssi : Z;
  others : gmap string Q
}.

(** [t.abv], [t.attenuation], [t.gravityVelocity]: property reads that
    yield [undefined] when the object has no such property. *)
Definition abv (t : Sample) : option Q := others t !! "abv"%string.
Definition attenuation (t : Sample) : option Q := others t !! "attenuation"%string.
Definition gravityVelocity (t : Sample) : option Q := others t !! "gravityVelocity"%string.

Record Session := mkSession {
  sessionId : string;
  originalGravity : option Q
}.

Record Profile := mkProfile {
  sessions : option (list Session)
}.

Record ProfileSessionRef := mkRef {
  refId : option string
}.

(** A hydrometer. [T] is what its [telemetry] property holds: the array
    itself in the serverless function, which only ever assigns the property,
    and a reference to the array in the page, which sorts it in place. *)
Record Device (T : Type) := mkDevice {
  deviceId : string;
  deviceName : option string;
  activeProfileSession : option ProfileSessionRef;
  telemetry : option T;
  firmwareVersion : option string;
  isLatestFirmware : option bool;
  lastActivityTime : Z
}.
Arguments mkDevice {T}.
Arguments deviceId {T}.
Arguments deviceName {T}.
Arguments activeProfileSession {T}.
Arguments telemetry {T}.
Arguments firmwareVersion {T}.
Arguments isLatestFirmware {T}.
Arguments lastActivityTime {T}.

(** [device.telemetry = v]. *)
Definition setTelemetry {T} (device : Device T) (v : T) : Device T :=
  {| deviceId := deviceId device;
     deviceName := deviceName device;
     activeProfileSession := activeProfileSession device;
     telemetry := Some v;
     firmwareVersion := firmwareVersion device;
     isLatestFirmware := isLatestFirmware device;
     lastActivityTime := lastActivityTime device |}.

(** [CONFIG]: only [manualOriginalGravity] takes part in the logic; it is
    [null] when [RAPT_MANUAL_OG] is unset and the parsed number otherwise. *)
Record Config := mkConfig {
  manualOriginalGravity : option Q
}.

(* ===================================================================== *)
(** ** The serverless function: state, errors, network *)
(* ===================================================================== *)

Inductive result (A : Type) : Type :=
| Ok (a : A)
| Err (message : string).
Arguments Ok {A} a.
Arguments Err {A} message.

(** What the promise of [makeRequest] resolves to (lines 31-36): the
    [JSON.parse] of the body, or the body itself when parsing throws. *)
Inductive Body (A : Type) : Type :=
| Parsed (data : A)
| RawText (text : string).
Arguments Parsed {A} data.
Arguments RawText {A} text.

(** The HTTPS requests the function issues. *)
Inductive Request :=
| PostToken
| GetHydrometers
| GetTelemetryWindow (hydrometerId : string) (startDate endDate : Z)
| GetTelemetry (hydrometerId : string)
| GetProfiles.

(** The outside world: the clock and the replies, each a function of the
    requests made before. *)
Record World := mkWorld {
  dateNow : list Request → Z;
  tokenReply : list Request → result (Body (string * Z));
  hydrometersReply : list Request → result (Body (list (Device (list Sample))));
  telemetryReply : list Request → Request → result (Body (list Sample));
  profilesReply : list Request → result (Body (list Profile))
}.

(** Module-level variables, and the requests made so far. *)
Record State := mkState {
  accessToken : option string;
  tokenExpiry : option Z;
  requests : list Request
}.

Definition M (A : Type) : Type := State → result A * State.

Definition ret {A} (a : A) : M A := λ s, (Ok a, s).

Definition throw {A} (e : string) : M A := λ s, (Err e, s).

Definition bind {A B} (m : M A) (k : A → M B) : M B :=
  λ s, match m s with
       | (Ok a, s') => k a s'
       | (Err e, s') => (Err e, s')
       end.

(** [try { m } catch (error) { h error }]. *)
Definition tryCatch {A} (m : M A) (h : string → M A) : M A :=
  λ s, match m s with
       | (Ok a, s') => (Ok a, s')
       | (Err e, s') => h e s'
       end.

#[global] Instance M_ret : MRet M := @ret.
#[global] Instance M_bind : MBind M := λ A B k m, bind m k.

Definition getState : M State := λ s, (Ok s, s).

(** [await makeRequest(url, options)] (lines 17-51): the request is
    issued, and the promise resolves to the body of a 2xx response, parsed
    or not, or rejects. *)
Definition makeRequest {A} (reply : list Request → result (Body A)) (r : Request)
    : M (Body A) :=
  λ s, (reply (requests s), {| accessToken := accessToken s;
                               tokenExpiry := tokenExpiry s;
                               requests := requests s ++ [r] |}).

(** [accessToken = tok; tokenExpiry = expiry]; [None] is [undefined] for
    the token and [NaN] for the expiry. *)
Definition setToken (tok : option string) (expiry : option Z) : M unit :=
  λ s, (Ok (), {| accessToken := tok;
                  tokenExpiry := expiry;
                  requests := requests s |}).

Fixpoint forEachM {A B} (f : A → M B) (l : list A) : M (list B) :=
  match l with
  | [] => ret []
  | x :: l' => y ← f x ; ys ← forEachM f l' ; ret (y :: ys)
  end.

Section Server.

Variable W : World.
Variable CONFIG : Config.

(** [authenticate] (lines 54-82): never throws; [false] when the token
    exchange fails. A text has neither [access_token] nor [expires_in]:
    the token becomes [undefined] and the expiry [NaN]. *)
Definition authenticate : M bool :=
  tryCatch
    (data ← makeRequest (tokenReply W) PostToken ;
     s ← getState ;
     match data with
     | Parsed d => setToken (Some d.1) (Some (dateNow W (requests s) + d.2 * 1000))
     | RawText _ => setToken None None
     end ;;
     ret true)
    (λ _, ret false).

Definition isTokenValid : M bool :=
  s ← getState ;
  ret (truthyStr (accessToken s)
       && match tokenExpiry s with
          | Some e => negb (e =? 0) && (dateNow W (requests s) <? e)
          | None => false
          end).

Definition ensureToken : M unit :=
  valid ← isTokenValid ;
  if (valid : bool) then ret () else (_ ← authenticate ; ret ()).

(** [fetchTelemetry] (lines 90-132): the 24-hour window first, the plain
    call when that fails, the empty array when both fail. Whatever a call
    resolves to is returned as it is. *)
Definition fetchTelemetry (hydrometerId : string) : M (Body (list Sample)) :=
  ensureToken ;;
  s ← getState ;
  let endDate := dateNow W (requests s) in
  let startDate := endDate - 24 * 60 * 60 * 1000 in
  tryCatch
    (makeRequest (λ h, telemetryReply W h (GetTelemetryWindow hydrometerId startDate endDate))
           (GetTelemetryWindow hydrometerId startDate endDate))
    (λ _,
       tryCatch
         (makeRequest (λ h, telemetryReply W h (GetTelemetry hydrometerId))
                (GetTelemetry hydrometerId))
         (λ _, ret (Parsed []))).

(** The loop of [fetchProfileSession] over the profiles. *)
Fixpoint findSession (data : list Profile) (sid : string) : option Session :=
  match data with
  | [] => None
  | profile :: rest =>
      match sessions profile with
      | Some ss =>
          match List.find (λ s, String.eqb (sessionId s) sid) ss with
          | Some session => Some session
          | None => findSession rest sid
          end
      | None => findSession rest sid
      end
  end.

(** [fetchProfileSession] (lines 135-163). The loop over a text visits
    its characters, none of which has [sessions]. *)
Definition fetchProfileSession (sid : string) : M (option Session) :=
  ensureToken ;;
  tryCatch
    (data ← makeRequest (profilesReply W) GetProfiles ;
     match data with
     | Parsed profiles => ret (findSession profiles sid)
     | RawText _ => ret None
     end)
    (λ _, ret None).

(** Comparator of [sortedByDate]:
    [new Date(a.createdOn) - new Date(b.createdOn)]. *)
Definition byDateAscending (a b : Sample) : Z := createdOn a - createdOn b.

(** Lines 194-196: the session is looked up only when the device names
    one. *)
Definition lookupSession (device : Device (list Sample)) : M (option Session) :=
  match activeProfileSession device with
  | Some ref =>
      if truthyStr (refId ref)
      then fetchProfileSession (default ""%string (refId ref))
      else ret None
  | None => ret None
  end.

(** Lines 197-214: the three tiers that fill [og], given the session the
    lookup produced. [sortedByDate[0].gravity] throws on an empty array. *)
Definition pickOG (session : option Session) (telemetry : list Sample) : M Q :=
  let og1 := match session with
             | Some s =>
                 if truthyNum (originalGravity s) then originalGravity s else None
             | None => None
             end in
  let og2 := if negb (truthyNum og1) && truthyNum (manualOriginalGravity CONFIG)
             then manualOriginalGravity CONFIG
             else og1 in
  if negb (truthyNum og2) then
    match sortBy byDateAscending telemetry with
    | first :: _ => ret (gravity first)
    | [] => throw "Cannot read properties of undefined (reading 'gravity')"
    end
  else
    match og2 with
    | Some og => ret og
    | None => throw "unreachable: a truthy og is a number"
    end.

(** Lines 192-214 of [fetchHydrometers]. *)
Definition resolveOG (device : Device (list Sample)) (telemetry : list Sample) : M Q :=
  session ← lookupSession device ;
  pickOG session telemetry.

(** Lines 216-224: the callback of [telemetry.map]. *)
Definition enrich (og : Q) (t : Sample) : Sample :=
  let ogSG := js_div og 1000 in
  let fgSG := js_div (gravity t) 1000 in
  let abv := js_mul (js_sub ogSG fgSG) (13125 # 100) in
  {| createdOn := createdOn t;
     gravity := gravity t;
     temperature := temperature t;
     battery := battery t;
     rssi := rssi t;
     others := <["abv"%string := toFixed2 (Math_max 0 abv)]> (others t) |}.

(** Body of the loop over the devices (lines 184-226): the device is
    touched only when at least one sample was fetched. A non-empty text
    passes the guard of line 188 as well: the session is looked up, the
    three tiers run without throwing (the characters of the text have no
    [gravity]), and [telemetry.map] is not a function. *)
Definition enrichDevice (device : Device (list Sample)) : M (Device (list Sample)) :=
  telemetry ← fetchTelemetry (deviceId device) ;
  match telemetry with
  | Parsed samples =>
      if (0 <? Z.of_nat (length samples)) then
        let device := setTelemetry device samples in
        og ← resolveOG device samples ;
        ret (setTelemetry device (map (enrich og) samples))
      else ret device
  | RawText text =>
      if (0 <? Z.of_nat (String.length text)) then
        _ ← lookupSession device ;
        throw "telemetry.map is not a function"
      else ret device
  end.

(** The same loop body when the device list is a text and [device] one of
    its characters: [device.id] and [device.activeProfileSession] are
    [undefined], the former printed as such into the URL, and both
    assignments to [device.telemetry] do nothing. *)
Definition enrichCharacter : M unit :=
  telemetry ← fetchTelemetry "undefined" ;
  match telemetry with
  | Parsed samples =>
      if (0 <? Z.of_nat (length samples)) then
        _ ← pickOG None samples ;
        ret ()
      else ret ()
  | RawText text =>
      if (0 <? Z.of_nat (String.length text)) then
        throw "telemetry.map is not a function"
      else ret ()
  end.

(** [fetchHydrometers] (lines 166-233): any error is logged and thrown
    again. What is returned is [data] itself: the devices, or the text
    after one round of the loop per character. *)
Definition fetchHydrometers : M (Body (list (Device (list Sample)))) :=
  ensureToken ;;
  tryCatch
    (data ← makeRequest (hydrometersReply W) GetHydrometers ;
     match data with
     | Parsed devices =>
         out ← forEachM enrichDevice devices ;
         ret (Parsed out)
     | RawText text =>
         _ ← forEachM (λ _, enrichCharacter) (String.list_ascii_of_string text) ;
         ret (RawText text)
     end)
    (λ error, throw error).

End Server.

(* ===================================================================== *)
(** ** The page ([src/main.js]) *)
(* ===================================================================== *)

(** [tempConfig]. *)
Record TempConfig := mkTempConfig {
  tempDangerMin : Q;
  tempWarningMin : Q;
  tempWarningMax : Q;
  tempDangerMax : Q
}.

(** What [loadTempConfig] returns when nothing is saved. *)
Definition defaultTempConfig : TempConfig :=
  {| tempDangerMin := 18; tempWarningMin := 20;
     tempWarningMax := 26; tempDangerMax := 28 |}.

(** The identity of an array object. *)
Definition loc := positive.

(** The mutable state of the page: the arrays that exist, the global
    [window.deviceTelemetryData] and the module-level settings. *)
Record Page := mkPage {
  arrays : gmap loc (list Sample);
  deviceTelemetryData : gmap string loc;
  tempConfig : TempConfig;
  coldCrashMode : bool;
  darkMode : bool;
  monochromeMode : bool
}.

Definition setArrays (p : Page) (a : gmap loc (list Sample)) : Page :=
  {| arrays := a;
     deviceTelemetryData := deviceTelemetryData p;
     tempConfig := tempConfig p;
     coldCrashMode := coldCrashMode p;
     darkMode := darkMode p;
     monochromeMode := monochromeMode p |}.

Definition setDeviceTelemetryData (p : Page) (m : gmap string loc) : Page :=
  {| arrays := arrays p;
     deviceTelemetryData := m;
     tempConfig := tempConfig p;
     coldCrashMode := coldCrashMode p;
     darkMode := darkMode p;
     monochromeMode := monochromeMode p |}.

(** The elements of the array a reference points to. *)
Definition contents (p : Page) (l : loc) : list Sample :=
  default [] (arrays p !! l).

(** [device.telemetry && device.telemetry.length > 0]. *)
Definition hasTelemetry (p : Page) (device : Device loc) : bool :=
  match telemetry device with
  | Some l => 0 <? Z.of_nat (length (contents p l))
  | None => false
  end.

(** Comparator of the latest-reading selection:
    [new Date(b.createdOn) - new Date(a.createdOn)]. *)
Definition byDateDescending (a b : Sample) : Z := createdOn b - createdOn a.

(** [device.telemetry.sort(cmp)[0]] behind its guard (lines 972-974, and
    394-396 in the first variant): [sort] reorders the array the property
    refers to and returns that same array. *)
Definition selectLatest (device : Device loc) (p : Page) : option Sample * Page :=
  match telemetry device with
  | Some l =>
      if 0 <? Z.of_nat (length (contents p l)) then
        let sorted := sortBy byDateDescending (contents p l) in
        (head sorted, setArrays p (<[l := sorted]> (arrays p)))
      else (None, p)
  | None => (None, p)
  end.

Inductive TempWarning :=
| NoTempWarning
| HighTemperatureWarning (temp limit : Q)
| LowTemperatureWarning (temp limit : Q).

(** Lines 985-991: the alert above the card. *)
Definition tempWarning (cfg : TempConfig) (coldCrash : bool)
    (latestData : option Sample) : TempWarning :=
  match latestData with
  | Some d =>
      let highTemp := num_gt (temperature d) (tempDangerMax cfg) in
      let lowTemp := num_lt (temperature d) (tempDangerMin cfg) && negb coldCrash in
      if highTemp then HighTemperatureWarning (temperature d) (tempDangerMax cfg)
      else if lowTemp then LowTemperatureWarning (temperature d) (tempDangerMin cfg)
      else NoTempWarning
  | None => NoTempWarning
  end.

(** Lines 994-1010: the class of the temperature card. *)
Definition tempClass (cfg : TempConfig) (coldCrash : bool)
    (latestData : option Sample) : string :=
  match latestData with
  | Some d =>
      let temp := temperature d in
      let isLowDanger := num_lt temp (tempDangerMin cfg) && negb coldCrash in
      let isHighDanger := num_gt temp (tempDangerMax cfg) in
      if isLowDanger || isHighDanger then "info-card temp-danger"
      else if (num_ge temp (tempDangerMin cfg) && num_lt temp (tempWarningMin cfg))
              || (num_gt temp (tempWarningMax cfg) && num_le temp (tempDangerMax cfg))
      then "info-card temp-warning"
      else if num_ge temp (tempWarningMin cfg) && num_le temp (tempWarningMax cfg)
      then "info-card temp-good"
      else if coldCrash && num_lt temp (tempDangerMin cfg)
      then "info-card temp-good"
      else "info-card"
  | None => "info-card"
  end.

(** What one pass of the second [forEach] of [displayDevices] renders. *)
Record Card := mkCard {
  cardDevice : string;
  latestData : option Sample;
  lowBattery : bool;
  cardWarning : TempWarning;
  cardClass : string;
  chartScheduled : bool
}.

Definition displayDevice (device : Device loc) (p : Page) : Card * Page :=
  let '(latest, p') := selectLatest device p in
  ({| cardDevice := deviceId device;
      latestData := latest;
      lowBattery := match latest with
                    | Some d => num_lt (battery d) 20
                    | None => false
                    end;
      cardWarning := tempWarning (tempConfig p') (coldCrashMode p') latest;
      cardClass := tempClass (tempConfig p') (coldCrashMode p') latest;
      chartScheduled := hasTelemetry p' device |}, p').

(** The first [forEach]: remember each non-empty array under its device. *)
Definition storeTelemetry (p : Page) (device : Device loc) : Page :=
  if hasTelemetry p device then
    match telemetry device with
    | Some l => setDeviceTelemetryData p (<[deviceId device := l]> (deviceTelemetryData p))
    | None => p
    end
  else p.

Fixpoint renderCards (hydrometers : list (Device loc)) (p : Page) : list Card * Page :=
  match hydrometers with
  | [] => ([], p)
  | device :: rest =>
      let '(card, p1) := displayDevice device p in
      let '(cards, p2) := renderCards rest p1 in
      (card :: cards, p2)
  end.

(** [displayDevices] (lines 952-1094); with no device it only shows
    "No devices found". *)
Definition displayDevices (hydrometers : list (Device loc)) (p : Page) : list Card * Page :=
  if Z.of_nat (length hydrometers) =? 0 then ([], p)
  else renderCards hydrometers (foldl storeTelemetry p hydrometers).

Inductive TimeRange :=
| Hours (h : Z)
| AllTime.

(** The colour of one point of the temperature line (lines 760-783). *)
Definition tempColor (p : Page) (d : Sample) : string :=
  let temp := temperature d in
  let cfg := tempConfig p in
  let isLowTemp := num_lt temp (tempDangerMin cfg) in
  let isHighTemp := num_gt temp (tempDangerMax cfg) in
  if monochromeMode p then
    if (isLowTemp && negb (coldCrashMode p)) || isHighTemp
    then (if darkMode p then "rgb(212, 212, 212)" else "rgb(82, 82, 82)")
    else if (num_ge temp (tempDangerMin cfg) && num_lt temp (tempWarningMin cfg))
            || (num_gt temp (tempWarningMax cfg) && num_le temp (tempDangerMax cfg))
    then (if darkMode p then "rgb(163, 163, 163)" else "rgb(115, 115, 115)")
    else (if darkMode p then "rgb(115, 115, 115)" else "rgb(64, 64, 64)")
  else
    if (isLowTemp && negb (coldCrashMode p)) || isHighTemp
    then "rgb(239, 68, 68)"
    else if (num_ge temp (tempDangerMin cfg) && num_lt temp (tempWarningMin cfg))
            || (num_gt temp (tempWarningMax cfg) && num_le temp (tempDangerMax cfg))
    then "rgb(249, 115, 22)"
    else "rgb(34, 197, 94)".

(** The data [createChart] hands to the chart. *)
Record ChartData := mkChartData {
  readings : list Sample;
  temperatures : list Q;
  abvSeries : list (option Q);
  attenuationSeries : list (option Q);
  gravityVelocitySeries : list Q;
  tempColors : list string
}.

(** [d.gravityVelocity || 0]. *)
Definition gravityVelocityOrZero (d : Sample) : Q :=
  match gravityVelocity d with
  | Some v => if truthy v then v else 0%Q
  | None => 0%Q
  end.

(** [createChart] up to the construction of the chart: it filters the
    array it is given and sorts a copy of the result. *)
Definition createChart (p : Page) (now : Z) (telemetryData : loc)
    (timeRange : TimeRange) : ChartData :=
  let recentData :=
    match timeRange with
    | AllTime => contents p telemetryData
    | Hours h =>
        let cutoffTime := now - h * 60 * 60 * 1000 in
        List.filter (λ d, cutoffTime <=? createdOn d) (contents p telemetryData)
    end in
  let sortedData := sortBy byDateAscending recentData in
  {| readings := sortedData;
     temperatures := map temperature sortedData;
     abvSeries := map abv sortedData;
     attenuationSeries := map attenuation sortedData;
     gravityVelocitySeries := map gravityVelocityOrZero sortedData;
     tempColors := map (tempColor p) sortedData |}.

(* ===================================================================== *)
(** ** The specification's classifier *)
(* ===================================================================== *)

Inductive Severity := Good | Warning | Danger.

(** The rules of the threshold classifier as the specification words them,
    evaluated in the order given there. *)
Definition classify (temperature : Q) (config : TempConfig)
    (coldCrashActive : bool) : Severity :=
  if coldCrashActive && num_lt temperature (tempDangerMin config) then Good
  else if num_lt temperature (tempDangerMin config)
          || num_gt temperature (tempDangerMax config) then Danger
  else if (num_le (tempDangerMin config) temperature
           && num_lt temperature (tempWarningMin config))
          || (num_lt (tempWarningMax config) temperature
              && num_le temperature (tempDangerMax config)) then Warning
  else Good.

(** The invariant of a threshold configuration. *)
Definition ordered (config : TempConfig) : Prop :=
  (tempDangerMin config <= tempWarningMin config)%Q
  ∧ (tempWarningMin config <= tempWarningMax config)%Q
  ∧ (tempWarningMax config <= tempDangerMax config)%Q.

(** How the page renders each severity. *)
Definition severityClass (s : Severity) : string :=
  match s with
  | Danger => "info-card temp-danger"
  | Warning => "info-card temp-warning"
  | Good => "info-card temp-good"
  end.

Definition severityColor (monochrome dark : bool) (s : Severity) : string :=
  match s with
  | Danger =>
      if monochrome then (if dark then "rgb(212, 212, 212)" else "rgb(82, 82, 82)")
      else "rgb(239, 68, 68)"
  | Warning =>
      if monochrome then (if dark then "rgb(163, 163, 163)" else "rgb(115, 115, 115)")
      else "rgb(249, 115, 22)"
  | Good =>
      if monochrome then (if dark then "rgb(115, 115, 115)" else "rgb(64, 64, 64)")
      else "rgb(34, 197, 94)"
  end.

(* ===================================================================== *)
(** ** Concrete scenarios *)
(* ===================================================================== *)

(** A reading as the vendor sends it: no derived property. *)
Definition reading (time : Z) (points : Q) : Sample :=
  {| createdOn := time; gravity := points; temperature := 20;
     battery := 90; rssi := -60; others := ∅ |}.

Definition listed (name : string) (session : option ProfileSessionRef)
    : Device (list Sample) :=
  {| deviceId := name; deviceName := Some "Pill"%string;
     activeProfileSession := session; telemetry := None;
     firmwareVersion := None; isLatestFirmware := None;
     lastActivityTime := 0 |}.

(** A response whose body parses. *)
Definition parsed {A} (r : result A) : result (Body A) :=
  match r with
  | Ok a => Ok (Parsed a)
  | Err e => Err e
  end.

(** A world that lists [devices] and answers every windowed telemetry
    call with [window], every plain one with [plain], and every profile
    call with [profiles]. *)
Definition scenario (devices : list (Device (list Sample)))
    (window plain : result (list Sample))
    (profiles : result (list Profile)) : World :=
  {| dateNow := λ _, 1700000000000;
     tokenReply := λ _, Ok (Parsed ("token"%string, 3600));
     hydrometersReply := λ _, Ok (Parsed devices);
     telemetryReply := λ _ r,
       match r with
       | GetTelemetryWindow _ _ _ => parsed window
       | _ => parsed plain
       end;
     profilesReply := λ _, parsed profiles |}.

(** The same world, except that the windowed telemetry call is answered
    with status 200 and a body that is not JSON. *)
Definition garbled (devices : list (Device (list Sample))) (text : string) : World :=
  {| dateNow := λ _, 1700000000000;
     tokenReply := λ _, Ok (Parsed ("token"%string, 3600));
     hydrometersReply := λ _, Ok (Parsed devices);
     telemetryReply := λ _ r,
       match r with
       | GetTelemetryWindow _ _ _ => Ok (RawText text)
       | _ => Ok (Parsed [])
       end;
     profilesReply := λ _, Ok (Parsed []) |}.

(** The state of a freshly started function. *)
Definition coldStart : State :=
  {| accessToken := None; tokenExpiry := None; requests := [] |}.

(** Two readings an hour apart: 1.063 falling to 1.010. *)
Definition brew : list Sample :=
  [reading 1699990000000 1063; reading 1699993600000 1010].

(** Two readings taken at the same instant. *)
Definition tie : list Sample :=
  [reading 1699990000000 1060; reading 1699990000000 1050].

Definition plainPill : Device (list Sample) := listed "pill-1" None.

Definition sessionPill : Device (list Sample) :=
  listed "pill-2" (Some {| refId := Some "session-1"%string |}).

(** A profile whose session reports an original gravity of [og]. *)
Definition profileWith (og : option Q) : list Profile :=
  [{| sessions := Some [{| sessionId := "session-1"; originalGravity := og |}] |}].

(** A reading of a given temperature. *)
Definition thermo (temp : Q) : Sample :=
  {| createdOn := 0; gravity := 1010; temperature := temp;
     battery := 90; rssi := -60; others := ∅ |}.

(** A page with no array yet and the given settings. *)
Definition pageWith (cfg : TempConfig) (coldCrash dark monochrome : bool) : Page :=
  {| arrays := ∅; deviceTelemetryData := ∅; tempConfig := cfg;
     coldCrashMode := coldCrash; darkMode := dark;
     monochromeMode := monochrome |}.

(** The page after loading one device whose array holds the brew, oldest
    reading first. *)
Definition shownPill : Device loc :=
  {| deviceId := "pill-1"; deviceName := Some "Pill"%string;
     activeProfileSession := None; telemetry := Some 1%positive;
     firmwareVersion := None; isLatestFirmware := None;
     lastActivityTime := 0 |}.

Definition loadedPage : Page :=
  {| arrays := {[ 1%positive := map (enrich 1063) brew ]};
     deviceTelemetryData := ∅; tempConfig := defaultTempConfig;
     coldCrashMode := false; darkMode := false; monochromeMode := false |}.

(* ===================================================================== *)
(** ** Notions used to state the properties *)
(* ===================================================================== *)


(** The product of lines 217-219 as the code computes it, in binary64. *)
Definition abvProduct (og gravity : Q) : Q :=
  js_mul (js_sub (js_div og 1000) (js_div gravity 1000)) (13125 # 100).

(** The same product of the same two numbers in exact arithmetic. *)
Definition exactProduct (og gravity : Q) : Q :=
  ((round64 og / 1000 - round64 gravity / 1000) * (13125 # 100))%Q.

(** The relative error of one binary64 rounding, and its absolute error
    among the subnormal numbers. *)
Definition epsilon : Q := pow2 (-53).
Definition eta : Q := pow2 (-1075).

(** A bound on what the four roundings of the product can add up to:
    about [2.3e-13] for gravities around 1000. *)
Definition tolerance (og gravity : Q) : Q :=
  ((Qabs (round64 og) + Qabs (round64 gravity)) * pow2 (-54) + pow2 (-1066))%Q.

(** The value of a finite binary64 number of the Standard Library's
    specification of IEEE 754. *)
Definition valueOf (f : spec_float) : Q :=
  match f with
  | S754_finite sign m e =>
      ((if sign then - inject_Z (Zpos m) else inject_Z (Zpos m)) * pow2 e)%Q
  | _ => 0%Q
  end.

(** The binary64 number an integer denotes, and the product of lines
    217-219 computed with the division, subtraction and multiplication of
    that specification. *)
Definition ieee (n : Z) : spec_float := binary_normalize 53 1024 n 0 false.

Definition ieeeProduct (og gravity : Z) : spec_float :=
  SFmul 53 1024
    (SFsub 53 1024 (SFdiv 53 1024 (ieee og) (ieee 1000))
                   (SFdiv 53 1024 (ieee gravity) (ieee 1000)))
    (SFdiv 53 1024 (ieee 13125) (ieee 100)).

(** Original gravities 1000, 1007, ... and readings 990, 993, ...; between
    them they cover every position of the reading relative to the
    original gravity that a fermentation goes through. *)
Definition gravityGrid : list (Z * Z) :=
  og ← (λ k, 1000 + 7 * Z.of_nat k) <$> seq 0 16 ;
  (λ k, (og, 990 + 3 * Z.of_nat k)) <$> seq 0 40.

(** The order a comparator [key a - key b] sorts into. *)
Definition keyLe {A} (key : A → Z) (a b : A) : Prop := key a ≤ key b.

(** The first element of a list among those with the least key. *)
Fixpoint firstLeast {A} (key : A → Z) (l : list A) : option A :=
  match l with
  | [] => None
  | x :: l' =>
      match firstLeast key l' with
      | Some m => if key m <? key x then Some m else Some x
      | None => Some x
      end
  end.

(** A candidate original gravity that is missing or zero. *)
Definition falsy (og : option Q) : Prop :=
  og = None ∨ ∃ q, og = Some q ∧ (q == 0)%Q.

(** The original gravity the looked-up session exposes, if any. *)
Definition sessionOG (session : option Session) : option Q :=
  session ≫= originalGravity.

(** The hydrometer a telemetry request is about. *)
Definition hydrometerOf (r : Request) : option string :=
  match r with
  | GetTelemetryWindow h _ _ => Some h
  | GetTelemetry h => Some h
  | _ => None
  end.


(** Every telemetry call for a hydrometer fails or yields no sample. *)
Definition telemetryEmpty (W : World) (hid : string) : Prop :=
  ∀ h r, hydrometerOf r = Some hid →
    telemetryReply W h r = Ok (Parsed [])
    ∨ telemetryReply W h r = Ok (RawText "")
    ∨ ∃ e, telemetryReply W h r = Err e.

(** No telemetry call is answered with a non-empty body that is not
    JSON. *)
Definition telemetryParses (W : World) : Prop :=
  ∀ h r text, telemetryReply W h r = Ok (RawText text) → text = ""%string.

(** The state after further requests. *)
Definition after (s : State) (rs : list Request) : State :=
  {| accessToken := accessToken s;
     tokenExpiry := tokenExpiry s;
     requests := requests s ++ rs |}.

(** The samples a device of the output carries. *)
Definition series (d : Device (list Sample)) : list Sample :=
  default [] (telemetry d).

(** The page shows reading [d] with severity [sev]: both the card of the
    latest reading and the point of the temperature line are rendered the
    way that severity is. *)
Definition shows (p : Page) (d : Sample) (sev : Severity) : Prop :=
  tempClass (tempConfig p) (coldCrashMode p) (Some d) = severityClass sev
  ∧ tempColor p d = severityColor (monochromeMode p) (darkMode p) sev.

(** The order of an array sorted newest first. *)
Definition newestFirst (a b : Sample) : Prop := createdOn b ≤ createdOn a.

(** The arrays the listed devices refer to. *)
Definition telemetryRefs (hydrometers : list (Device loc)) : list loc :=
  omap telemetry hydrometers.

(** A computation that returns normally from every state. *)
Definition total {A} (m : M A) : Prop := ∀ s, ∃ a s', m s = (Ok a, s').

(** A cached token that stays valid: it is non-empty and its expiry lies
    after every reading of the clock. *)
Definition tokenGood (W : World) (s : State) : Prop :=
  truthyStr (accessToken s) = true
  ∧ ∃ e, tokenExpiry s = Some e ∧ e ≠ 0 ∧ ∀ h, dateNow W h < e.

(** A computation that, started with such a token, keeps it and makes no
    token request. *)
Definition quiet {A} (W : World) (m : M A) : Prop :=
  ∀ s, tokenGood W s → ∃ rs, (m s).2 = after s rs ∧ PostToken ∉ rs.

(** What became of a listed device: it is untouched, or its telemetry is
    a non-empty array of samples all enriched with one original gravity. *)
Definition enrichedFrom (d o : Device (list Sample)) : Prop :=
  o = d
  ∨ ∃ og fetched, fetched ≠ [] ∧ o = setTelemetry d (map (enrich og) fetched).

(** A sample lies in the time range of a chart drawn at [now]. *)
Definition inWindow (now : Z) (range : TimeRange) (d : Sample) : bool :=
  match range with
  | Hours h => now - h * 60 * 60 * 1000 <=? createdOn d
  | AllTime => true
  end.

(** The settings of the page that the rendering reads. *)
Definition settings (p : Page) : TempConfig * bool * bool * bool :=
  (tempConfig p, coldCrashMode p, darkMode p, monochromeMode p).

(* ===================================================================== *)
(** ** The rest of the serverless function *)
(* ===================================================================== *)

(** The part of the Netlify event the handler reads. *)
Record Event := mkEvent {
  httpMethod : string
}.

(** What the handler puts in [body]: the empty string, or the
    [JSON.stringify] of an error object, of the device array or of the
    text [fetchHydrometers] returned. *)
Inductive Payload :=
| NoPayload
| ErrorPayload (error : string)
| DevicesPayload (data : list (Device (list Sample)))
| TextPayload (text : string).

(** The handler's response; the CORS headers are the same in all of them. *)
Record Reply := mkReply {
  statusCode : Z;
  body : Payload
}.

(** [exports.handler] (lines 236-277). *)
Definition handler (W : World) (CONFIG : Config) (event : Event) : M Reply :=
  if String.eqb (httpMethod event) "OPTIONS" then
    ret {| statusCode := 200; body := NoPayload |}
  else if negb (String.eqb (httpMethod event) "GET") then
    ret {| statusCode := 405; body := ErrorPayload "Method not allowed" |}
  else
    tryCatch
      (data ← fetchHydrometers W CONFIG ;
       ret {| statusCode := 200;
              body := match data with
                      | Parsed devices => DevicesPayload devices
                      | RawText text => TextPayload text
                      end |})
      (λ error, ret {| statusCode := 500; body := ErrorPayload error |}).

(* ===================================================================== *)
(** ** The rest of the page *)
(* ===================================================================== *)

(** [Math.min(a, b)]. *)
Definition Math_min (a b : Q) : Q := if num_lt b a then b else a.

(** [x || d] on a number that may be [NaN] or missing. *)
Definition orElse (x : option Q) (d : Q) : Q :=
  match x with
  | Some q => if truthy q then q else d
  | None => d
  end.

(** One colour of the attenuation line: the components of the
    [rgb(r, g, b)] string. *)
Record Rgb := mkRgb {
  red : Z;
  green : Z;
  blue : Z
}.

(** The callback of [attenuationColors] (lines 741-757). *)
Definition attenuationColor (p : Page) (d : Sample) : Rgb :=
  let att := orElse (attenuation d) 0 in
  if monochromeMode p then
    let grayValue :=
      if darkMode p
      then Math_floor (js_sub 212 (js_mul (js_div att 100) 100))
      else Math_floor (js_add 64 (js_mul (js_div att 100) 100)) in
    {| red := grayValue; green := grayValue; blue := grayValue |}
  else
    let progress := Math_min (js_div att 100) 1 in
    {| red := Math_floor (js_sub 236 (js_mul (js_sub 236 167) progress));
       green := Math_floor (js_add 72 (js_mul (js_sub 139 72) progress));
       blue := Math_floor (js_add 153 (js_mul (js_sub 250 153) progress)) |}.

(** The first variant of the page has the thresholds written into the
    code and no cold-crash mode. Lines 413-423: the class of the card. *)
Definition tempClassV1 (latestData : option Sample) : string :=
  match latestData with
  | Some d =>
      let temp := temperature d in
      if num_lt temp 18 || num_gt temp 28 then "info-card temp-danger"
      else if (num_ge temp 18 && num_lt temp 20) || (num_gt temp 26 && num_le temp 28)
      then "info-card temp-warning"
      else if num_ge temp 20 && num_le temp 26 then "info-card temp-good"
      else "info-card"
  | None => "info-card"
  end.

(** Lines 205-224: the colour of a point in the first variant. *)
Definition tempColorV1 (monochrome dark : bool) (d : Sample) : string :=
  let temp := temperature d in
  if monochrome then
    if num_lt temp 18 || num_gt temp 28
    then (if dark then "rgb(212, 212, 212)" else "rgb(82, 82, 82)")
    else if (num_ge temp 18 && num_lt temp 20) || (num_gt temp 26 && num_le temp 28)
    then (if dark then "rgb(163, 163, 163)" else "rgb(115, 115, 115)")
    else (if dark then "rgb(115, 115, 115)" else "rgb(64, 64, 64)")
  else
    if num_lt temp 18 || num_gt temp 28 then "rgb(239, 68, 68)"
    else if (num_ge temp 18 && num_lt temp 20) || (num_gt temp 26 && num_le temp 28)
    then "rgb(249, 115, 22)"
    else "rgb(34, 197, 94)".

(** Lines 407-410: the only temperature alert of the first variant. *)
Definition tempWarningV1 (latestData : option Sample) : TempWarning :=
  match latestData with
  | Some d =>
      if num_gt (temperature d) 28
      then HighTemperatureWarning (temperature d) 28
      else NoTempWarning
  | None => NoTempWarning
  end.

Definition setTempConfig (p : Page) (cfg : TempConfig) : Page :=
  {| arrays := arrays p;
     deviceTelemetryData := deviceTelemetryData p;
     tempConfig := cfg;
     coldCrashMode := coldCrashMode p;
     darkMode := darkMode p;
     monochromeMode := monochromeMode p |}.

(** What [parseFloat] made of the four inputs of the settings dialog;
    [None] is [NaN]. *)
Record SettingsForm := mkSettingsForm {
  enteredDangerMin : option Q;
  enteredWarningMin : option Q;
  enteredWarningMax : option Q;
  enteredDangerMax : option Q
}.

(** [newConfig] of [saveSettings] (lines 1136-1141). *)
Definition newConfig (form : SettingsForm) : TempConfig :=
  {| tempDangerMin := orElse (enteredDangerMin form) 18;
     tempWarningMin := orElse (enteredWarningMin form) 20;
     tempWarningMax := orElse (enteredWarningMax form) 26;
     tempDangerMax := orElse (enteredDangerMax form) 28 |}.

(** [saveSettings] (lines 1135-1148) up to the reload it ends with. *)
Definition saveSettings (form : SettingsForm) (p : Page) : Page :=
  setTempConfig p (newConfig form).

(** The JSON object the page may receive: the properties it reads. *)
Record Envelope := mkEnvelope {
  payloadError : option string;
  payloadConfig : option TempConfig;
  payloadDevices : option (list (Device (list Sample)))
}.

(** What [response.json()] can resolve to: the bare device array of the
    function modelled above, or an object. *)
Inductive Json :=
| JsonArray (devices : list (Device (list Sample)))
| JsonObject (envelope : Envelope).

(** How [fetch] and [response.json()] turn out: [fetch] rejects, or there
    is a response, whose body parses or does not. *)
Inductive Fetched :=
| FetchRejected (message : string)
| FetchResponse (ok : bool) (status : Z) (statusText : string) (json : result Json).

(** The value of [data.devices || data]. *)
Inductive Hydrometers :=
| DeviceList (devices : list (Device loc))
| NotAList.

(** The page together with the two elements [loadData] drives: the status
    line (text, class, [style.display = 'none']) and the refresh button. *)
Record Browser := mkBrowser {
  page : Page;
  statusMessage : string;
  statusType : string;
  statusHidden : bool;
  refreshDisabled : bool
}.

Definition setPage (b : Browser) (p : Page) : Browser :=
  {| page := p;
     statusMessage := statusMessage b;
     statusType := statusType b;
     statusHidden := statusHidden b;
     refreshDisabled := refreshDisabled b |}.

Definition setRefreshDisabled (b : Browser) (v : bool) : Browser :=
  {| page := page b;
     statusMessage := statusMessage b;
     statusType := statusType b;
     statusHidden := statusHidden b;
     refreshDisabled := v |}.

(** [document.getElementById('status').style.display = 'none']. *)
Definition hideStatus (b : Browser) : Browser :=
  {| page := page b;
     statusMessage := statusMessage b;
     statusType := statusType b;
     statusHidden := true;
     refreshDisabled := refreshDisabled b |}.

(** The same device with its [telemetry] property holding [t]. *)
Definition withTelemetry {A B} (d : Device A) (t : option B) : Device B :=
  {| deviceId := deviceId d;
     deviceName := deviceName d;
     activeProfileSession := activeProfileSession d;
     telemetry := t;
     firmwareVersion := firmwareVersion d;
     isLatestFirmware := isLatestFirmware d;
     lastActivityTime := lastActivityTime d |}.

(** Parsing an array creates a new array object. *)
Definition newArray (samples : list Sample) (p : Page) : loc * Page :=
  let l := fresh (dom (arrays p)) in
  (l, setArrays p (<[l := samples]> (arrays p))).

(** Parsing the device array: every [telemetry] array becomes an array
    of its own. *)
Fixpoint parseDevices (devices : list (Device (list Sample))) (p : Page)
    : list (Device loc) * Page :=
  match devices with
  | [] => ([], p)
  | d :: rest =>
      match telemetry d with
      | Some samples =>
          let '(l, p1) := newArray samples p in
          let '(rest', p2) := parseDevices rest p1 in
          (withTelemetry d (Some l) :: rest', p2)
      | None =>
          let '(rest', p2) := parseDevices rest p in
          (withTelemetry d None :: rest', p2)
      end
  end.

Module Main.

(** [showStatus] (lines 648-652): text and class, nothing else. *)
Definition showStatus (message type : string) (b : Browser) : Browser :=
  {| page := page b;
     statusMessage := message;
     statusType := type;
     statusHidden := statusHidden b;
     refreshDisabled := refreshDisabled b |}.

(** The [catch] block of [fetchHydrometers]. *)
Definition failed (message : string) (b : Browser) : Hydrometers * Browser :=
  (DeviceList [], showStatus ("Error fetching data: " +:+ message) "error" b).

(** [fetchHydrometers] of the page (lines 655-684), given how the fetch
    turns out. *)
Definition fetchHydrometers (reply : Fetched) (b : Browser) : Hydrometers * Browser :=
  let b := showStatus "Fetching device data..." "loading" b in
  match reply with
  | FetchRejected message => failed message b
  | FetchResponse ok status statusText json =>
      if negb ok then
        failed ("API request failed: " +:+ pretty status +:+ " " +:+ statusText) b
      else
        match json with
        | Err message => failed message b
        | Ok (JsonArray devices) =>
            let '(hydrometers, p) := parseDevices devices (page b) in
            (DeviceList hydrometers, hideStatus (setPage b p))
        | Ok (JsonObject data) =>
            let '(hydrometers, p) :=
              match payloadDevices data with
              | Some devices =>
                  let '(hs, p) := parseDevices devices (page b) in (Some hs, p)
              | None => (None, page b)
              end in
            let b := setPage b p in
            if truthyStr (payloadError data) then
              failed (default ""%string (payloadError data)) b
            else
              let b := match payloadConfig data with
                       | Some config => setPage b (setTempConfig (page b) config)
                       | None => b
                       end in
              (match hydrometers with
               | Some hs => DeviceList hs
               | None => NotAList
               end, hideStatus b)
        end
  end.

(** [loadData] (lines 1097-1105). Handing [displayDevices] something that
    is not an array throws at its first [forEach]. *)
Definition loadData (reply : Fetched) (b : Browser) : result (list Card) * Browser :=
  let b := setRefreshDisabled b true in
  let '(hydrometers, b) := fetchHydrometers reply b in
  match hydrometers with
  | DeviceList hs =>
      let '(cards, p) := displayDevices hs (page b) in
      (Ok cards, setRefreshDisabled (setPage b p) false)
  | NotAList => (Err "hydrometers.forEach is not a function", b)
  end.

End Main.

Definition setColdCrashMode (p : Page) (v : bool) : Page :=
  {| arrays := arrays p;
     deviceTelemetryData := deviceTelemetryData p;
     tempConfig := tempConfig p;
     coldCrashMode := v;
     darkMode := darkMode p;
     monochromeMode := monochromeMode p |}.

(** [toggleColdCrashMode] (lines 600-606): flip the flag, then reload.
    [applyTheme] in between redraws the charts from copies of the arrays
    and changes none of the state kept here. *)
Definition toggleColdCrashMode (reply : Fetched) (b : Browser)
    : result (list Card) * Browser :=
  Main.loadData reply
    (setPage b (setColdCrashMode (page b) (negb (coldCrashMode (page b))))).

(** The ways a load fails: the fetch is rejected, the response is not ok,
    its body does not parse, or the body is an object with an [error]. *)
Definition fetchFails (reply : Fetched) : Prop :=
  match reply with
  | FetchRejected _ => True
  | FetchResponse ok _ _ json =>
      ok = false
      ∨ (∃ message, json = Err message)
      ∨ (∃ data, json = Ok (JsonObject data) ∧ truthyStr (payloadError data) = true)
  end.

(** The device array a successful load delivers, bare or as [devices]. *)
Definition delivers (reply : Fetched) (devices : list (Device (list Sample))) : Prop :=
  ∃ status statusText,
    reply = FetchResponse true status statusText (Ok (JsonArray devices))
    ∨ ∃ data,
        reply = FetchResponse true status statusText (Ok (JsonObject data))
        ∧ truthyStr (payloadError data) = false
        ∧ payloadDevices data = Some devices.


(* ===================================================================== *)
(** ** The definitions at work *)
(* ===================================================================== *)

Example toFixed2_rounds_up : toFixed2 (695625 # 100000) = (696 # 100)%Q.
Proof. reflexivity. Qed.

Example toFixed2_tie_goes_up : toFixed2 (5 # 1000) = (1 # 100)%Q.
Proof. reflexivity. Qed.

Example toFixed2_negative : toFixed2 (- (1234 # 1000)) = (- (123 # 100))%Q.
Proof. reflexivity. Qed.

Example sortBy_is_stable :
  map gravity (sortBy byDateAscending
    [reading 3 1030; reading 1 1010; reading 3 1031; reading 1 1011])
  = [1010; 1011; 1030; 1031]%Q.
Proof. reflexivity. Qed.

Example brew_is_enriched :
  map abv (map (enrich 1063) brew) = [Some (0 # 100)%Q; Some (696 # 100)%Q].
Proof. vm_compute. reflexivity. Qed.

Example gravity_above_og_is_clamped :
  abv (enrich 1010 (reading 0 1063)) = Some (0 # 100)%Q.
Proof. vm_compute. reflexivity. Qed.

(** Binary64 at work: 0.1 is not a binary64 number; 8.925 is computed as
    a number just below it and rounds down; equal drops need not give
    equal products; a product that is 0.005 and a little more in exact
    arithmetic comes out below 0.005. *)
Example round64_one_tenth :
  Qred (round64 (1 # 10)) = (3602879701896397 # 36028797018963968)%Q.
Proof. vm_compute. reflexivity. Qed.

Example abv_of_a_tie :
  ((1063 / 1000 - 995 / 1000) * (13125 # 100) == 8925 # 1000)%Q
  ∧ abv (enrich 1063 (reading 0 995)) = Some (892 # 100)%Q.
Proof. split; [reflexivity | vm_compute; reflexivity]. Qed.

Example equal_drops_unequal_abv :
  abv (enrich 1100 (reading 0 1064)) = Some (473 # 100)%Q
  ∧ abv (enrich 1035 (reading 0 999)) = Some (472 # 100)%Q.
Proof. split; vm_compute; reflexivity. Qed.

Example abv_below_the_exact_boundary :
  (1 # 200 < (1012 / 1000 - (10119619047619047 # 10000000000000) / 1000)
             * (13125 # 100))%Q
  ∧ abv (enrich 1012 (reading 0 (10119619047619047 # 10000000000000)))
    = Some (0 # 100)%Q.
Proof. split; [reflexivity | vm_compute; reflexivity]. Qed.

(** On the grid the product is, bit for bit, the one the Standard
    Library's specification of the IEEE 754 operations gives. *)
Example abvProduct_is_the_IEEE_754_product :
  forallb
    (λ '(og, gravity),
       Qeq_bool (valueOf (ieeeProduct og gravity))
                (abvProduct (inject_Z og) (inject_Z gravity)))
    gravityGrid = true.
Proof. vm_compute. reflexivity. Qed.

Example grey_of_109_percent :
  attenuationColor
    (pageWith defaultTempConfig false true true)
    {| createdOn := 0; gravity := 1010; temperature := 20; battery := 90;
       rssi := -60; others := {[ "attenuation"%string := 109%Q ]} |}
  = {| red := 102; green := 102; blue := 102 |}.
Proof. vm_compute. reflexivity. Qed.

Example requests_of_a_failing_window :
  requests (fetchTelemetry (scenario [] (Err "500") (Ok brew) (Ok []))
              "pill-1" coldStart).2
  = [PostToken;
     GetTelemetryWindow "pill-1" 1699913600000 1700000000000;
     GetTelemetry "pill-1"].
Proof. vm_compute. reflexivity. Qed.

(** A telemetry response with status 200 and a body that is not JSON
    ends the whole request with a 500; an empty body does not. *)
Example unparsable_telemetry_aborts_the_request :
  (handler (garbled [plainPill] "<html>") {| manualOriginalGravity := None |}
     {| httpMethod := "GET" |} coldStart).1
  = Ok {| statusCode := 500;
          body := ErrorPayload "telemetry.map is not a function" |}
  ∧ (handler (garbled [plainPill] "") {| manualOriginalGravity := None |}
       {| httpMethod := "GET" |} coldStart).1
    = Ok {| statusCode := 200; body := DevicesPayload [plainPill] |}.
Proof. split; vm_compute; reflexivity. Qed.

(** A device list that is not JSON is answered as it is, after one
    telemetry call per character, each for the hydrometer "undefined". *)
Example unparsable_device_list :
  handler
    {| dateNow := λ _, 1700000000000;
       tokenReply := λ _, Ok (Parsed ("token"%string, 3600));
       hydrometersReply := λ _, Ok (RawText "ok");
       telemetryReply := λ _ _, Ok (Parsed brew);
       profilesReply := λ _, Ok (Parsed []) |}
    {| manualOriginalGravity := None |} {| httpMethod := "GET" |} coldStart
  = (Ok {| statusCode := 200; body := TextPayload "ok" |},
     {| accessToken := Some "token"%string;
        tokenExpiry := Some 1700003600000;
        requests := [PostToken; GetHydrometers;
                     GetTelemetryWindow "undefined" 1699913600000 1700000000000;
                     GetTelemetryWindow "undefined" 1699913600000 1700000000000] |}).
Proof. vm_compute. reflexivity. Qed.

(** A token response that is not JSON leaves no token behind, so the next
    call authenticates again. *)
Example unparsable_token :
  requests
    (fetchTelemetry
       {| dateNow := λ _, 1700000000000;
          tokenReply := λ _, Ok (RawText "<html>");
          hydrometersReply := λ _, Ok (Parsed []);
          telemetryReply := λ _ _, Ok (Parsed brew);
          profilesReply := λ _, Ok (Parsed []) |}
       "pill-1"
       (fetchTelemetry
          {| dateNow := λ _, 1700000000000;
             tokenReply := λ _, Ok (RawText "<html>");
             hydrometersReply := λ _, Ok (Parsed []);
             telemetryReply := λ _ _, Ok (Parsed brew);
             profilesReply := λ _, Ok (Parsed []) |}
          "pill-1" coldStart).2).2
  = [PostToken; GetTelemetryWindow "pill-1" 1699913600000 1700000000000;
     PostToken; GetTelemetryWindow "pill-1" 1699913600000 1700000000000].
Proof. vm_compute. reflexivity. Qed.

Example fallback_ignores_input_order :
  resolveOG (scenario [plainPill] (Ok (rev brew)) (Ok (rev brew)) (Ok []))
    {| manualOriginalGravity := None |} plainPill (rev brew) coldStart
  = (Ok 1063%Q, coldStart).
Proof. vm_compute. reflexivity. Qed.

Example cold_crash_card :
  tempClass defaultTempConfig true (Some (thermo 15)) = "info-card temp-good"%string
  ∧ tempClass defaultTempConfig false (Some (thermo 15)) = "info-card temp-danger"%string
  ∧ tempClass defaultTempConfig true (Some (thermo 19)) = "info-card temp-warning"%string.
Proof. repeat split; reflexivity. Qed.

Example display_reorders_the_array :
  map createdOn (contents (displayDevices [shownPill] loadedPage).2 1%positive)
  = [1699993600000; 1699990000000].
Proof. vm_compute. reflexivity. Qed.

(* ===================================================================== *)
(** ** Facts about the operators *)
(* ===================================================================== *)

Lemma num_lt_true x y : num_lt x y = true ↔ (x < y)%Q.
Proof.
  unfold num_lt. rewrite Qlt_alt. destruct (x ?= y)%Q; split; congruence.
Qed.

Lemma num_lt_false x y : num_lt x y = false ↔ (y <= x)%Q.
Proof.
  rewrite <- not_true_iff_false, num_lt_true. split.
  - apply Qnot_lt_le.
  - apply Qle_not_lt.
Qed.

Lemma num_le_true x y : num_le x y = true ↔ (x <= y)%Q.
Proof.
  unfold num_le. rewrite Qle_alt. destruct (x ?= y)%Q; split; congruence.
Qed.

Lemma num_le_false x y : num_le x y = false ↔ (y < x)%Q.
Proof.
  rewrite <- not_true_iff_false, num_le_true. split.
  - apply Qnot_le_lt.
  - apply Qlt_not_le.
Qed.

Lemma num_gt_true x y : num_gt x y = true ↔ (y < x)%Q.
Proof. apply num_lt_true. Qed.

Lemma num_gt_false x y : num_gt x y = false ↔ (x <= y)%Q.
Proof. apply num_lt_false. Qed.

Lemma num_ge_true x y : num_ge x y = true ↔ (y <= x)%Q.
Proof. apply num_le_true. Qed.

Lemma num_ge_false x y : num_ge x y = false ↔ (x < y)%Q.
Proof. apply num_le_false. Qed.

Lemma truthy_true x : truthy x = true ↔ ¬ (x == 0)%Q.
Proof.
  unfold truthy. rewrite negb_true_iff, <- not_true_iff_false, Qeq_bool_iff.
  tauto.
Qed.

Lemma truthy_false x : truthy x = false ↔ (x == 0)%Q.
Proof.
  unfold truthy. rewrite negb_false_iff. apply Qeq_bool_iff.
Qed.

Lemma Math_max_Qmax a b : (Math_max a b == Qmax a b)%Q.
Proof.
  unfold Math_max. destruct (num_lt a b) eqn:E.
  - apply num_lt_true in E. symmetry. apply Q.max_r, Qlt_le_weak, E.
  - apply num_lt_false in E. symmetry. apply Q.max_l, E.
Qed.

Lemma Math_max_nonneg x : (0 <= Math_max 0 x)%Q.
Proof.
  unfold Math_max. destruct (num_lt 0 x) eqn:E.
  - apply num_lt_true in E. lra.
  - lra.
Qed.

Lemma hundredths (n : Z) : (n # 100 == inject_Z n * (1 # 100))%Q.
Proof. unfold Qeq, inject_Z. simpl. lia. Qed.


(* ===================================================================== *)
(** ** Facts about binary64 arithmetic *)
(* ===================================================================== *)

Lemma pow2_pos k : (0 < pow2 k)%Q.
Proof. apply Qpower_0_lt. reflexivity. Qed.

Lemma pow2_plus a b : (pow2 (a + b) == pow2 a * pow2 b)%Q.
Proof. apply Qpower_plus. discriminate. Qed.

Lemma pow2_le a b : a ≤ b → (pow2 a <= pow2 b)%Q.
Proof. intros H. apply Qpower_le_compat_l; [exact H | discriminate]. Qed.

Lemma pow2_lt a b : a < b → (pow2 a < pow2 b)%Q.
Proof. intros H. apply Qpower_lt_compat_l; [exact H | reflexivity]. Qed.

Lemma pow2_lt_inv a b : (pow2 a < pow2 b)%Q → a < b.
Proof. intros H. eapply Qpower_lt_compat_l_inv; [exact H | reflexivity]. Qed.

Lemma pow2_inject k : 0 ≤ k → (pow2 k == inject_Z (2 ^ k))%Q.
Proof. intros H. unfold pow2. by rewrite Zpower_Qpower. Qed.

Lemma pow2_succ k : (pow2 (k + 1) == 2 * pow2 k)%Q.
Proof. rewrite pow2_plus. change (pow2 1) with 2%Q. lra. Qed.

Lemma Z_log2_bounds n : 0 < n →
  (pow2 (Z.log2 n) <= inject_Z n)%Q ∧ (inject_Z n < pow2 (Z.log2 n + 1))%Q.
Proof.
  intros Hn. destruct (Z.log2_spec n Hn) as [Hlo Hhi].
  pose proof (Z.log2_nonneg n) as Hnn.
  rewrite !pow2_inject by lia. rewrite <- Zle_Qle, <- Zlt_Qlt.
  replace (Z.log2 n + 1) with (Z.succ (Z.log2 n)) by lia. done.
Qed.

Lemma ilog2_spec x : (0 < x)%Q →
  (pow2 (ilog2 x) <= x)%Q ∧ (x < pow2 (ilog2 x + 1))%Q.
Proof.
  intros Hx. unfold ilog2.
  set (a := Z.log2 (Qnum x)). set (b := Z.log2 (Z.pos (Qden x))).
  assert (Hn : 0 < Qnum x).
  { unfold Qlt in Hx. simpl in Hx. lia. }
  destruct (Z_log2_bounds (Qnum x) Hn) as [Ha1 Ha2]. fold a in Ha1, Ha2.
  destruct (Z_log2_bounds (Z.pos (Qden x))) as [Hb1 Hb2]; [lia |]. fold b in Hb1, Hb2.
  assert (Hxq : (x * inject_Z (Z.pos (Qden x)) == inject_Z (Qnum x))%Q).
  { destruct x as [n d]. unfold Qeq. simpl. lia. }
  set (N := inject_Z (Qnum x)) in *. set (D := inject_Z (Z.pos (Qden x))) in *.
  assert (HD : (0 < D)%Q).
  { unfold D. change 0%Q with (inject_Z 0). rewrite <- Zlt_Qlt. lia. }
  pose proof (pow2_pos a). pose proof (pow2_pos b). pose proof (pow2_pos (a - b)).
  pose proof (pow2_pos (a - b - 1)).
  assert (Hk : (pow2 (a - b) * pow2 b == pow2 a)%Q).
  { rewrite <- pow2_plus. by replace (a - b + b) with a by lia. }
  assert (Hk1 : (pow2 (a - b + 1) == 2 * pow2 (a - b))%Q) by apply pow2_succ.
  assert (Hk0 : (pow2 (a - b) == 2 * pow2 (a - b - 1))%Q).
  { rewrite <- pow2_succ. by replace (a - b - 1 + 1) with (a - b) by lia. }
  assert (Ha3 : (pow2 (a + 1) == 2 * pow2 a)%Q) by apply pow2_succ.
  assert (Hb3 : (pow2 (b + 1) == 2 * pow2 b)%Q) by apply pow2_succ.
  assert (Hup : (x < pow2 (a - b + 1))%Q).
  { apply Qnot_le_lt. intros Hc.
    assert (pow2 (a - b + 1) * pow2 b <= x * D)%Q by nra. nra. }
  assert (Hdown : (pow2 (a - b - 1) < x)%Q).
  { apply Qnot_le_lt. intros Hc.
    assert (x * D <= pow2 (a - b - 1) * D)%Q by nra. nra. }
  destruct (num_le (pow2 (a - b)) x) eqn:E.
  - apply num_le_true in E. by split.
  - apply num_le_false in E. split; [by apply Qlt_le_weak |].
    by replace (a - b - 1 + 1) with (a - b) by lia.
Qed.

Lemma ilog2_monotone x y : (0 < x)%Q → (x <= y)%Q → ilog2 x ≤ ilog2 y.
Proof.
  intros Hx Hxy.
  destruct (ilog2_spec x Hx) as [Hlo _].
  destruct (ilog2_spec y) as [_ Hhi]; [lra |].
  assert (H : (pow2 (ilog2 x) < pow2 (ilog2 y + 1))%Q) by lra.
  apply pow2_lt_inv in H. lia.
Qed.

Lemma rne_cases t :
  let f := Qfloor t in
  (inject_Z f <= t)%Q ∧ (t < inject_Z f + 1)%Q
  ∧ ((t - inject_Z f < 1 # 2)%Q ∧ rne t = f
     ∨ (1 # 2 < t - inject_Z f)%Q ∧ rne t = f + 1
     ∨ (t - inject_Z f == 1 # 2)%Q ∧ rne t = (if Z.even f then f else f + 1)).
Proof.
  intros f.
  assert (Hlo : (inject_Z f <= t)%Q) by apply Qfloor_le.
  assert (Hhi : (t < inject_Z (f + 1))%Q) by apply Qlt_floor.
  rewrite inject_Z_plus in Hhi. change (inject_Z 1) with 1%Q in Hhi.
  split; [exact Hlo |]. split; [exact Hhi |].
  unfold rne. fold f.
  destruct (t - inject_Z f ?= 1 # 2)%Q eqn:E.
  - apply Qeq_alt in E. right. right. by split.
  - apply Qlt_alt in E. left. by split.
  - apply Qgt_alt in E. right. left. by split.
Qed.

Lemma rne_error t : (Qabs (inject_Z (rne t) - t) <= 1 # 2)%Q.
Proof.
  destruct (rne_cases t) as (Hlo & Hhi & Hc). apply Qabs_Qle_condition.
  destruct Hc as [[H ->] | [[H ->] | [H ->]]]; [| | destruct (Z.even _)];
    rewrite ?inject_Z_plus; change (inject_Z 1) with 1%Q; split; lra.
Qed.

Lemma rne_integer n : rne (inject_Z n) = n.
Proof.
  destruct (rne_cases (inject_Z n)) as (Hlo & Hhi & Hc).
  rewrite Qfloor_Z in *.
  destruct Hc as [[H ->] | [[H ->] | [H ->]]]; (done || lra).
Qed.

Lemma rne_monotone t t' : (t <= t')%Q → rne t ≤ rne t'.
Proof.
  intros Htt.
  pose proof (Qfloor_resp_le t t' Htt) as Hf.
  destruct (rne_cases t) as (Hlo & Hhi & Hc).
  destruct (rne_cases t') as (Hlo' & Hhi' & Hc').
  destruct (Z.eq_dec (Qfloor t) (Qfloor t')) as [Heq | Hne].
  - rewrite <- Heq in *.
    destruct Hc as [[H ->] | [[H ->] | [H ->]]];
      destruct Hc' as [[H' ->] | [[H' ->] | [H' ->]]];
      try destruct (Z.even _); try lia; exfalso; clear Heq Hf;
      generalize dependent (inject_Z (Qfloor t)); intros; lra.
  - assert (rne t ≤ Qfloor t + 1).
    { destruct Hc as [[_ ->] | [[_ ->] | [_ ->]]];
        [| | destruct (Z.even (Qfloor t))]; lia. }
    assert (Qfloor t' ≤ rne t').
    { destruct Hc' as [[_ ->] | [[_ ->] | [_ ->]]];
        [| | destruct (Z.even (Qfloor t'))]; lia. }
    lia.
Qed.

(** What one rounding of a positive number does. *)
Lemma ulp_pos x : (0 < ulp x)%Q.
Proof. apply pow2_pos. Qed.

Lemma below_next_binade x : (0 < x)%Q → (x < pow2 (exponent x + 1))%Q.
Proof.
  intros Hx. destruct (ilog2_spec x Hx) as [_ Hhi].
  eapply Qlt_le_trans; [exact Hhi |]. apply pow2_le. unfold exponent. lia.
Qed.

Lemma binade_ulps x k : (pow2 (exponent x + k) == pow2 (52 + k) * ulp x)%Q.
Proof.
  unfold ulp. rewrite <- pow2_plus.
  by replace (52 + k + (exponent x - 52)) with (exponent x + k) by lia.
Qed.

Lemma roundPos_error x : (0 < x)%Q → (Qabs (roundPos x - x) <= ulp x * (1 # 2))%Q.
Proof.
  intros Hx. pose proof (ulp_pos x) as Hu.
  pose proof (rne_error (x / ulp x)) as Hr.
  apply Qabs_Qle_condition in Hr. apply Qabs_Qle_condition.
  unfold roundPos.
  assert (Hxu : (x == x / ulp x * ulp x)%Q) by (field; lra).
  set (u := ulp x) in *. clearbody u.
  set (t := (x / u)%Q) in *. clearbody t.
  set (r := inject_Z (rne t)) in *. clearbody r.
  rewrite Hxu. split; nra.
Qed.

Lemma roundPos_le_next_binade x :
  (0 < x)%Q → (roundPos x <= pow2 (exponent x + 1))%Q.
Proof.
  intros Hx. pose proof (ulp_pos x) as Hu. pose proof (below_next_binade x Hx) as Hb.
  rewrite (binade_ulps x 1) in *. unfold roundPos.
  rewrite pow2_inject in * by lia.
  assert (Ht : (x / ulp x <= inject_Z (2 ^ (52 + 1)))%Q).
  { apply Qle_shift_div_r; [exact Hu | lra]. }
  apply rne_monotone in Ht. rewrite rne_integer in Ht.
  rewrite Zle_Qle in Ht. nra.
Qed.

Lemma roundPos_ge_binade x :
  (0 < x)%Q → exponent x = ilog2 x → (pow2 (exponent x) <= roundPos x)%Q.
Proof.
  intros Hx He. pose proof (ulp_pos x) as Hu.
  destruct (ilog2_spec x Hx) as [Hlo _]. rewrite <- He in Hlo.
  assert (H0 : (pow2 (exponent x) == pow2 (52 + 0) * ulp x)%Q).
  { rewrite <- binade_ulps. by rewrite Z.add_0_r. }
  rewrite H0 in *. unfold roundPos. rewrite pow2_inject in * by lia.
  assert (Ht : (inject_Z (2 ^ (52 + 0)) <= x / ulp x)%Q).
  { apply Qle_shift_div_l; [exact Hu | lra]. }
  apply rne_monotone in Ht. rewrite rne_integer in Ht.
  rewrite Zle_Qle in Ht. nra.
Qed.

Lemma roundPos_nonneg x : (0 < x)%Q → (0 <= roundPos x)%Q.
Proof.
  intros Hx. pose proof (ulp_pos x) as Hu. unfold roundPos.
  assert (Ht : (inject_Z 0 <= x / ulp x)%Q).
  { apply Qle_shift_div_l; [exact Hu | change (inject_Z 0) with 0%Q; lra]. }
  apply rne_monotone in Ht. rewrite rne_integer in Ht.
  rewrite Zle_Qle in Ht. change (inject_Z 0) with 0%Q in Ht. nra.
Qed.

Lemma exponent_monotone x y :
  (0 < x)%Q → (x <= y)%Q → exponent x ≤ exponent y.
Proof. intros Hx Hxy. pose proof (ilog2_monotone x y Hx Hxy). unfold exponent. lia. Qed.

Lemma roundPos_monotone x y :
  (0 < x)%Q → (x <= y)%Q → (roundPos x <= roundPos y)%Q.
Proof.
  intros Hx Hxy. assert (Hy : (0 < y)%Q) by lra.
  pose proof (exponent_monotone x y Hx Hxy) as He.
  destruct (Z.eq_dec (exponent x) (exponent y)) as [Heq | Hne].
  - unfold roundPos, ulp. rewrite <- Heq.
    pose proof (pow2_pos (exponent x - 52)) as Hu.
    set (u := pow2 _) in *.
    assert (Ht : (x / u <= y / u)%Q).
    { apply Qle_shift_div_l; [exact Hu |].
      assert (x / u * u == x)%Q as -> by (field; lra). exact Hxy. }
    apply rne_monotone in Ht. rewrite Zle_Qle in Ht. nra.
  - eapply Qle_trans; [apply roundPos_le_next_binade; exact Hx |].
    eapply Qle_trans; [| apply roundPos_ge_binade; [exact Hy | unfold exponent in *; lia]].
    apply pow2_le. lia.
Qed.

Lemma roundPos_proper x y : (0 < x)%Q → (x == y)%Q → (roundPos x == roundPos y)%Q.
Proof.
  intros Hx Hxy. apply Qle_antisym; apply roundPos_monotone; lra.
Qed.

Lemma round64_zero x : (x == 0)%Q → round64 x = 0%Q.
Proof.
  intros H. unfold round64.
  destruct (Qcompare_spec x 0); [done | lra | lra].
Qed.

Lemma round64_pos x : (0 < x)%Q → round64 x = roundPos x.
Proof.
  intros H. unfold round64.
  destruct (Qcompare_spec x 0); [lra | lra | done].
Qed.

Lemma round64_neg x : (x < 0)%Q → round64 x = (- roundPos (- x))%Q.
Proof.
  intros H. unfold round64.
  destruct (Qcompare_spec x 0); [lra | done | lra].
Qed.

Lemma round64_sign x :
  ((0 <= x)%Q → (0 <= round64 x)%Q) ∧ ((x <= 0)%Q → (round64 x <= 0)%Q).
Proof.
  destruct (Q_dec x 0) as [[Hn | Hp] | Hz].
  - rewrite (round64_neg x Hn).
    pose proof (roundPos_nonneg (- x)). split; intros; lra.
  - rewrite (round64_pos x Hp).
    pose proof (roundPos_nonneg x Hp). split; intros; lra.
  - rewrite (round64_zero x Hz). split; intros; lra.
Qed.

(** Rounding keeps the order. *)
Lemma round64_monotone x y : (x <= y)%Q → (round64 x <= round64 y)%Q.
Proof.
  intros Hxy.
  destruct (Q_dec x 0) as [[Hn | Hp] | Hz].
  - destruct (Qlt_le_dec y 0) as [Hyn | Hyp].
    + rewrite (round64_neg x Hn), (round64_neg y Hyn).
      assert (roundPos (- y) <= roundPos (- x))%Q; [| lra].
      apply roundPos_monotone; lra.
    + destruct (round64_sign x) as [_ Hx0]. destruct (round64_sign y) as [Hy0 _].
      specialize (Hx0 ltac:(lra)). specialize (Hy0 Hyp). lra.
  - rewrite (round64_pos x Hp), (round64_pos y) by lra.
    by apply roundPos_monotone.
  - rewrite (round64_zero x Hz). apply round64_sign. lra.
Qed.

Lemma round64_proper x y : (x == y)%Q → (round64 x == round64 y)%Q.
Proof. intros H. apply Qle_antisym; apply round64_monotone; lra. Qed.

(** The relative and the absolute error of one rounding. *)
Lemma roundPos_bound x :
  (0 < x)%Q → (Qabs (roundPos x - x) <= x * epsilon + eta)%Q.
Proof.
  intros Hx. eapply Qle_trans; [apply roundPos_error; exact Hx |].
  pose proof (pow2_pos (-1075)). pose proof (pow2_pos (-53)).
  unfold ulp, exponent.
  destruct (Z.max_spec (ilog2 x) (-1022)) as [[Hlt ->] | [Hge ->]].
  - change (pow2 (-1022 - 52) * (1 # 2))%Q with (pow2 (-1074) * (1 # 2))%Q.
    assert (pow2 (-1074) == 2 * pow2 (-1075))%Q as -> by (by rewrite <- pow2_succ).
    unfold eta, epsilon. nra.
  - destruct (ilog2_spec x Hx) as [Hlo _].
    assert (pow2 (ilog2 x - 52) * (1 # 2) == pow2 (ilog2 x) * pow2 (-53))%Q as ->.
    { rewrite <- pow2_plus.
      replace (ilog2 x + -53) with (ilog2 x - 52 + -1) by lia.
      rewrite pow2_plus. change (pow2 (-1)) with (1 # 2)%Q. lra. }
    unfold eta, epsilon. nra.
Qed.

Lemma round64_bound x :
  (Qabs (round64 x - x) <= Qabs x * epsilon + eta)%Q.
Proof.
  pose proof (pow2_pos (-1075)). pose proof (pow2_pos (-53)).
  destruct (Q_dec x 0) as [[Hn | Hp] | Hz].
  - rewrite (round64_neg x Hn).
    assert (Hx : (0 < - x)%Q) by lra.
    pose proof (roundPos_bound (- x) Hx) as Hb.
    rewrite (Qabs_neg x) by lra.
    apply Qabs_Qle_condition in Hb. apply Qabs_Qle_condition. split; lra.
  - rewrite (round64_pos x Hp). rewrite (Qabs_pos x) by lra.
    by apply roundPos_bound.
  - rewrite (round64_zero x Hz). rewrite Hz. unfold eta, epsilon.
    change (Qabs (0 - 0)) with 0%Q. change (Qabs 0) with 0%Q. nra.
Qed.

Lemma ilog2_unique x k :
  (pow2 k <= x)%Q → (x < pow2 (k + 1))%Q → ilog2 x = k.
Proof.
  intros Hlo Hhi. pose proof (pow2_pos k).
  destruct (ilog2_spec x) as [Hlo' Hhi']; [lra |].
  assert (H1 : (pow2 k < pow2 (ilog2 x + 1))%Q) by lra.
  assert (H2 : (pow2 (ilog2 x) < pow2 (k + 1))%Q) by lra.
  apply pow2_lt_inv in H1, H2. lia.
Qed.

Lemma rne_of_integer t n : (t == inject_Z n)%Q → rne t = n.
Proof.
  intros Ht. apply Z.le_antisymm.
  - pose proof (rne_monotone t (inject_Z n) ltac:(lra)) as H.
    by rewrite rne_integer in H.
  - pose proof (rne_monotone (inject_Z n) t ltac:(lra)) as H.
    by rewrite rne_integer in H.
Qed.

(** A binary64 value is not changed by rounding it again. *)
Lemma roundPos_idempotent x :
  (0 < x)%Q → (0 < roundPos x)%Q → (roundPos (roundPos x) == roundPos x)%Q.
Proof.
  intros Hx Hy.
  set (e := exponent x).
  set (m := rne (x / ulp x)).
  pose proof (roundPos_le_next_binade x Hx) as Hle. fold e in Hle.
  assert (Hyeq : (roundPos x == inject_Z m * pow2 (e - 52))%Q) by reflexivity.
  pose proof (pow2_pos (e - 52)) as Hu.
  destruct (Qlt_le_dec (roundPos x) (pow2 (e + 1))) as [Hlt | Hge].
  - destruct (ilog2_spec (roundPos x) Hy) as [Hlo' Hhi'].
    assert (He' : exponent (roundPos x) ≤ e).
    { assert (H : (pow2 (ilog2 (roundPos x)) < pow2 (e + 1))%Q) by lra.
      apply pow2_lt_inv in H. unfold e, exponent in *. lia. }
    set (e' := exponent (roundPos x)) in *.
    assert (Hyeq' : (roundPos (roundPos x)
                     == inject_Z (rne (roundPos x / pow2 (e' - 52))) * pow2 (e' - 52))%Q)
      by reflexivity.
    pose proof (pow2_pos (e' - 52)) as Hu'.
    assert (Huu : (pow2 (e - 52) == inject_Z (2 ^ (e - e')) * pow2 (e' - 52))%Q).
    { rewrite <- pow2_inject by lia. rewrite <- pow2_plus.
      by replace (e - e' + (e' - 52)) with (e - 52) by lia. }
    assert (Hint : (roundPos x / pow2 (e' - 52) == inject_Z (m * 2 ^ (e - e')))%Q).
    { rewrite inject_Z_mult, Hyeq, Huu. field. lra. }
    rewrite Hyeq', (rne_of_integer _ _ Hint), inject_Z_mult, Hyeq, Huu. ring.
  - assert (Heq : (roundPos x == pow2 (e + 1))%Q) by lra.
    assert (Hil : ilog2 (roundPos x) = e + 1).
    { apply ilog2_unique; [lra |]. rewrite Heq. apply pow2_lt. lia. }
    assert (Hyeq' : (roundPos (roundPos x)
                     == inject_Z (rne (roundPos x / pow2 (e + 1 - 52))) * pow2 (e + 1 - 52))%Q).
    { unfold roundPos at 1, ulp, exponent at 1 2. rewrite Hil.
      replace (Z.max (e + 1) (-1022)) with (e + 1) by (unfold e, exponent; lia).
      reflexivity. }
    pose proof (pow2_pos (e + 1 - 52)) as Hu'.
    assert (Hint : (roundPos x / pow2 (e + 1 - 52) == inject_Z (2 ^ 52))%Q).
    { rewrite Heq. rewrite <- pow2_inject by lia.
      replace (e + 1) with (52 + (e + 1 - 52)) at 1 by lia. rewrite pow2_plus.
      field. lra. }
    rewrite Hyeq', (rne_of_integer _ _ Hint), Heq. rewrite <- pow2_inject by lia.
    rewrite <- pow2_plus. by replace (52 + (e + 1 - 52)) with (e + 1) by lia.
Qed.

Lemma round64_idempotent x : (round64 (round64 x) == round64 x)%Q.
Proof.
  destruct (Q_dec x 0) as [[Hn | Hp] | Hz].
  - rewrite (round64_neg x Hn).
    pose proof (roundPos_nonneg (- x) ltac:(lra)) as Hnn.
    destruct (Qle_lt_or_eq _ _ Hnn) as [Hpos | Hzero].
    + rewrite round64_neg by lra.
      rewrite (roundPos_proper (- - roundPos (- x)) (roundPos (- x))) by lra.
      rewrite roundPos_idempotent by lra. reflexivity.
    + rewrite round64_zero by lra. lra.
  - rewrite (round64_pos x Hp).
    pose proof (roundPos_nonneg x Hp) as Hnn.
    destruct (Qle_lt_or_eq _ _ Hnn) as [Hpos | Hzero].
    + rewrite round64_pos by lra. by apply roundPos_idempotent.
    + rewrite round64_zero by lra. lra.
  - rewrite (round64_zero x Hz). reflexivity.
Qed.

Lemma round64_1000 : (round64 1000 == 1000)%Q.
Proof. vm_compute. reflexivity. Qed.

Lemma round64_13125 : (round64 (13125 # 100) == 13125 # 100)%Q.
Proof. vm_compute. reflexivity. Qed.

#[global] Instance round64_Proper : Proper (Qeq ==> Qeq) round64.
Proof. intros x y. apply round64_proper. Qed.

Lemma abvProduct_eq og g :
  (abvProduct og g ==
   round64 (round64 (round64 (round64 og / 1000) - round64 (round64 g / 1000))
            * (13125 # 100)))%Q.
Proof.
  unfold abvProduct, js_mul, js_sub, js_div.
  rewrite round64_1000, round64_13125. by rewrite !round64_idempotent.
Qed.

Lemma per_thousand x : (x / 1000 == x * (1 # 1000))%Q.
Proof. reflexivity. Qed.

Lemma abvProduct_monotone og og' g g' :
  (og <= og')%Q → (g' <= g)%Q → (abvProduct og g <= abvProduct og' g')%Q.
Proof.
  intros Hog Hg. rewrite !abvProduct_eq.
  apply round64_monotone, Qmult_le_compat_r; [| discriminate].
  apply round64_monotone, Qplus_le_compat; [| apply Qopp_le_compat];
    apply round64_monotone, Qmult_le_compat_r; try discriminate;
    by apply round64_monotone.
Qed.

Lemma abvProduct_nonpos og g : (og <= g)%Q → (abvProduct og g <= 0)%Q.
Proof.
  intros H. rewrite abvProduct_eq. apply round64_sign.
  assert (Hd : (round64 (round64 (round64 og / 1000) - round64 (round64 g / 1000)) <= 0)%Q).
  { apply round64_sign.
    assert (round64 (round64 og / 1000) <= round64 (round64 g / 1000))%Q; [| lra].
    apply round64_monotone, Qmult_le_compat_r; [| discriminate].
    by apply round64_monotone. }
  lra.
Qed.

Lemma Qabs_bound x m : (Qabs x <= m)%Q ↔ (- m <= x)%Q ∧ (x <= m)%Q.
Proof. apply Qabs_Qle_condition. Qed.

Lemma round64_within x m :
  (Qabs x <= m)%Q →
  (- (m * epsilon + eta) <= round64 x - x)%Q ∧ (round64 x - x <= m * epsilon + eta)%Q.
Proof.
  intros Hm. pose proof (round64_bound x) as Hb.
  pose proof (pow2_pos (-53)) as He. fold epsilon in He.
  apply Qabs_bound in Hb. split; nra.
Qed.

Lemma abvProduct_error og g :
  (Qabs (abvProduct og g - exactProduct og g) <= tolerance og g)%Q.
Proof.
  rewrite abvProduct_eq. unfold exactProduct, tolerance. rewrite !per_thousand.
  set (A := round64 og). set (G := round64 g).
  set (a := round64 (A * (1 # 1000))). set (b := round64 (G * (1 # 1000))).
  set (d := round64 (a - b)).
  pose proof (Qabs_nonneg A) as HA0. pose proof (Qabs_nonneg G) as HG0.
  assert (HA : (Qabs (A * (1 # 1000)) <= Qabs A * (1 # 1000))%Q).
  { rewrite Qabs_Qmult. apply Qle_refl. }
  assert (HG : (Qabs (G * (1 # 1000)) <= Qabs G * (1 # 1000))%Q).
  { rewrite Qabs_Qmult. apply Qle_refl. }
  destruct (round64_within _ _ HA) as [Ha1 Ha2]. fold a in Ha1, Ha2.
  destruct (round64_within _ _ HG) as [Hb1 Hb2]. fold b in Hb1, Hb2.
  apply Qabs_bound in HA, HG.
  assert (He : (epsilon == 1 # 9007199254740992)%Q) by (vm_compute; reflexivity).
  assert (H54 : (pow2 (-54) == 1 # 18014398509481984)%Q) by (vm_compute; reflexivity).
  assert (H66 : (pow2 (-1066) == 512 * eta)%Q).
  { unfold eta. replace (-1066) with (9 + -1075) by lia. by rewrite pow2_plus. }
  assert (Hh : (0 < eta)%Q) by apply pow2_pos.
  set (S := (Qabs A + Qabs G)%Q) in *.
  assert (Hab : (Qabs (a - b) <= S * (1 # 1000) * (1 + epsilon) + 2 * eta)%Q).
  { apply Qabs_bound. unfold S. split; lra. }
  destruct (round64_within _ _ Hab) as [Hd1 Hd2]. fold d in Hd1, Hd2.
  apply Qabs_bound in Hab.
  assert (Hdm : (Qabs (d * (13125 # 100))
                 <= ((S * (1 # 1000) * (1 + epsilon) + 2 * eta) * (1 + epsilon) + eta)
                    * (13125 # 100))%Q).
  { apply Qabs_bound. split; lra. }
  destruct (round64_within _ _ Hdm) as [Hp1 Hp2].
  set (p := round64 (d * (13125 # 100))) in *.
  clearbody p d a b. subst S. clear HA HG.
  rewrite H54, H66. rewrite He in *. clear He H54 H66.
  generalize dependent (Qabs A). generalize dependent (Qabs G).
  generalize dependent eta. clearbody A G. intros.
  apply Qabs_bound. split; lra.
Qed.

(* ===================================================================== *)
(** ** Facts about [sortBy] *)
(* ===================================================================== *)

Section SortByKey.

Context {A : Type}.
Variable key : A → Z.
Variable cmp : A → A → Z.
Hypothesis cmp_key : ∀ a b, cmp a b = key a - key b.

Lemma sortInsert_Permutation x l : sortInsert cmp x l ≡ₚ x :: l.
Proof.
  induction l as [| y l IH]; simpl; [done |].
  destruct (cmp x y >? 0); [| done].
  rewrite IH. apply Permutation_swap.
Qed.

Lemma sortBy_Permutation l : sortBy cmp l ≡ₚ l.
Proof.
  induction l as [| x l IH]; simpl; [done |].
  rewrite sortInsert_Permutation. by f_equiv.
Qed.

Lemma sortBy_length l : length (sortBy cmp l) = length l.
Proof. apply Permutation_length, sortBy_Permutation. Qed.

Lemma sortBy_elem_of x l : x ∈ sortBy cmp l ↔ x ∈ l.
Proof. by rewrite sortBy_Permutation. Qed.

Lemma sortInsert_sorted x l :
  StronglySorted (keyLe key) l → StronglySorted (keyLe key) (sortInsert cmp x l).
Proof.
  induction 1 as [| y l Hl IH Hy]; simpl.
  - repeat constructor.
  - destruct (Z.gtb_spec (cmp x y) 0) as [Hgt | Hle]; rewrite cmp_key in *.
    + constructor; [exact IH |].
      rewrite sortInsert_Permutation. constructor; [unfold keyLe; lia | exact Hy].
    + constructor; [by constructor |].
      constructor; [unfold keyLe; lia |].
      eapply Forall_impl; [exact Hy |]. unfold keyLe. intros; lia.
Qed.

Lemma sortBy_sorted l : StronglySorted (keyLe key) (sortBy cmp l).
Proof.
  induction l; simpl; [constructor | by apply sortInsert_sorted].
Qed.

(** Sorting is stable, so a sorted array is left exactly as it is. *)
Lemma sortBy_of_sorted l : Sorted (keyLe key) l → sortBy cmp l = l.
Proof.
  induction 1 as [| x l Hl IH Hx]; simpl; [done |].
  rewrite IH. destruct Hx as [| y l Hxy]; simpl; [done |].
  destruct (Z.gtb_spec (cmp x y) 0) as [Hgt | Hle]; [| done].
  rewrite cmp_key in Hgt. unfold keyLe in Hxy. lia.
Qed.

Lemma sortBy_idempotent l : sortBy cmp (sortBy cmp l) = sortBy cmp l.
Proof. apply sortBy_of_sorted, StronglySorted_Sorted, sortBy_sorted. Qed.

Lemma head_sortInsert x l :
  head (sortInsert cmp x l) =
  match head l with
  | Some y => if key y <? key x then Some y else Some x
  | None => Some x
  end.
Proof.
  destruct l as [| y l]; simpl; [done |].
  rewrite cmp_key.
  destruct (Z.gtb_spec (key x - key y) 0), (Z.ltb_spec (key y) (key x));
    simpl; (done || lia).
Qed.

Lemma head_sortBy l : head (sortBy cmp l) = firstLeast key l.
Proof.
  induction l as [| x l IH]; simpl; [done |].
  by rewrite head_sortInsert, IH.
Qed.

Lemma firstLeast_is_Some l : l ≠ [] → is_Some (firstLeast key l).
Proof.
  destruct l as [| x l]; [done |]. intros _. simpl.
  destruct (firstLeast key l); [destruct (_ <? _) |]; eauto.
Qed.

Lemma firstLeast_least l m :
  firstLeast key l = Some m → m ∈ l ∧ ∀ x, x ∈ l → key m ≤ key x.
Proof.
  revert m. induction l as [| y l IH]; intros m; simpl; [done |].
  destruct (firstLeast key l) as [m' |] eqn:E.
  - destruct (IH m' eq_refl) as [Hin Hmin].
    destruct (Z.ltb_spec (key m') (key y)); intros [= <-].
    + split; [by right |]. intros x [-> | Hx]%elem_of_cons; [lia | auto].
    + split; [by left |].
      intros x [-> | Hx]%elem_of_cons; [lia |]. specialize (Hmin x Hx). lia.
  - intros [= <-]. destruct l as [| z l].
    + split; [by left |]. by intros x ->%list_elem_of_singleton.
    + exfalso. destruct (firstLeast_is_Some (z :: l)) as [? ?]; [done | congruence].
Qed.

(** The element [firstLeast] picks is the first of the least ones: every
    element before it has a greater key, no element after it a smaller
    one. *)
Lemma firstLeast_first l m :
  firstLeast key l = Some m →
  ∃ before after,
    l = before ++ m :: after
    ∧ Forall (λ x, key m < key x) before
    ∧ Forall (λ x, key m ≤ key x) after.
Proof.
  revert m. induction l as [| y l IH]; intros m; simpl; [done |].
  destruct (firstLeast key l) as [m' |] eqn:E.
  - destruct (Z.ltb_spec (key m') (key y)); intros [= <-].
    + destruct (IH m' eq_refl) as (before & after & -> & Hb & Ha).
      exists (y :: before), after. split; [done |]. split; [| exact Ha].
      by constructor.
    + exists [], l. split; [done |]. split; [constructor |].
      destruct (firstLeast_least l m' E) as [_ Hmin].
      apply Forall_forall. intros x Hx. specialize (Hmin x Hx). lia.
  - intros [= <-]. destruct l as [| z l].
    + exists [], []. repeat split; constructor.
    + exfalso. destruct (firstLeast_is_Some (z :: l)) as [? ?]; [done | congruence].
Qed.

End SortByKey.

(* ===================================================================== *)
(** ** Facts about the serverless function *)
(* ===================================================================== *)

Ltac unfold_M :=
  unfold mbind, M_bind, bind, mret, M_ret, ret, throw, tryCatch, makeRequest,
    getState, setToken in *.

Lemma byDateAscending_key a b : byDateAscending a b = createdOn a - createdOn b.
Proof. reflexivity. Qed.

Lemma byDateDescending_key a b :
  byDateDescending a b = (λ t, - createdOn t) a - (λ t, - createdOn t) b.
Proof. unfold byDateDescending. lia. Qed.

Section ServerFacts.

Variable W : World.
Variable CONFIG : Config.

Lemma total_ret {A} (a : A) : total (ret a).
Proof. intros s. by exists a, s. Qed.

Lemma total_bind {A B} (m : M A) (k : A → M B) :
  total m → (∀ a, total (k a)) → total (m ≫= k).
Proof.
  intros Hm Hk s. unfold_M. destruct (Hm s) as (a & s' & ->). apply Hk.
Qed.

Lemma total_tryCatch {A} (m : M A) (h : string → M A) :
  (∀ e, total (h e)) → total (tryCatch m h).
Proof.
  intros Hh s. unfold tryCatch. destruct (m s) as [[a | e] s'].
  - by exists a, s'.
  - apply Hh.
Qed.

Lemma total_authenticate : total (authenticate W).
Proof. apply total_tryCatch. intros _. apply total_ret. Qed.

Lemma total_ensureToken : total (ensureToken W).
Proof.
  unfold ensureToken. apply total_bind.
  - intros s. unfold isTokenValid. unfold_M. eauto.
  - intros [].
    + apply total_ret.
    + apply total_bind; [apply total_authenticate | intros; apply total_ret].
Qed.

Lemma total_fetchTelemetry hydrometerId : total (fetchTelemetry W hydrometerId).
Proof.
  unfold fetchTelemetry. apply total_bind; [apply total_ensureToken | intros _].
  apply total_bind; [intros s; unfold_M; eauto | intros s0].
  apply total_tryCatch. intros _. apply total_tryCatch. intros _. apply total_ret.
Qed.

Lemma total_fetchProfileSession sid : total (fetchProfileSession W sid).
Proof.
  unfold fetchProfileSession.
  apply total_bind; [apply total_ensureToken | intros _].
  apply total_tryCatch. intros _. apply total_ret.
Qed.

Lemma total_lookupSession device : total (lookupSession W device).
Proof.
  unfold lookupSession. destruct (activeProfileSession device) as [ref |].
  - destruct (truthyStr (refId ref)).
    + apply total_fetchProfileSession.
    + apply total_ret.
  - apply total_ret.
Qed.

Lemma truthyNum_Some og : truthyNum og = true → ∃ q, og = Some q.
Proof. destruct og; [eauto | discriminate]. Qed.

(** With at least one sample, choosing the OG cannot throw. *)
Lemma total_pickOG session telemetry :
  telemetry ≠ [] → total (pickOG CONFIG session telemetry).
Proof.
  intros Hne s. unfold pickOG.
  set (og1 := match session with Some _ => _ | None => _ end).
  set (og2 := if _ && _ then _ else _).
  destruct (truthyNum og2) eqn:E; simpl.
  - destruct (truthyNum_Some _ E) as [q ->]. by exists q, s.
  - destruct (sortBy byDateAscending telemetry) as [| first l] eqn:Es.
    + apply (f_equal length) in Es.
      rewrite sortBy_length in Es.
      by destruct telemetry.
    + by exists (gravity first), s.
Qed.

Lemma total_resolveOG device telemetry :
  telemetry ≠ [] → total (resolveOG W CONFIG device telemetry).
Proof.
  intros Hne. apply total_bind; [apply total_lookupSession |].
  intros session. by apply total_pickOG.
Qed.

Lemma ensureToken_run s : ensureToken W s = (Ok (), (ensureToken W s).2).
Proof.
  destruct (total_ensureToken s) as ([] & s' & ->). reflexivity.
Qed.

(** What [fetchTelemetry] asks for, in which order, and what it returns. *)
Lemma fetchTelemetry_run hid s :
  let s0 := (ensureToken W s).2 in
  let now := dateNow W (requests s0) in
  let windowed := GetTelemetryWindow hid (now - 24 * 60 * 60 * 1000) now in
  let plain := GetTelemetry hid in
  fetchTelemetry W hid s =
  match telemetryReply W (requests s0) windowed with
  | Ok data => (Ok data, after s0 [windowed])
  | Err _ =>
      match telemetryReply W (requests s0 ++ [windowed]) plain with
      | Ok data => (Ok data, after s0 [windowed; plain])
      | Err _ => (Ok (Parsed []), after s0 [windowed; plain])
      end
  end.
Proof.
  intros s0 now windowed plain.
  unfold fetchTelemetry. unfold_M. rewrite ensureToken_run. fold s0. simpl.
  fold now. fold windowed.
  destruct (telemetryReply W (requests s0) windowed) as [data | e]; [done |].
  simpl. fold plain.
  destruct (telemetryReply W (requests s0 ++ [windowed]) plain) as [data | e'];
    unfold after; simpl; by rewrite <- app_assoc.
Qed.

(** A text that [fetchTelemetry] returns is the body of a response. *)
Lemma fetchTelemetry_text hid s text s1 :
  fetchTelemetry W hid s = (Ok (RawText text), s1) →
  ∃ h r, hydrometerOf r = Some hid ∧ telemetryReply W h r = Ok (RawText text).
Proof.
  rewrite fetchTelemetry_run.
  set (s0 := (ensureToken W s).2).
  set (windowed := GetTelemetryWindow hid _ _).
  destruct (telemetryReply W (requests s0) windowed) as [data | e] eqn:E1.
  - intros [= -> _]. by exists (requests s0), windowed.
  - destruct (telemetryReply W (requests s0 ++ [windowed]) (GetTelemetry hid))
      as [data | e'] eqn:E2; [| discriminate].
    intros [= -> _]. by exists (requests s0 ++ [windowed]), (GetTelemetry hid).
Qed.

Lemma nonempty_text text :
  (0 <? Z.of_nat (String.length text)) = true → text ≠ ""%string.
Proof. by intros H ->. Qed.

(** The loop body throws in one way only: [telemetry.map] on a non-empty
    text. *)
Lemma enrichDevice_throws device s e s' :
  enrichDevice W CONFIG device s = (Err e, s') →
  e = "telemetry.map is not a function"%string
  ∧ ∃ h r text, telemetryReply W h r = Ok (RawText text) ∧ text ≠ ""%string.
Proof.
  unfold enrichDevice. unfold_M.
  destruct (total_fetchTelemetry (deviceId device) s) as (fetched & s1 & Hf).
  rewrite Hf. destruct fetched as [samples | text].
  - destruct samples as [| t samples]; [discriminate |].
    change (0 <? Z.of_nat (length (t :: samples))) with true. cbv iota.
    destruct (total_resolveOG (setTelemetry device (t :: samples)) (t :: samples)
                ltac:(done) s1) as (og & s2 & Hog).
    by rewrite Hog.
  - destruct (0 <? Z.of_nat (String.length text)) eqn:Elen; [| discriminate].
    destruct (total_lookupSession device s1) as (session & s2 & ->).
    intros [= <- _]. split; [done |].
    destruct (fetchTelemetry_text _ _ _ _ Hf) as (h & r & _ & Hr).
    exists h, r, text. split; [exact Hr | by apply nonempty_text].
Qed.

Lemma enrichCharacter_throws s e s' :
  enrichCharacter W CONFIG s = (Err e, s') →
  e = "telemetry.map is not a function"%string
  ∧ ∃ h r text, telemetryReply W h r = Ok (RawText text) ∧ text ≠ ""%string.
Proof.
  unfold enrichCharacter. unfold_M.
  destruct (total_fetchTelemetry "undefined" s) as (fetched & s1 & Hf).
  rewrite Hf. destruct fetched as [samples | text].
  - destruct samples as [| t samples]; [discriminate |].
    change (0 <? Z.of_nat (length (t :: samples))) with true. cbv iota.
    destruct (total_pickOG None (t :: samples) ltac:(done) s1) as (og & s2 & ->).
    discriminate.
  - destruct (0 <? Z.of_nat (String.length text)) eqn:Elen; [| discriminate].
    intros [= <- _]. split; [done |].
    destruct (fetchTelemetry_text _ _ _ _ Hf) as (h & r & _ & Hr).
    exists h, r, text. split; [exact Hr | by apply nonempty_text].
Qed.

(** Unless a telemetry call is answered with such a text, the loop body
    returns. *)
Lemma total_enrichDevice device :
  telemetryParses W → total (enrichDevice W CONFIG device).
Proof.
  intros Hparses s.
  destruct (enrichDevice W CONFIG device s) as [[o | e] s'] eqn:E; [eauto |].
  destruct (enrichDevice_throws _ _ _ _ E) as (_ & h & r & text & Hr & Hne).
  by apply Hparses in Hr.
Qed.

Lemma total_enrichCharacter : telemetryParses W → total (enrichCharacter W CONFIG).
Proof.
  intros Hparses s.
  destruct (enrichCharacter W CONFIG s) as [[o | e] s'] eqn:E; [eauto |].
  destruct (enrichCharacter_throws _ _ _ E) as (_ & h & r & text & Hr & Hne).
  by apply Hparses in Hr.
Qed.

(** A loop whose body always returns, returns; each output is what the body
    made of the input at the same position. *)
Lemma forEachM_total {A B} (f : A → M B) (l : list A) :
  (∀ x, total (f x)) →
  ∀ s, ∃ out s', forEachM f l s = (Ok out, s')
    ∧ Forall2 (λ x y, ∃ s1 s2, f x s1 = (Ok y, s2)) l out.
Proof.
  intros Hf. induction l as [| x l IH]; intros s; simpl.
  - exists [], s. split; [done | constructor].
  - unfold_M. destruct (Hf x s) as (y & s1 & Hy). rewrite Hy.
    destruct (IH s1) as (ys & s2 & Hys & Hall). rewrite Hys.
    exists (y :: ys), s2. split; [done |]. constructor; eauto.
Qed.

(** A loop that returned went through every element in order, and one
    that threw did so in the body, at one of the elements. *)
Lemma forEachM_returned {A B} (f : A → M B) (l : list A) s out s' :
  forEachM f l s = (Ok out, s') →
  Forall2 (λ x y, ∃ s1 s2, f x s1 = (Ok y, s2)) l out.
Proof.
  revert s out. induction l as [| x l IH]; intros s out; simpl.
  - intros [= <- _]. constructor.
  - unfold_M. destruct (f x s) as [[y | e] s1] eqn:Hy; [| discriminate].
    destruct (forEachM f l s1) as [[ys | e] s2] eqn:Hys; simpl; [| discriminate].
    intros [= <- <-]. constructor; [eauto | by eapply IH].
Qed.

Lemma forEachM_threw {A B} (f : A → M B) (l : list A) s e s' :
  forEachM f l s = (Err e, s') → ∃ x s1 s2, x ∈ l ∧ f x s1 = (Err e, s2).
Proof.
  revert s. induction l as [| x l IH]; intros s; simpl; [discriminate |].
  unfold_M. destruct (f x s) as [[y | e1] s1] eqn:Hy.
  - destruct (forEachM f l s1) as [[ys | e2] s2] eqn:Hys; simpl; [discriminate |].
    intros [= -> ->]. destruct (IH _ Hys) as (x' & s3 & s4 & Hin & Hx').
    exists x', s3, s4. split; [by right | done].
  - intros [= -> _]. exists x, s, s1. split; [by left | done].
Qed.

End ServerFacts.

(* ===================================================================== *)
(** ** Metric derivation *)
(* ===================================================================== *)

(** Object spread copies every property; only [abv] is written. *)
Lemma enrich_others og t k :
  k ≠ "abv"%string → others (enrich og t) !! k = others t !! k.
Proof. intros Hk. simpl. by rewrite lookup_insert_ne. Qed.

Lemma enrich_abv og t :
  abv (enrich og t) = Some (toFixed2 (Math_max 0 (abvProduct og (gravity t)))).
Proof. unfold abv, enrich, abvProduct. cbn [others]. apply lookup_insert_eq. Qed.

Lemma enrich_fields og t :
  createdOn (enrich og t) = createdOn t ∧ gravity (enrich og t) = gravity t
  ∧ temperature (enrich og t) = temperature t
  ∧ battery (enrich og t) = battery t ∧ rssi (enrich og t) = rssi t.
Proof. done. Qed.





(** C1. The enrichment never writes [attenuation]: an enriched sample has
    the property only if the raw sample had it. Evaluation at the
    two-reading brew (OG 1063, then 1010, no session, no manual OG): the
    function returns the device with both readings enriched by [abv]
    alone; no sample has an [attenuation] property, where 84.13 is
    documented for the second. *)
Theorem attenuation_not_attached :
  (∀ og t, attenuation (enrich og t) = attenuation t)
  ∧ ∃ s',
      fetchHydrometers (scenario [plainPill] (Ok brew) (Ok brew) (Ok []))
        {| manualOriginalGravity := None |} coldStart
      = (Ok (Parsed [setTelemetry plainPill (map (enrich 1063) brew)]), s')
      ∧ map abv (map (enrich 1063) brew) = [Some (0 # 100)%Q; Some (696 # 100)%Q]
      ∧ map attenuation (map (enrich 1063) brew) = [None; None].
Proof.
  split; [intros og t; by apply enrich_others |].
  eexists. split; [| split]; vm_compute; reflexivity.
Qed.

(* ===================================================================== *)
(** ** The loop body *)
(* ===================================================================== *)

Section Orchestrator.

Variable W : World.
Variable CONFIG : Config.

Lemma enrichDevice_empty device s s1 :
  fetchTelemetry W (deviceId device) s = (Ok (Parsed []), s1) →
  enrichDevice W CONFIG device s = (Ok device, s1).
Proof.
  intros Hf. unfold enrichDevice. unfold_M. by rewrite Hf.
Qed.

Lemma enrichDevice_blank device s s1 :
  fetchTelemetry W (deviceId device) s = (Ok (RawText ""), s1) →
  enrichDevice W CONFIG device s = (Ok device, s1).
Proof.
  intros Hf. unfold enrichDevice. unfold_M. by rewrite Hf.
Qed.

(** The resolver reads [activeProfileSession] only. *)
Lemma resolveOG_setTelemetry device v telemetry :
  resolveOG W CONFIG (setTelemetry device v) telemetry
  = resolveOG W CONFIG device telemetry.
Proof. reflexivity. Qed.

Lemma enrichDevice_nonempty device s fetched s1 :
  fetchTelemetry W (deviceId device) s = (Ok (Parsed fetched), s1) →
  fetched ≠ [] →
  ∃ og s2,
    resolveOG W CONFIG device fetched s1 = (Ok og, s2)
    ∧ enrichDevice W CONFIG device s
      = (Ok (setTelemetry device (map (enrich og) fetched)), s2).
Proof.
  intros Hf Hne.
  destruct (total_resolveOG W CONFIG device fetched Hne s1) as (og & s2 & Hog).
  exists og, s2. split; [exact Hog |].
  unfold enrichDevice. unfold_M. rewrite Hf.
  assert ((0 <? Z.of_nat (length fetched)) = true) as ->.
  { destruct fetched; [done |]. apply Z.ltb_lt. simpl. lia. }
  by rewrite resolveOG_setTelemetry, Hog.
Qed.

(** What the loop body returns, when it returns. *)
Lemma enrichDevice_returned device s o s' :
  enrichDevice W CONFIG device s = (Ok o, s') →
  (o = device
   ∧ ∃ s1, fetchTelemetry W (deviceId device) s = (Ok (Parsed []), s1)
           ∨ fetchTelemetry W (deviceId device) s = (Ok (RawText ""), s1))
  ∨ ∃ og fetched s1,
      fetchTelemetry W (deviceId device) s = (Ok (Parsed fetched), s1)
      ∧ fetched ≠ [] ∧ o = setTelemetry device (map (enrich og) fetched).
Proof.
  intros He.
  destruct (total_fetchTelemetry W (deviceId device) s) as (fetched & s1 & Hf).
  destruct fetched as [[| t fetched] | text].
  - rewrite (enrichDevice_empty _ _ _ Hf) in He. injection He as <- _.
    left. split; [done |]. exists s1. by left.
  - destruct (enrichDevice_nonempty _ _ _ _ Hf) as (og & s2 & _ & He'); [done |].
    rewrite He' in He. injection He as <- _. right. by exists og, (t :: fetched), s1.
  - destruct text as [| c text].
    + rewrite (enrichDevice_blank _ _ _ Hf) in He. injection He as <- _.
      left. split; [done |]. exists s1. by right.
    + exfalso. revert He. unfold enrichDevice. unfold_M. rewrite Hf.
      change (0 <? Z.of_nat (String.length (String c text))) with true. cbv iota.
      by destruct (total_lookupSession W device s1) as (session & s2 & ->).
Qed.

End Orchestrator.

(** C8, as the code has it. The enrichment derives no gravity velocity: an
    enriched sample has exactly the [gravityVelocity] property of the raw
    sample it was made from (none when that has none), whatever its place
    in chronological order, and the chart plots 0 for a sample without
    one. *)
Theorem gravityVelocity_passed_through (W : World) (CONFIG : Config)
    (device : Device (list Sample)) (s s1 : State) (fetched : list Sample) :
  fetchTelemetry W (deviceId device) s = (Ok (Parsed fetched), s1) →
  fetched ≠ [] →
  ∃ og s2,
    enrichDevice W CONFIG device s
    = (Ok (setTelemetry device (map (enrich og) fetched)), s2)
    ∧ Forall2 (λ t e, gravityVelocity e = gravityVelocity t)
        fetched (map (enrich og) fetched)
    ∧ ∀ p now l range,
        Forall2 (λ d v, gravityVelocity d = None → v = 0%Q)
          (readings (createChart p now l range))
          (gravityVelocitySeries (createChart p now l range)).
Proof.
  intros Hf Hne.
  destruct (enrichDevice_nonempty W CONFIG device s fetched s1 Hf Hne)
    as (og & s2 & _ & He).
  exists og, s2. split; [exact He |]. split.
  - clear. induction fetched as [| t l IH]; simpl; constructor; [| exact IH].
    by apply enrich_others.
  - intros p now l range. simpl.
    generalize (sortBy byDateAscending
      match range with
      | Hours h => List.filter (λ d, now - h * 60 * 60 * 1000 <=? createdOn d) (contents p l)
      | AllTime => contents p l
      end).
    intros ds. induction ds as [| d ds IH]; simpl; constructor; [| exact IH].
    unfold gravityVelocityOrZero. by intros ->.
Qed.

Lemma gravityVelocity_passed_through_witness :
  fetchTelemetry (scenario [plainPill] (Ok brew) (Ok brew) (Ok []))
    (deviceId plainPill) coldStart
  = (Ok (Parsed brew),
     {| accessToken := Some "token"%string;
        tokenExpiry := Some 1700003600000;
        requests := [PostToken;
                     GetTelemetryWindow "pill-1" 1699913600000 1700000000000] |})
  ∧ ∃ og s2,
      enrichDevice (scenario [plainPill] (Ok brew) (Ok brew) (Ok []))
        {| manualOriginalGravity := None |} plainPill coldStart
      = (Ok (setTelemetry plainPill (map (enrich og) brew)), s2)
      ∧ Forall2 (λ t e, gravityVelocity e = gravityVelocity t)
          brew (map (enrich og) brew)
      ∧ ∀ p now l range,
          Forall2 (λ d v, gravityVelocity d = None → v = 0%Q)
            (readings (createChart p now l range))
            (gravityVelocitySeries (createChart p now l range)).
Proof.
  split; [vm_compute; reflexivity |].
  eapply gravityVelocity_passed_through; [vm_compute; reflexivity | discriminate].
Defined.

(** C8, as stated, fails on the two-reading brew: the readings are an hour
    apart, and the later one comes out without a [gravityVelocity]. *)
Lemma later_sample_without_gravityVelocity :
  ∃ s' e0 e1,
    fetchHydrometers (scenario [plainPill] (Ok brew) (Ok brew) (Ok []))
      {| manualOriginalGravity := None |} coldStart
    = (Ok (Parsed [setTelemetry plainPill [e0; e1]]), s')
    ∧ createdOn e0 < createdOn e1
    ∧ gravityVelocity e1 = None.
Proof.
  eexists _, _, _. split; [vm_compute; reflexivity |].
  split; [reflexivity | vm_compute; reflexivity].
Qed.

(* ===================================================================== *)
(** ** Original-gravity resolution *)
(* ===================================================================== *)

Lemma falsy_truthyNum og : falsy og ↔ truthyNum og = false.
Proof.
  unfold falsy. destruct og as [q |]; simpl.
  - rewrite truthy_false. split.
    + by intros [? | (q' & [= <-] & Hq)].
    + intros Hq. right. eauto.
  - split; [done | by left].
Qed.

Section Resolver.

Variable W : World.
Variable CONFIG : Config.

Lemma resolveOG_lookup device telemetry s session s1 :
  lookupSession W device s = (Ok session, s1) →
  resolveOG W CONFIG device telemetry s = pickOG CONFIG session telemetry s1.
Proof. intros Hl. unfold resolveOG. unfold_M. by rewrite Hl. Qed.

(** Tier 1: a non-zero session value wins. *)
Lemma pickOG_session session telemetry s g :
  sessionOG session = Some g → ¬ (g == 0)%Q →
  pickOG CONFIG session telemetry s = (Ok g, s).
Proof.
  intros Hs Hg. apply truthy_true in Hg.
  assert (Ht : truthyNum (Some g) = true) by exact Hg.
  destruct session as [sess |]; [| done]. simpl in Hs.
  unfold pickOG. rewrite Hs. repeat (first [rewrite Ht | rewrite Hg]; simpl). done.
Qed.

(** A session without a usable value counts as no session. *)
Lemma pickOG_session_falsy session telemetry s :
  falsy (sessionOG session) →
  pickOG CONFIG session telemetry s = pickOG CONFIG None telemetry s.
Proof.
  intros Hf%falsy_truthyNum. destruct session as [sess |]; [| done].
  simpl in Hf. unfold pickOG. by rewrite Hf.
Qed.

(** Tier 2: without a session value, a non-zero manual value wins. *)
Lemma pickOG_manual telemetry s m :
  manualOriginalGravity CONFIG = Some m → ¬ (m == 0)%Q →
  pickOG CONFIG None telemetry s = (Ok m, s).
Proof.
  intros Hm Hz. apply truthy_true in Hz.
  assert (Ht : truthyNum (Some m) = true) by exact Hz.
  unfold pickOG. rewrite Hm. simpl. repeat (first [rewrite Ht | rewrite Hz]; simpl). done.
Qed.

(** Tier 3: the head of the array sorted by date. *)
Lemma pickOG_fallback telemetry s :
  falsy (manualOriginalGravity CONFIG) →
  pickOG CONFIG None telemetry s =
  match firstLeast createdOn telemetry with
  | Some first => (Ok (gravity first), s)
  | None => (Err "Cannot read properties of undefined (reading 'gravity')", s)
  end.
Proof.
  intros Hf%falsy_truthyNum. unfold pickOG. rewrite Hf. simpl.
  rewrite <- (head_sortBy createdOn byDateAscending byDateAscending_key).
  by destruct (sortBy byDateAscending telemetry).
Qed.

End Resolver.

(** C2, as the code has it. The resolver picks, first match first: the
    [originalGravity] of the looked-up session when the device names a
    session and that value is a non-zero number; else the manual value
    when that is configured and non-zero; else the gravity of the sample
    the date sort puts first. A device with all three candidates gets the
    session value, one with no session value but a manual one gets the
    manual value. *)
Theorem og_resolution_priority (W : World) (CONFIG : Config)
    (device : Device (list Sample)) (telemetry : list Sample)
    (s s1 : State) (session : option Session) :
  lookupSession W device s = (Ok session, s1) →
  (∀ g, sessionOG session = Some g → ¬ (g == 0)%Q →
        resolveOG W CONFIG device telemetry s = (Ok g, s1))
  ∧ (∀ m, falsy (sessionOG session) →
          manualOriginalGravity CONFIG = Some m → ¬ (m == 0)%Q →
          resolveOG W CONFIG device telemetry s = (Ok m, s1))
  ∧ (∀ first, falsy (sessionOG session) → falsy (manualOriginalGravity CONFIG) →
       head (sortBy byDateAscending telemetry) = Some first →
       resolveOG W CONFIG device telemetry s = (Ok (gravity first), s1)).
Proof.
  intros Hl. rewrite (resolveOG_lookup W CONFIG _ _ _ _ _ Hl).
  split; [| split].
  - intros g Hs Hg. by apply pickOG_session.
  - intros m Hs Hm Hz. rewrite pickOG_session_falsy by done.
    by apply pickOG_manual.
  - intros first Hs Hm. rewrite pickOG_session_falsy, pickOG_fallback by done.
    rewrite (head_sortBy createdOn byDateAscending byDateAscending_key).
    by intros ->.
Qed.

Lemma og_resolution_priority_witness :
  lookupSession (scenario [sessionPill] (Ok brew) (Ok brew) (Ok (profileWith (Some 1055%Q))))
    sessionPill coldStart
  = (Ok (Some {| sessionId := "session-1"; originalGravity := Some 1055%Q |}),
     {| accessToken := Some "token"%string;
        tokenExpiry := Some 1700003600000;
        requests := [PostToken; GetProfiles] |})
  ∧ resolveOG (scenario [sessionPill] (Ok brew) (Ok brew) (Ok (profileWith (Some 1055%Q))))
      {| manualOriginalGravity := Some 1050%Q |} sessionPill brew coldStart
    = (Ok 1055%Q,
       {| accessToken := Some "token"%string;
          tokenExpiry := Some 1700003600000;
          requests := [PostToken; GetProfiles] |}).
Proof.
  split; [vm_compute; reflexivity |].
  refine (proj1 (og_resolution_priority _ _ sessionPill brew coldStart _ _ _)
            1055%Q _ _).
  - vm_compute; reflexivity.
  - reflexivity.
  - discriminate.
Defined.

(** C2, as stated, fails when the session exposes an [originalGravity] of
    0: the device names a session, the lookup finds it, its field is
    there, and yet the manual value is what the resolver returns. *)
Lemma zero_session_og_not_used :
  ∃ s1,
    refId <$> activeProfileSession sessionPill = Some (Some "session-1"%string)
    ∧ lookupSession
        (scenario [sessionPill] (Ok brew) (Ok brew) (Ok (profileWith (Some 0%Q))))
        sessionPill coldStart
      = (Ok (Some {| sessionId := "session-1"; originalGravity := Some 0%Q |}), s1)
    ∧ resolveOG
        (scenario [sessionPill] (Ok brew) (Ok brew) (Ok (profileWith (Some 0%Q))))
        {| manualOriginalGravity := Some 1050%Q |} sessionPill brew coldStart
      = (Ok 1050%Q, s1)
    ∧ ¬ (1050 == 0)%Q.
Proof.
  eexists. split; [reflexivity |]. split; [vm_compute; reflexivity |].
  split; [vm_compute; reflexivity | discriminate].
Qed.

(** C9. A candidate that is falsy counts as absent. When the session the
    lookup produced has an [originalGravity] of 0 or none at all, the
    resolver behaves as if there were no session: a non-zero manual value is
    returned. When the manual value is 0 or unset as well, the resolver
    behaves as if none were configured and returns the gravity of the
    sample the date sort puts first. *)
Theorem falsy_og_candidates_are_skipped (W : World) (CONFIG : Config)
    (device : Device (list Sample)) (telemetry : list Sample)
    (s s1 : State) (session : option Session) :
  lookupSession W device s = (Ok session, s1) →
  falsy (sessionOG session) →
  resolveOG W CONFIG device telemetry s = pickOG CONFIG None telemetry s1
  ∧ (∀ m, manualOriginalGravity CONFIG = Some m → ¬ (m == 0)%Q →
          resolveOG W CONFIG device telemetry s = (Ok m, s1))
  ∧ (falsy (manualOriginalGravity CONFIG) →
     resolveOG W CONFIG device telemetry s
     = pickOG {| manualOriginalGravity := None |} None telemetry s1
     ∧ ∀ first, head (sortBy byDateAscending telemetry) = Some first →
         resolveOG W CONFIG device telemetry s = (Ok (gravity first), s1)).
Proof.
  intros Hl Hs. rewrite (resolveOG_lookup W CONFIG _ _ _ _ _ Hl).
  rewrite pickOG_session_falsy by done.
  split; [done |]. split.
  - intros m Hm Hz. by apply pickOG_manual.
  - intros Hm. rewrite pickOG_fallback by done.
    rewrite (pickOG_fallback {| manualOriginalGravity := None |}) by (by left).
    split; [done |]. intros first.
    rewrite (head_sortBy createdOn byDateAscending byDateAscending_key).
    by intros ->.
Qed.

Lemma falsy_og_candidates_are_skipped_witness :
  falsy (sessionOG (Some {| sessionId := "session-1"; originalGravity := Some 0%Q |}))
  ∧ resolveOG
      (scenario [sessionPill] (Ok brew) (Ok brew) (Ok (profileWith (Some 0%Q))))
      {| manualOriginalGravity := Some 1050%Q |} sessionPill brew coldStart
    = (Ok 1050%Q,
       {| accessToken := Some "token"%string;
          tokenExpiry := Some 1700003600000;
          requests := [PostToken; GetProfiles] |}).
Proof.
  assert (Hf : falsy (sessionOG
    (Some {| sessionId := "session-1"; originalGravity := Some 0%Q |}))).
  { right. exists 0%Q. split; reflexivity. }
  split; [exact Hf |].
  refine (proj1 (proj2 (falsy_og_candidates_are_skipped
    (scenario [sessionPill] (Ok brew) (Ok brew) (Ok (profileWith (Some 0%Q))))
    _ sessionPill brew coldStart _ _ _ Hf)) 1050%Q _ _).
  - vm_compute; reflexivity.
  - reflexivity.
  - discriminate.
Defined.

(** C5, as the code has it. With neither a session value nor a manual
    value, the resolver returns the gravity of the first sample, in input
    order, among those whose [createdOn] is the earliest of the array:
    every sample before it in the array is later, no sample after it is
    earlier. Reordering the array does not change the result as long as
    the samples that share the earliest [createdOn] agree on their
    gravity, as they do when one sample alone is the earliest. *)
Theorem fallback_takes_earliest_sample (W : World) (CONFIG : Config)
    (device : Device (list Sample)) (telemetry : list Sample)
    (s s1 : State) (session : option Session) :
  lookupSession W device s = (Ok session, s1) →
  falsy (sessionOG session) →
  falsy (manualOriginalGravity CONFIG) →
  telemetry ≠ [] →
  ∃ before first after,
    telemetry = before ++ first :: after
    ∧ Forall (λ t, createdOn first < createdOn t) before
    ∧ Forall (λ t, createdOn first ≤ createdOn t) after
    ∧ resolveOG W CONFIG device telemetry s = (Ok (gravity first), s1)
    ∧ (∀ shuffled,
         shuffled ≡ₚ telemetry →
         (∀ t, t ∈ telemetry → createdOn t = createdOn first →
               gravity t = gravity first) →
         resolveOG W CONFIG device shuffled s = (Ok (gravity first), s1)).
Proof.
  intros Hl Hs Hm Hne.
  destruct (firstLeast_is_Some createdOn telemetry Hne) as [first Hfirst].
  destruct (firstLeast_least createdOn telemetry first Hfirst) as [Hin Hmin].
  destruct (firstLeast_first createdOn telemetry first Hfirst)
    as (before & after & Hsplit & Hbefore & Hafter).
  exists before, first, after.
  split; [exact Hsplit |]. split; [exact Hbefore |]. split; [exact Hafter |]. split.
  - rewrite (resolveOG_lookup W CONFIG _ _ _ _ _ Hl).
    rewrite pickOG_session_falsy, pickOG_fallback by done. by rewrite Hfirst.
  - intros shuffled Hperm Hties.
    rewrite (resolveOG_lookup W CONFIG _ _ _ _ _ Hl).
    rewrite pickOG_session_falsy, pickOG_fallback by done.
    assert (Hne' : shuffled ≠ []).
    { intros ->. by apply Permutation_nil_l in Hperm. }
    destruct (firstLeast_is_Some createdOn shuffled Hne') as [other Hother].
    rewrite Hother.
    destruct (firstLeast_least createdOn shuffled other Hother) as [Hin' Hmin'].
    rewrite Hperm in Hin'.
    assert (createdOn other = createdOn first) as Heq.
    { specialize (Hmin other Hin'). specialize (Hmin' first).
      rewrite Hperm in Hmin'. specialize (Hmin' Hin). lia. }
    by rewrite (Hties other Hin' Heq).
Qed.

Lemma fallback_takes_earliest_sample_witness :
  falsy (sessionOG None)
  ∧ falsy None
  ∧ rev brew ≠ []
  ∧ ∃ before first after,
      rev brew = before ++ first :: after
      ∧ Forall (λ t, createdOn first < createdOn t) before
      ∧ Forall (λ t, createdOn first ≤ createdOn t) after
      ∧ resolveOG (scenario [plainPill] (Ok brew) (Ok brew) (Ok []))
          {| manualOriginalGravity := None |} plainPill (rev brew) coldStart
        = (Ok (gravity first), coldStart)
      ∧ (∀ shuffled,
           shuffled ≡ₚ rev brew →
           (∀ t, t ∈ rev brew → createdOn t = createdOn first →
                 gravity t = gravity first) →
           resolveOG (scenario [plainPill] (Ok brew) (Ok brew) (Ok []))
             {| manualOriginalGravity := None |} plainPill shuffled coldStart
           = (Ok (gravity first), coldStart)).
Proof.
  split; [by left |]. split; [by left |]. split; [discriminate |].
  apply (fallback_takes_earliest_sample _ _ plainPill (rev brew) coldStart coldStart None).
  - reflexivity.
  - by left.
  - by left.
  - discriminate.
Defined.

(** C5, as stated, fails on two readings taken at the same instant: the
    array and its reversal are permutations of each other and resolve to
    different original gravities. *)
Lemma fallback_depends_on_order_of_ties :
  rev tie ≡ₚ tie
  ∧ resolveOG (scenario [plainPill] (Ok tie) (Ok tie) (Ok []))
      {| manualOriginalGravity := None |} plainPill tie coldStart
    = (Ok 1060%Q, coldStart)
  ∧ resolveOG (scenario [plainPill] (Ok tie) (Ok tie) (Ok []))
      {| manualOriginalGravity := None |} plainPill (rev tie) coldStart
    = (Ok 1050%Q, coldStart)
  ∧ ¬ (1060 == 1050)%Q.
Proof.
  split; [symmetry; apply Permutation_rev |].
  split; [vm_compute; reflexivity |].
  split; [vm_compute; reflexivity | discriminate].
Qed.

(* ===================================================================== *)
(** ** Telemetry fetch and the whole request *)
(* ===================================================================== *)

Section Request.

Variable W : World.
Variable CONFIG : Config.

Lemma fetchTelemetry_empty hid s :
  telemetryEmpty W hid →
  ∃ s', fetchTelemetry W hid s = (Ok (Parsed []), s')
        ∨ fetchTelemetry W hid s = (Ok (RawText ""), s').
Proof.
  intros He. rewrite fetchTelemetry_run.
  set (s0 := (ensureToken W s).2).
  set (windowed := GetTelemetryWindow hid _ _).
  destruct (He (requests s0) windowed eq_refl) as [-> | [-> | [e ->]]]; [eauto | eauto |].
  destruct (He (requests s0 ++ [windowed]) (GetTelemetry hid) eq_refl)
    as [-> | [-> | [e' ->]]]; eauto.
Qed.


Lemma enrichDevice_telemetryEmpty device s :
  telemetryEmpty W (deviceId device) →
  ∃ s', enrichDevice W CONFIG device s = (Ok device, s').
Proof.
  intros Hempty.
  destruct (fetchTelemetry_empty (deviceId device) s Hempty) as [s1 [Hf | Hf]];
    exists s1.
  - by apply enrichDevice_empty.
  - by apply enrichDevice_blank.
Qed.

Lemma enrichDevice_unchanged device s o s' :
  telemetryEmpty W (deviceId device) →
  enrichDevice W CONFIG device s = (Ok o, s') → o = device.
Proof.
  intros Hempty He.
  destruct (enrichDevice_telemetryEmpty device s Hempty) as [s1 Hrun].
  rewrite Hrun in He. by injection He as <- _.
Qed.


(** The whole request in terms of what the device-list call resolves
    to. *)
Lemma fetchHydrometers_run s :
  let s0 := (ensureToken W s).2 in
  let s1 := after s0 [GetHydrometers] in
  fetchHydrometers W CONFIG s =
  match hydrometersReply W (requests s0) with
  | Ok (Parsed data) =>
      match forEachM (enrichDevice W CONFIG) data s1 with
      | (Ok out, s2) => (Ok (Parsed out), s2)
      | (Err e, s2) => (Err e, s2)
      end
  | Ok (RawText text) =>
      match forEachM (λ _, enrichCharacter W CONFIG)
              (String.list_ascii_of_string text) s1 with
      | (Ok _, s2) => (Ok (RawText text), s2)
      | (Err e, s2) => (Err e, s2)
      end
  | Err e => (Err e, s1)
  end.
Proof.
  intros s0 s1. unfold fetchHydrometers. unfold_M.
  rewrite ensureToken_run. fold s0.
  destruct (hydrometersReply W (requests s0)) as [[data | text] | e]; [| | done].
  - change {| accessToken := accessToken s0; tokenExpiry := tokenExpiry s0;
              requests := requests s0 ++ [GetHydrometers] |} with s1.
    by destruct (forEachM (enrichDevice W CONFIG) data s1) as [[out | e] s2].
  - change {| accessToken := accessToken s0; tokenExpiry := tokenExpiry s0;
              requests := requests s0 ++ [GetHydrometers] |} with s1.
    by destruct (forEachM _ (String.list_ascii_of_string text) s1) as [[out | e] s2].
Qed.

(** Once the device list has arrived, the request returns every device,
    unless a telemetry call is answered with a non-empty text. *)
Lemma fetchHydrometers_returns s data :
  hydrometersReply W (requests (ensureToken W s).2) = Ok (Parsed data) →
  telemetryParses W →
  ∃ out s',
    fetchHydrometers W CONFIG s = (Ok (Parsed out), s')
    ∧ Forall2 (λ d o, ∃ s1 s2, enrichDevice W CONFIG d s1 = (Ok o, s2)) data out.
Proof.
  intros Hd Hparses. rewrite fetchHydrometers_run. cbv zeta. rewrite Hd.
  destruct (forEachM_total (enrichDevice W CONFIG) data
              (λ d, total_enrichDevice W CONFIG d Hparses)
              (after (ensureToken W s).2 [GetHydrometers]))
    as (out & s' & Hrun & Hall).
  rewrite Hrun. by exists out, s'.
Qed.

Lemma fetchHydrometers_returned s r s' :
  fetchHydrometers W CONFIG s = (Ok r, s') →
  match r with
  | Parsed out =>
      ∃ data,
        hydrometersReply W (requests (ensureToken W s).2) = Ok (Parsed data)
        ∧ Forall2 (λ d o, ∃ s1 s2, enrichDevice W CONFIG d s1 = (Ok o, s2)) data out
  | RawText text =>
      hydrometersReply W (requests (ensureToken W s).2) = Ok (RawText text)
  end.
Proof.
  rewrite fetchHydrometers_run. cbv zeta.
  destruct (hydrometersReply W (requests (ensureToken W s).2))
    as [[data | text] | e]; [| | discriminate].
  - destruct (forEachM _ data _) as [[out | e] s2] eqn:Hrun; [| discriminate].
    intros [= <- <-]. exists data. split; [done |]. by eapply forEachM_returned.
  - destruct (forEachM _ _ _) as [[out | e] s2] eqn:Hrun; [| discriminate].
    by intros [= <- <-].
Qed.

(** The request throws in two ways only: with the error of the
    device-list call, or with that of [telemetry.map] on a text. *)
Lemma fetchHydrometers_threw s e s' :
  fetchHydrometers W CONFIG s = (Err e, s') →
  hydrometersReply W (requests (ensureToken W s).2) = Err e
  ∨ (e = "telemetry.map is not a function"%string ∧ ¬ telemetryParses W).
Proof.
  assert (Hno : ∀ h r text,
            telemetryReply W h r = Ok (RawText text) → text ≠ ""%string →
            ¬ telemetryParses W).
  { intros h r text Hr Hne Hparses. by apply Hparses in Hr. }
  rewrite fetchHydrometers_run. cbv zeta.
  destruct (hydrometersReply W (requests (ensureToken W s).2))
    as [[data | text] | e0].
  - destruct (forEachM _ data _) as [[out | e1] s2] eqn:Hrun; [discriminate |].
    intros [= -> _]. right.
    destruct (forEachM_threw _ _ _ _ _ Hrun) as (d & s3 & s4 & _ & Hd).
    destruct (enrichDevice_throws W CONFIG _ _ _ _ Hd) as (-> & h & r & t & Hr & Hne).
    split; [done | by eapply Hno].
  - destruct (forEachM _ _ _) as [[out | e1] s2] eqn:Hrun; [discriminate |].
    intros [= -> _]. right.
    destruct (forEachM_threw _ _ _ _ _ Hrun) as (d & s3 & s4 & _ & Hd).
    destruct (enrichCharacter_throws W CONFIG _ _ _ Hd) as (-> & h & r & t & Hr & Hne).
    split; [done | by eapply Hno].
  - intros [= -> _]. by left.
Qed.

End Request.

(** C6. A device whose fetched telemetry is empty is returned exactly as
    it was listed, in the state the telemetry fetch left: no session is
    looked up, no OG is chosen, no metric is computed and nothing is
    thrown. In a whole request every device whose telemetry calls yield
    nothing is in the output unchanged, so one listed without telemetry
    carries no sample; and the request does return, unless some telemetry
    call is answered with a non-empty body that is not JSON. *)
Theorem empty_telemetry_skips_enrichment (W : World) (CONFIG : Config) :
  (∀ device s s1,
     fetchTelemetry W (deviceId device) s = (Ok (Parsed []), s1) →
     enrichDevice W CONFIG device s = (Ok device, s1))
  ∧ (∀ s data,
       hydrometersReply W (requests (ensureToken W s).2) = Ok (Parsed data) →
       (telemetryParses W →
        ∃ out s', fetchHydrometers W CONFIG s = (Ok (Parsed out), s'))
       ∧ ∀ out s',
           fetchHydrometers W CONFIG s = (Ok (Parsed out), s') →
           Forall2
             (λ d o, telemetryEmpty W (deviceId d) →
                o = d ∧ (telemetry d = None → series o = []))
             data out).
Proof.
  split.
  - intros device s s1. apply enrichDevice_empty.
  - intros s data Hd. split.
    + intros Hparses.
      destruct (fetchHydrometers_returns W CONFIG s data Hd Hparses)
        as (out & s' & Hrun & _).
      by exists out, s'.
    + intros out s' Hrun.
      destruct (fetchHydrometers_returned W CONFIG _ _ _ Hrun) as (data' & Hd' & Hall).
      rewrite Hd in Hd'. injection Hd' as <-.
      eapply Forall2_impl; [exact Hall |].
      intros d o (s1 & s2 & He) Hempty.
      rewrite (enrichDevice_unchanged W CONFIG d s1 o s2 Hempty He).
      split; [done |]. unfold series. by intros ->.
Qed.

Lemma empty_telemetry_skips_enrichment_witness :
  telemetryParses (scenario [plainPill] (Ok []) (Ok []) (Ok []))
  ∧ telemetryEmpty (scenario [plainPill] (Ok []) (Ok []) (Ok [])) "pill-1"
  ∧ ∃ out s',
      fetchHydrometers (scenario [plainPill] (Ok []) (Ok []) (Ok []))
        {| manualOriginalGravity := Some 1050%Q |} coldStart = (Ok (Parsed out), s')
      ∧ Forall2
          (λ d o,
             telemetryEmpty (scenario [plainPill] (Ok []) (Ok []) (Ok [])) (deviceId d) →
             o = d ∧ (telemetry d = None → series o = []))
          [plainPill] out.
Proof.
  assert (Hparses : telemetryParses (scenario [plainPill] (Ok []) (Ok []) (Ok []))).
  { intros h r text. destruct r; discriminate. }
  split; [exact Hparses |]. split.
  - intros h r Hr. left. destruct r; reflexivity || discriminate.
  - destruct (proj2 (empty_telemetry_skips_enrichment
      (scenario [plainPill] (Ok []) (Ok []) (Ok []))
      {| manualOriginalGravity := Some 1050%Q |}) coldStart [plainPill] eq_refl)
      as [Hreturns Hall].
    destruct (Hreturns Hparses) as (out & s' & Hrun).
    exists out, s'. split; [exact Hrun | exact (Hall out s' Hrun)].
Defined.



(* ===================================================================== *)
(** ** Threshold classification *)
(* ===================================================================== *)

Lemma num_le_lt x y : num_le x y = negb (num_lt y x).
Proof.
  unfold num_le, num_lt. rewrite <- (Qcompare_antisym x y).
  by destruct (x ?= y)%Q.
Qed.

(** Reduce every comparison to [num_lt] and decide each one. *)
Ltac decide_comparisons :=
  unfold num_ge, num_gt in *; rewrite ?num_le_lt in *;
  repeat match goal with
    | |- context [num_lt ?x ?y] =>
        let E := fresh "E" in
        destruct (num_lt x y) eqn:E;
        [apply num_lt_true in E | apply num_lt_false in E]
    end.

Lemma classify_cases temp cfg cc :
  ordered cfg →
  (cc = true → (temp < tempDangerMin cfg)%Q → classify temp cfg cc = Good)
  ∧ (¬ (cc = true ∧ (temp < tempDangerMin cfg)%Q) →
     (temp < tempDangerMin cfg)%Q ∨ (tempDangerMax cfg < temp)%Q →
     classify temp cfg cc = Danger)
  ∧ ((tempDangerMin cfg <= temp)%Q ∧ (temp < tempWarningMin cfg)%Q
     ∨ (tempWarningMax cfg < temp)%Q ∧ (temp <= tempDangerMax cfg)%Q →
     classify temp cfg cc = Warning)
  ∧ ((tempWarningMin cfg <= temp)%Q ∧ (temp <= tempWarningMax cfg)%Q →
     classify temp cfg cc = Good).
Proof.
  intros (H1 & H2 & H3). unfold classify.
  repeat split; intros; destruct cc; decide_comparisons; simpl;
    first [reflexivity | exfalso; intuition lra].
Qed.

Lemma tempClass_classify cfg cc d :
  ordered cfg →
  tempClass cfg cc (Some d) = severityClass (classify (temperature d) cfg cc).
Proof.
  intros (H1 & H2 & H3). unfold tempClass, classify.
  destruct cc; decide_comparisons; simpl; first [reflexivity | exfalso; lra].
Qed.

Lemma tempColor_classify p d :
  ordered (tempConfig p) →
  tempColor p d =
  severityColor (monochromeMode p) (darkMode p)
    (classify (temperature d) (tempConfig p) (coldCrashMode p)).
Proof.
  intros (H1 & H2 & H3). unfold tempColor, classify.
  destruct (coldCrashMode p), (monochromeMode p), (darkMode p);
    decide_comparisons; simpl; first [reflexivity | exfalso; lra].
Qed.

(** C4. What the page shows for a reading depends on its temperature, the
    threshold configuration and the cold-crash flag only, and is what the
    classifier of the specification says: with cold crash on, anything
    below [dangerMin] is Good; otherwise below [dangerMin] or above
    [dangerMax] is Danger; from [dangerMin] up to [warningMin], and above
    [warningMax] up to [dangerMax], is Warning; from [warningMin] to
    [warningMax] is Good. With 18/20/26/28: 15 is Danger, 15 under cold
    crash is Good, 23 is Good, 29 under cold crash is Danger. *)
Theorem threshold_classification (p : Page) (d : Sample) :
  ordered (tempConfig p) →
  let temp := temperature d in
  let cfg := tempConfig p in
  shows p d (classify temp cfg (coldCrashMode p))
  ∧ (coldCrashMode p = true → (temp < tempDangerMin cfg)%Q → shows p d Good)
  ∧ (¬ (coldCrashMode p = true ∧ (temp < tempDangerMin cfg)%Q) →
     (temp < tempDangerMin cfg)%Q ∨ (tempDangerMax cfg < temp)%Q →
     shows p d Danger)
  ∧ ((tempDangerMin cfg <= temp)%Q ∧ (temp < tempWarningMin cfg)%Q
     ∨ (tempWarningMax cfg < temp)%Q ∧ (temp <= tempDangerMax cfg)%Q →
     shows p d Warning)
  ∧ ((tempWarningMin cfg <= temp)%Q ∧ (temp <= tempWarningMax cfg)%Q →
     shows p d Good)
  ∧ (∀ dark mono,
       shows (pageWith defaultTempConfig false dark mono) (thermo 15) Danger
       ∧ shows (pageWith defaultTempConfig true dark mono) (thermo 15) Good
       ∧ shows (pageWith defaultTempConfig false dark mono) (thermo 23) Good
       ∧ shows (pageWith defaultTempConfig true dark mono) (thermo 29) Danger).
Proof.
  intros Hord temp cfg.
  assert (Hshows : shows p d (classify temp cfg (coldCrashMode p))).
  { split; [by apply tempClass_classify | by apply tempColor_classify]. }
  destruct (classify_cases temp cfg (coldCrashMode p) Hord)
    as (Hcold & Hdanger & Hwarning & Hgood).
  split; [exact Hshows |].
  split; [intros Hc Hlow; by rewrite <- (Hcold Hc Hlow) |].
  split; [intros Hn Hout; by rewrite <- (Hdanger Hn Hout) |].
  split; [intros Hin; by rewrite <- (Hwarning Hin) |].
  split; [intros Hin; by rewrite <- (Hgood Hin) |].
  intros dark mono. destruct dark, mono; repeat split; reflexivity.
Qed.

Lemma threshold_classification_witness :
  ordered defaultTempConfig
  ∧ shows (pageWith defaultTempConfig true false false) (thermo 15) Good.
Proof.
  assert (Hord : ordered defaultTempConfig).
  { repeat split; discriminate. }
  split; [exact Hord |].
  refine (proj1 (proj2 (threshold_classification
    (pageWith defaultTempConfig true false false) (thermo 15) Hord)) _ _).
  - reflexivity.
  - reflexivity.
Defined.

(* ===================================================================== *)
(** ** Latest-reading selection *)
(* ===================================================================== *)

Lemma StronglySorted_weaken {A} (R R' : A → A → Prop) l :
  (∀ a b, R a b → R' a b) → StronglySorted R l → StronglySorted R' l.
Proof.
  intros HR. induction 1 as [| x l Hl IH Hx]; constructor; [exact IH |].
  eapply Forall_impl; [exact Hx | apply HR].
Qed.

Lemma sortDescending_sorted l : StronglySorted newestFirst (sortBy byDateDescending l).
Proof.
  eapply StronglySorted_weaken;
    [| apply (sortBy_sorted (λ t, - createdOn t)), byDateDescending_key].
  unfold keyLe, newestFirst. intros a b. lia.
Qed.

Lemma sortDescending_idempotent l :
  sortBy byDateDescending (sortBy byDateDescending l) = sortBy byDateDescending l.
Proof.
  apply (sortBy_idempotent (λ t, - createdOn t)), byDateDescending_key.
Qed.

Lemma contents_setArrays p l sorted l' :
  contents (setArrays p (<[l := sorted]> (arrays p))) l' =
  if decide (l' = l) then sorted else contents p l'.
Proof.
  unfold contents. simpl. destruct (decide (l' = l)) as [-> | Hne].
  - by rewrite lookup_insert_eq.
  - by rewrite lookup_insert_ne.
Qed.

(** The selection leaves the array it looked at sorted newest first, and
    every other array alone; what it returns is the first element. *)
Lemma selectLatest_run device p :
  (∀ l', contents (selectLatest device p).2 l' =
         if decide (telemetry device = Some l')
         then sortBy byDateDescending (contents p l')
         else contents p l')
  ∧ (selectLatest device p).1
    = telemetry device ≫= (λ l, head (sortBy byDateDescending (contents p l))).
Proof.
  unfold selectLatest. destruct (telemetry device) as [l |]; simpl.
  - destruct (Z.ltb_spec 0 (Z.of_nat (length (contents p l)))) as [Hpos | Hnil]; simpl.
    + split; [| done]. intros l'. rewrite contents_setArrays.
      destruct (decide (l' = l)) as [-> | Hne].
      * by rewrite decide_True.
      * rewrite decide_False; [done | congruence].
    + assert (contents p l = []) as Hl
        by (destruct (contents p l); [done | simpl in Hnil; lia]).
      split; [| by rewrite Hl]. intros l'.
      destruct (decide (Some l = Some l')) as [[= <-] | Hne]; [by rewrite Hl | done].
  - split; [| done]. intros l'. by repeat case_decide.
Qed.

(** The first [forEach] only fills [window.deviceTelemetryData]. *)
Lemma storeTelemetry_contents hydrometers p l :
  contents (foldl storeTelemetry p hydrometers) l = contents p l.
Proof.
  revert p. induction hydrometers as [| d hs IH]; intros p; simpl; [done |].
  rewrite IH. unfold storeTelemetry. destruct (hasTelemetry p d); [| done].
  by destruct (telemetry d).
Qed.

Lemma renderCards_contents hydrometers p l :
  contents (renderCards hydrometers p).2 l =
  if decide (l ∈ telemetryRefs hydrometers)
  then sortBy byDateDescending (contents p l)
  else contents p l.
Proof.
  revert p. induction hydrometers as [| d hs IH]; intros p; simpl; [done |].
  unfold displayDevice.
  destruct (selectLatest_run d p) as (Hc & _).
  destruct (selectLatest d p) as [latest p1]. simpl in Hc.
  specialize (IH p1). destruct (renderCards hs p1) as [cards p2]. simpl in *.
  rewrite IH, Hc. unfold telemetryRefs in *. simpl.
  destruct (telemetry d) as [ld |] eqn:Ed; simpl; [| done].
  repeat match goal with
    | |- context [decide ?P] => destruct (decide P)
    end;
    first [done | by rewrite sortDescending_idempotent
          | exfalso;
            match goal with
            | H : ¬ (_ ∈ _ :: _) |- _ =>
                apply H, elem_of_cons; first [by right | left; congruence]
            | H : _ ∈ _ :: _ |- _ =>
                apply elem_of_cons in H as [-> | ?]; [congruence | contradiction]
            end].
Qed.

Lemma renderCards_latest hydrometers p :
  Forall2
    (λ device card,
       latestData card
       = telemetry device ≫= (λ l, head (contents (renderCards hydrometers p).2 l)))
    hydrometers (renderCards hydrometers p).1.
Proof.
  revert p. induction hydrometers as [| d hs IH]; intros p; [constructor |].
  pose proof (renderCards_contents (d :: hs) p) as Hfinal.
  simpl in *. unfold displayDevice in *.
  destruct (selectLatest_run d p) as (_ & Hl).
  destruct (selectLatest d p) as [latest p1]. simpl in Hl.
  specialize (IH p1). destruct (renderCards hs p1) as [cards p2]. simpl in *.
  constructor; [| exact IH]. simpl. rewrite Hl.
  destruct (telemetry d) as [ld |] eqn:Ed; simpl; [| done].
  rewrite Hfinal. rewrite decide_True; [done |].
  unfold telemetryRefs. simpl. rewrite ?Ed. by left.
Qed.

Lemma displayDevices_renderCards hydrometers p :
  displayDevices hydrometers p
  = renderCards hydrometers (foldl storeTelemetry p hydrometers).
Proof.
  unfold displayDevices. by destruct hydrometers.
Qed.

(** C10. One pass of [displayDevices] leaves the array of every listed
    device reordered newest first: the array itself, not a copy, now holds
    its former elements sorted by descending [createdOn]. The samples are
    the same ones, each with all its fields. The card of a device shows
    the first element of its reordered array, and arrays no listed device
    refers to are untouched. *)
Theorem latest_selection_sorts_in_place (hydrometers : list (Device loc)) (p : Page) :
  let p' := (displayDevices hydrometers p).2 in
  let cards := (displayDevices hydrometers p).1 in
  (∀ device l,
     device ∈ hydrometers → telemetry device = Some l →
     contents p' l = sortBy byDateDescending (contents p l)
     ∧ StronglySorted newestFirst (contents p' l)
     ∧ contents p' l ≡ₚ contents p l)
  ∧ Forall2
      (λ device card,
         latestData card = telemetry device ≫= (λ l, head (contents p' l)))
      hydrometers cards
  ∧ (∀ l, l ∉ telemetryRefs hydrometers → contents p' l = contents p l).
Proof.
  intros p' cards. unfold p', cards. clear p' cards.
  rewrite displayDevices_renderCards.
  set (p0 := foldl storeTelemetry p hydrometers).
  assert (Hp0 : ∀ l, contents p0 l = contents p l).
  { intros l. apply storeTelemetry_contents. }
  split; [| split].
  - intros device l Hin Ht.
    assert (contents (renderCards hydrometers p0).2 l
            = sortBy byDateDescending (contents p l)) as ->.
    { rewrite renderCards_contents, Hp0. rewrite decide_True; [done |].
      unfold telemetryRefs. apply list_elem_of_omap. eauto. }
    split; [done |]. split; [apply sortDescending_sorted |].
    apply sortBy_Permutation.
  - apply renderCards_latest.
  - intros l Hl. rewrite renderCards_contents, Hp0. by rewrite decide_False.
Qed.

Lemma latest_selection_sorts_in_place_witness :
  shownPill ∈ [shownPill]
  ∧ contents loadedPage 1%positive = map (enrich 1063) brew
  ∧ contents (displayDevices [shownPill] loadedPage).2 1%positive
    = sortBy byDateDescending (contents loadedPage 1%positive)
  ∧ sortBy byDateDescending (contents loadedPage 1%positive)
    = rev (map (enrich 1063) brew).
Proof.
  assert (Hin : shownPill ∈ [shownPill]) by (left; reflexivity).
  split; [exact Hin |]. split; [reflexivity |]. split.
  - exact (proj1 (proj1 (latest_selection_sorts_in_place [shownPill] loadedPage)
                    shownPill 1%positive Hin eq_refl)).
  - vm_compute. reflexivity.
Defined.

(* ===================================================================== *)
(** ** Profile sessions *)
(* ===================================================================== *)

(** X1. The session [fetchProfileSession] picks out of the profiles has
    the requested id and is listed under one of the profiles; it finds none
    only when no session of any profile has that id. *)
Theorem findSession_finds_the_id (data : list Profile) (sid : string) :
  match findSession data sid with
  | Some s =>
      sessionId s = sid
      ∧ ∃ profile ss, profile ∈ data ∧ sessions profile = Some ss ∧ s ∈ ss
  | None =>
      ∀ profile ss s,
        profile ∈ data → sessions profile = Some ss → s ∈ ss → sessionId s ≠ sid
  end.
Proof.
  induction data as [| profile rest IH]; simpl.
  - intros profile ss s Hin. by apply elem_of_nil in Hin.
  - destruct (sessions profile) as [ss |] eqn:Ess.
    + destruct (List.find _ ss) as [session |] eqn:Ef.
      * apply find_some in Ef as [Hin Heq]. apply String.eqb_eq in Heq.
        split; [exact Heq |]. exists profile, ss.
        split; [by left |]. split; [exact Ess |]. by apply list_elem_of_In.
      * destruct (findSession rest sid) as [s |].
        -- destruct IH as (Hid & p' & ss' & Hp & Hs & Hin).
           split; [exact Hid |]. exists p', ss'. split; [by right | done].
        -- intros p' ss' s [-> | Hp]%elem_of_cons Hs Hin.
           ++ rewrite Ess in Hs. injection Hs as <-.
              apply list_elem_of_In in Hin.
              pose proof (find_none _ _ Ef s Hin) as Hne. simpl in Hne.
              by apply String.eqb_neq.
           ++ by eapply IH.
    + destruct (findSession rest sid) as [s |].
      * destruct IH as (Hid & p' & ss' & Hp & Hs & Hin).
        split; [exact Hid |]. exists p', ss'. split; [by right | done].
      * intros p' ss' s [-> | Hp]%elem_of_cons Hs Hin.
        -- congruence.
        -- by eapply IH.
Qed.

Section ProfileFailure.

Variable W : World.
Variable CONFIG : Config.

Lemma fetchProfileSession_failed sid s :
  (∀ h, ∃ e, profilesReply W h = Err e) →
  ∃ s', fetchProfileSession W sid s = (Ok None, s').
Proof.
  intros Hfail. unfold fetchProfileSession. unfold_M.
  rewrite ensureToken_run.
  destruct (Hfail (requests (ensureToken W s).2)) as [e ->]. eauto.
Qed.

Lemma lookupSession_failed device s :
  (∀ h, ∃ e, profilesReply W h = Err e) →
  ∃ s', lookupSession W device s = (Ok None, s').
Proof.
  intros Hfail. unfold lookupSession.
  destruct (activeProfileSession device) as [ref |]; [| by exists s].
  destruct (truthyStr (refId ref)); [| by exists s].
  by apply fetchProfileSession_failed.
Qed.

End ProfileFailure.

(** X2. A failing profile request is not an error of the resolution: the
    resolver goes on to the manual value when that is a non-zero number,
    and otherwise to the gravity of the sample the date sort puts first. *)
Theorem profile_failure_falls_through (W : World) (CONFIG : Config)
    (device : Device (list Sample)) (telemetry : list Sample) (s : State) :
  (∀ h, ∃ e, profilesReply W h = Err e) →
  (∀ m, manualOriginalGravity CONFIG = Some m → ¬ (m == 0)%Q →
        ∃ s', resolveOG W CONFIG device telemetry s = (Ok m, s'))
  ∧ (∀ first, falsy (manualOriginalGravity CONFIG) →
       head (sortBy byDateAscending telemetry) = Some first →
       ∃ s', resolveOG W CONFIG device telemetry s = (Ok (gravity first), s')).
Proof.
  intros Hfail.
  destruct (lookupSession_failed W device s Hfail) as [s' Hl].
  rewrite (resolveOG_lookup W CONFIG _ _ _ _ _ Hl). split.
  - intros m Hm Hz. exists s'. by apply pickOG_manual.
  - intros first Hm Hhead. exists s'. rewrite pickOG_fallback by done.
    rewrite (head_sortBy createdOn byDateAscending byDateAscending_key) in Hhead.
    by rewrite Hhead.
Qed.

Lemma profile_failure_falls_through_witness :
  (∀ h, ∃ e, profilesReply
     (scenario [sessionPill] (Ok brew) (Ok brew) (Err "503")) h = Err e)
  ∧ ∃ s', resolveOG (scenario [sessionPill] (Ok brew) (Ok brew) (Err "503"))
            {| manualOriginalGravity := Some 1050%Q |} sessionPill brew coldStart
          = (Ok 1050%Q, s').
Proof.
  assert (Hfail : ∀ h, ∃ e, profilesReply
            (scenario [sessionPill] (Ok brew) (Ok brew) (Err "503")) h = Err e).
  { intros h. exists "503"%string. reflexivity. }
  split; [exact Hfail |].
  refine (proj1 (profile_failure_falls_through _ _ sessionPill brew coldStart Hfail)
            1050%Q _ _).
  - reflexivity.
  - discriminate.
Defined.

(* ===================================================================== *)
(** ** The token cache *)
(* ===================================================================== *)

Section Token.

Variable W : World.
Variable CONFIG : Config.

Lemma after_nil s : after s [] = s.
Proof. destruct s. unfold after. simpl. by rewrite app_nil_r. Qed.

Lemma after_after s rs rs' : after (after s rs) rs' = after s (rs ++ rs').
Proof. unfold after. simpl. by rewrite app_assoc. Qed.

Lemma tokenGood_after s rs : tokenGood W s → tokenGood W (after s rs).
Proof. intros H. exact H. Qed.

Lemma quiet_ret {A} (a : A) : quiet W (ret a).
Proof. intros s _. exists []. split; [by rewrite after_nil | apply not_elem_of_nil]. Qed.

Lemma quiet_throw {A} e : quiet W (@throw A e).
Proof. intros s _. exists []. split; [by rewrite after_nil | apply not_elem_of_nil]. Qed.

Lemma quiet_bind {A B} (m : M A) (k : A → M B) :
  quiet W m → (∀ a, quiet W (k a)) → quiet W (m ≫= k).
Proof.
  intros Hm Hk s Hs. unfold_M.
  destruct (Hm s Hs) as (rs & Hrs & Hno).
  destruct (m s) as [[a | e] s1]; simpl in Hrs; subst s1.
  - destruct (Hk a (after s rs) (tokenGood_after s rs Hs)) as (rs' & Hrs' & Hno').
    exists (rs ++ rs'). rewrite Hrs', after_after. split; [done |].
    rewrite elem_of_app. tauto.
  - by exists rs.
Qed.

Lemma quiet_tryCatch {A} (m : M A) (h : string → M A) :
  quiet W m → (∀ e, quiet W (h e)) → quiet W (tryCatch m h).
Proof.
  intros Hm Hh s Hs. unfold tryCatch.
  destruct (Hm s Hs) as (rs & Hrs & Hno).
  destruct (m s) as [[a | e] s1]; simpl in Hrs; subst s1.
  - by exists rs.
  - destruct (Hh e (after s rs) (tokenGood_after s rs Hs)) as (rs' & Hrs' & Hno').
    exists (rs ++ rs'). rewrite Hrs', after_after. split; [done |].
    rewrite elem_of_app. tauto.
Qed.

Lemma quiet_makeRequest {A} (reply : list Request → result (Body A)) r :
  r ≠ PostToken → quiet W (makeRequest reply r).
Proof.
  intros Hr s _. exists [r]. split; [done |].
  intros Hin%list_elem_of_singleton. congruence.
Qed.

(** With a token that is still valid nothing is requested. *)
Lemma ensureToken_valid s : tokenGood W s → ensureToken W s = (Ok (), s).
Proof.
  intros (Htok & e & He & Hne & Hclock).
  unfold ensureToken, isTokenValid. unfold_M. rewrite Htok, He. simpl.
  assert ((e =? 0) = false) as -> by (by apply Z.eqb_neq).
  assert ((dateNow W (requests s) <? e) = true) as -> by (by apply Z.ltb_lt).
  reflexivity.
Qed.

Lemma quiet_ensureToken : quiet W (ensureToken W).
Proof.
  intros s Hs. rewrite (ensureToken_valid s Hs). exists []. split; [by rewrite after_nil | apply not_elem_of_nil].
Qed.

Lemma quiet_fetchTelemetry hid : quiet W (fetchTelemetry W hid).
Proof.
  unfold fetchTelemetry. apply quiet_bind; [apply quiet_ensureToken | intros _].
  apply quiet_bind.
  { intros s _. exists []. split; [by rewrite after_nil | apply not_elem_of_nil]. }
  intros s0. apply quiet_tryCatch; [by apply quiet_makeRequest | intros _].
  apply quiet_tryCatch; [by apply quiet_makeRequest | intros _; apply quiet_ret].
Qed.

Lemma quiet_lookupSession device : quiet W (lookupSession W device).
Proof.
  unfold lookupSession. destruct (activeProfileSession device) as [ref |];
    [| apply quiet_ret].
  destruct (truthyStr (refId ref)); [| apply quiet_ret].
  unfold fetchProfileSession.
  apply quiet_bind; [apply quiet_ensureToken | intros _].
  apply quiet_tryCatch; [| intros _; apply quiet_ret].
  apply quiet_bind; [by apply quiet_makeRequest | intros [data | text]; apply quiet_ret].
Qed.

Lemma quiet_pickOG session telemetry : quiet W (pickOG CONFIG session telemetry).
Proof.
  unfold pickOG. repeat case_match; first [apply quiet_ret | apply quiet_throw].
Qed.

Lemma quiet_enrichDevice device : quiet W (enrichDevice W CONFIG device).
Proof.
  unfold enrichDevice. apply quiet_bind; [apply quiet_fetchTelemetry |].
  intros [samples | text]; (destruct (0 <? _); [| apply quiet_ret]).
  - apply quiet_bind; [| intros og; apply quiet_ret].
    apply quiet_bind; [apply quiet_lookupSession | intros; apply quiet_pickOG].
  - apply quiet_bind; [apply quiet_lookupSession | intros; apply quiet_throw].
Qed.

Lemma quiet_enrichCharacter : quiet W (enrichCharacter W CONFIG).
Proof.
  unfold enrichCharacter. apply quiet_bind; [apply quiet_fetchTelemetry |].
  intros [samples | text]; (destruct (0 <? _); [| apply quiet_ret]).
  - apply quiet_bind; [apply quiet_pickOG | intros og; apply quiet_ret].
  - apply quiet_throw.
Qed.

Lemma quiet_forEachM {A B} (f : A → M B) l :
  (∀ x, quiet W (f x)) → quiet W (forEachM f l).
Proof.
  intros Hf. induction l as [| x l IH]; simpl; [apply quiet_ret |].
  apply quiet_bind; [apply Hf | intros y].
  apply quiet_bind; [exact IH | intros ys; apply quiet_ret].
Qed.

Lemma quiet_fetchHydrometers : quiet W (fetchHydrometers W CONFIG).
Proof.
  unfold fetchHydrometers. apply quiet_bind; [apply quiet_ensureToken | intros _].
  apply quiet_tryCatch; [| intros e; apply quiet_throw].
  apply quiet_bind; [by apply quiet_makeRequest | intros [data | text]].
  - apply quiet_bind; [| intros out; apply quiet_ret].
    apply quiet_forEachM, quiet_enrichDevice.
  - apply quiet_bind; [| intros out; apply quiet_ret].
    apply quiet_forEachM. intros _. apply quiet_enrichCharacter.
Qed.

End Token.

(** X3. While the cached token is non-empty and its expiry lies after
    every reading of the clock, a whole [fetchHydrometers] run makes no
    token request and leaves the cached token as it is: it only adds
    requests to the API. *)
Theorem valid_token_is_reused (W : World) (CONFIG : Config) (s : State) :
  tokenGood W s →
  ∃ rs,
    (fetchHydrometers W CONFIG s).2 = after s rs
    ∧ (PostToken ∉ rs)
    ∧ accessToken (fetchHydrometers W CONFIG s).2 = accessToken s
    ∧ tokenExpiry (fetchHydrometers W CONFIG s).2 = tokenExpiry s.
Proof.
  intros Hs. destruct (quiet_fetchHydrometers W CONFIG s Hs) as (rs & Hrs & Hno).
  exists rs. rewrite Hrs. done.
Qed.

Lemma valid_token_is_reused_witness :
  tokenGood (scenario [plainPill] (Ok brew) (Ok brew) (Ok []))
    {| accessToken := Some "token"%string;
       tokenExpiry := Some 1700003600000;
       requests := [PostToken] |}
  ∧ ∃ rs,
      (fetchHydrometers (scenario [plainPill] (Ok brew) (Ok brew) (Ok []))
         {| manualOriginalGravity := None |}
         {| accessToken := Some "token"%string;
            tokenExpiry := Some 1700003600000;
            requests := [PostToken] |}).2
      = after {| accessToken := Some "token"%string;
                 tokenExpiry := Some 1700003600000;
                 requests := [PostToken] |} rs
      ∧ (PostToken ∉ rs)
      ∧ accessToken
          (fetchHydrometers (scenario [plainPill] (Ok brew) (Ok brew) (Ok []))
             {| manualOriginalGravity := None |}
             {| accessToken := Some "token"%string;
                tokenExpiry := Some 1700003600000;
                requests := [PostToken] |}).2
        = Some "token"%string
      ∧ tokenExpiry
          (fetchHydrometers (scenario [plainPill] (Ok brew) (Ok brew) (Ok []))
             {| manualOriginalGravity := None |}
             {| accessToken := Some "token"%string;
                tokenExpiry := Some 1700003600000;
                requests := [PostToken] |}).2
        = Some 1700003600000.
Proof.
  assert (Hgood : tokenGood (scenario [plainPill] (Ok brew) (Ok brew) (Ok []))
            {| accessToken := Some "token"%string;
               tokenExpiry := Some 1700003600000;
               requests := [PostToken] |}).
  { split; [reflexivity |]. exists 1700003600000.
    split; [reflexivity |]. split; [discriminate |]. intros h. reflexivity. }
  split; [exact Hgood |].
  exact (valid_token_is_reused _ _ _ Hgood).
Defined.

(* ===================================================================== *)
(** ** The whole request and the handler *)
(* ===================================================================== *)

Section WholeRequest.

Variable W : World.
Variable CONFIG : Config.

Lemma fetchHydrometers_failed s e :
  hydrometersReply W (requests (ensureToken W s).2) = Err e →
  fetchHydrometers W CONFIG s = (Err e, after (ensureToken W s).2 [GetHydrometers]).
Proof.
  intros Hd. rewrite fetchHydrometers_run. cbv zeta. by rewrite Hd.
Qed.

Lemma enrichDevice_enrichedFrom d s o s' :
  enrichDevice W CONFIG d s = (Ok o, s') → enrichedFrom d o.
Proof.
  intros He.
  destruct (enrichDevice_returned W CONFIG _ _ _ _ He)
    as [[-> _] | (og & fetched & s1 & _ & Hne & ->)].
  - by left.
  - right. by exists og, fetched.
Qed.

(** When the device list is a text, the request returns that text, unless
    a telemetry call is answered with a non-empty text. *)
Lemma fetchHydrometers_text s text :
  hydrometersReply W (requests (ensureToken W s).2) = Ok (RawText text) →
  telemetryParses W →
  ∃ s', fetchHydrometers W CONFIG s = (Ok (RawText text), s').
Proof.
  intros Hd Hparses. rewrite fetchHydrometers_run. cbv zeta. rewrite Hd.
  destruct (forEachM_total (λ _, enrichCharacter W CONFIG)
              (String.list_ascii_of_string text)
              (λ _, total_enrichCharacter W CONFIG Hparses)
              (after (ensureToken W s).2 [GetHydrometers]))
    as (out & s' & -> & _).
  by exists s'.
Qed.

End WholeRequest.

(** X4. [fetchHydrometers] throws in two ways only: with the error of the
    device-list request when that fails, whatever became of the token
    exchange; and with "telemetry.map is not a function" when a telemetry
    call is answered with a non-empty body that is not JSON. Otherwise it
    returns what the device-list call resolved to: one device per listed
    device, or the text. *)
Theorem request_throws_in_two_ways_only (W : World) (CONFIG : Config) (s : State) :
  (∀ e s',
     fetchHydrometers W CONFIG s = (Err e, s') →
     hydrometersReply W (requests (ensureToken W s).2) = Err e
     ∨ (e = "telemetry.map is not a function"%string ∧ ¬ telemetryParses W))
  ∧ match hydrometersReply W (requests (ensureToken W s).2) with
    | Ok (Parsed data) =>
        (telemetryParses W →
         ∃ out s', fetchHydrometers W CONFIG s = (Ok (Parsed out), s'))
        ∧ ∀ r s', fetchHydrometers W CONFIG s = (Ok r, s') →
            ∃ out, r = Parsed out ∧ length out = length data
    | Ok (RawText text) =>
        (telemetryParses W →
         ∃ s', fetchHydrometers W CONFIG s = (Ok (RawText text), s'))
        ∧ ∀ r s', fetchHydrometers W CONFIG s = (Ok r, s') → r = RawText text
    | Err e =>
        fetchHydrometers W CONFIG s
        = (Err e, after (ensureToken W s).2 [GetHydrometers])
    end.
Proof.
  split; [intros e s'; apply fetchHydrometers_threw |].
  destruct (hydrometersReply W (requests (ensureToken W s).2))
    as [[data | text] | e] eqn:Hd.
  - split.
    + intros Hparses.
      destruct (fetchHydrometers_returns W CONFIG s data Hd Hparses)
        as (out & s' & Hrun & _).
      by exists out, s'.
    + intros r s' Hrun.
      pose proof (fetchHydrometers_returned W CONFIG _ _ _ Hrun) as Hr.
      destruct r as [out | text].
      * destruct Hr as (data' & Hd' & Hall). rewrite Hd in Hd'. injection Hd' as <-.
        exists out. split; [done |]. symmetry. by eapply Forall2_length.
      * congruence.
  - split.
    + by apply fetchHydrometers_text.
    + intros r s' Hrun.
      pose proof (fetchHydrometers_returned W CONFIG _ _ _ Hrun) as Hr.
      destruct r as [out | text'].
      * destruct Hr as (data' & Hd' & _). congruence.
      * congruence.
  - by apply fetchHydrometers_failed.
Qed.

Lemma request_throws_in_two_ways_only_witness :
  ¬ telemetryParses (garbled [plainPill] "<html>")
  ∧ ∃ s',
      fetchHydrometers (garbled [plainPill] "<html>")
        {| manualOriginalGravity := None |} coldStart
      = (Err "telemetry.map is not a function", s').
Proof.
  assert (Hrun : fetchHydrometers (garbled [plainPill] "<html>")
                   {| manualOriginalGravity := None |} coldStart
                 = (Err "telemetry.map is not a function",
                    (fetchHydrometers (garbled [plainPill] "<html>")
                       {| manualOriginalGravity := None |} coldStart).2)).
  { vm_compute. reflexivity. }
  destruct (proj1 (request_throws_in_two_ways_only _ _ _) _ _ Hrun) as [Hd | [_ Hno]].
  - discriminate Hd.
  - split; [exact Hno |]. eexists. exact Hrun.
Defined.

(** X5. Every device of the output is the listed device at the same
    position, changed at most in its [telemetry]: that is either left as
    listed, or a non-empty array whose samples were all enriched with one
    and the same original gravity. *)
Theorem output_devices_are_listed_devices (W : World) (CONFIG : Config)
    (s s' : State) (out : list (Device (list Sample))) :
  fetchHydrometers W CONFIG s = (Ok (Parsed out), s') →
  ∃ data,
    hydrometersReply W (requests (ensureToken W s).2) = Ok (Parsed data)
    ∧ Forall2 enrichedFrom data out
    ∧ Forall2
        (λ d o, deviceId o = deviceId d ∧ deviceName o = deviceName d
           ∧ activeProfileSession o = activeProfileSession d
           ∧ firmwareVersion o = firmwareVersion d
           ∧ isLatestFirmware o = isLatestFirmware d
           ∧ lastActivityTime o = lastActivityTime d)
        data out.
Proof.
  intros Hrun.
  destruct (fetchHydrometers_returned W CONFIG _ _ _ Hrun) as (data & Hd & Hall).
  exists data. split; [exact Hd |].
  assert (Hfrom : Forall2 enrichedFrom data out).
  { eapply Forall2_impl; [exact Hall |].
    intros d o (s1 & s3 & He). by eapply enrichDevice_enrichedFrom. }
  split; [exact Hfrom |].
  eapply Forall2_impl; [exact Hfrom |].
  intros d o [-> | (og & fetched & _ & ->)]; done.
Qed.

Lemma output_devices_are_listed_devices_witness :
  ∃ s' data,
    fetchHydrometers (scenario [plainPill] (Ok brew) (Ok brew) (Ok []))
      {| manualOriginalGravity := None |} coldStart
    = (Ok (Parsed [setTelemetry plainPill (map (enrich 1063) brew)]), s')
    ∧ Forall2 enrichedFrom data [setTelemetry plainPill (map (enrich 1063) brew)].
Proof.
  eexists.
  assert (Hrun : fetchHydrometers (scenario [plainPill] (Ok brew) (Ok brew) (Ok []))
            {| manualOriginalGravity := None |} coldStart
          = (Ok (Parsed [setTelemetry plainPill (map (enrich 1063) brew)]),
             (fetchHydrometers (scenario [plainPill] (Ok brew) (Ok brew) (Ok []))
                {| manualOriginalGravity := None |} coldStart).2)).
  { vm_compute. reflexivity. }
  destruct (output_devices_are_listed_devices _ _ _ _ _ Hrun) as (data & _ & Hfrom & _).
  exists data. split; [exact Hrun | exact Hfrom].
Defined.

(** X6. The handler always answers, with 200, 405 or 500. OPTIONS gets 200
    with an empty body and every method other than GET gets 405, both
    without any request being made. GET gets 500 with the error message
    when the device-list request failed, and once that call has resolved,
    200 with the devices (or with the text the call resolved to), unless a
    telemetry call is answered with a non-empty body that is not JSON:
    that is the one other way to a 500, whose message is then
    "telemetry.map is not a function". *)
Theorem handler_always_answers (W : World) (CONFIG : Config) (event : Event) (s : State) :
  (∃ reply s',
     handler W CONFIG event s = (Ok reply, s')
     ∧ (statusCode reply = 200 ∨ statusCode reply = 405 ∨ statusCode reply = 500))
  ∧ (httpMethod event = "OPTIONS"%string →
     handler W CONFIG event s = (Ok {| statusCode := 200; body := NoPayload |}, s))
  ∧ (httpMethod event ≠ "OPTIONS"%string → httpMethod event ≠ "GET"%string →
     handler W CONFIG event s
     = (Ok {| statusCode := 405; body := ErrorPayload "Method not allowed" |}, s))
  ∧ (httpMethod event = "GET"%string →
     (∀ reply s',
        handler W CONFIG event s = (Ok reply, s') → statusCode reply = 500 →
        (∃ e, hydrometersReply W (requests (ensureToken W s).2) = Err e
              ∧ body reply = ErrorPayload e)
        ∨ (body reply = ErrorPayload "telemetry.map is not a function"
           ∧ ¬ telemetryParses W))
     ∧ match hydrometersReply W (requests (ensureToken W s).2) with
       | Ok (Parsed data) =>
           telemetryParses W →
           ∃ out s',
             handler W CONFIG event s
             = (Ok {| statusCode := 200; body := DevicesPayload out |}, s')
             ∧ Forall2 enrichedFrom data out
       | Ok (RawText text) =>
           telemetryParses W →
           ∃ s',
             handler W CONFIG event s
             = (Ok {| statusCode := 200; body := TextPayload text |}, s')
       | Err e =>
           handler W CONFIG event s
           = (Ok {| statusCode := 500; body := ErrorPayload e |},
              after (ensureToken W s).2 [GetHydrometers])
       end).
Proof.
  unfold handler. split; [| split; [| split]].
  - destruct (String.eqb (httpMethod event) "OPTIONS"); [by eexists _, _; split; [| left] |].
    destruct (String.eqb (httpMethod event) "GET"); simpl;
      [| by eexists _, _; split; [| right; left]].
    unfold_M. destruct (fetchHydrometers W CONFIG s) as [[r | e] s'].
    + eexists _, _. split; [done |]. by left.
    + eexists _, _. split; [done |]. by right; right.
  - intros ->. reflexivity.
  - intros Ho Hg. apply String.eqb_neq in Ho, Hg. by rewrite Ho, Hg.
  - intros ->. simpl. unfold_M. split.
    + intros reply s'.
      destruct (fetchHydrometers W CONFIG s) as [[r | e] s1] eqn:Hrun.
      * intros [= <- _]. discriminate.
      * intros [= <- _] _. simpl.
        destruct (fetchHydrometers_threw W CONFIG _ _ _ Hrun) as [Hd | [-> Hno]].
        -- left. by exists e.
        -- by right.
    + destruct (hydrometersReply W (requests (ensureToken W s).2))
        as [[data | text] | e] eqn:Hd.
      * intros Hparses.
        destruct (fetchHydrometers_returns W CONFIG s data Hd Hparses)
          as (out & s' & Hrun & Hall).
        exists out, s'. rewrite Hrun. split; [done |].
        eapply Forall2_impl; [exact Hall |].
        intros d o (s1 & s3 & He). by eapply enrichDevice_enrichedFrom.
      * intros Hparses.
        destruct (fetchHydrometers_text W CONFIG s text Hd Hparses) as [s' Hrun].
        exists s'. by rewrite Hrun.
      * by rewrite (fetchHydrometers_failed W CONFIG s e Hd).
Qed.

Lemma handler_always_answers_witness :
  handler (scenario [plainPill] (Ok brew) (Ok brew) (Ok []))
    {| manualOriginalGravity := None |} {| httpMethod := "DELETE" |} coldStart
  = (Ok {| statusCode := 405; body := ErrorPayload "Method not allowed" |}, coldStart).
Proof.
  apply (proj1 (proj2 (proj2 (handler_always_answers
    (scenario [plainPill] (Ok brew) (Ok brew) (Ok []))
    {| manualOriginalGravity := None |} {| httpMethod := "DELETE" |} coldStart))));
    discriminate.
Defined.

(* ===================================================================== *)
(** ** More on the resolver and the derived ABV *)
(* ===================================================================== *)

Lemma not_falsy og : ¬ falsy og → ∃ q, og = Some q ∧ ¬ (q == 0)%Q.
Proof.
  intros Hn. destruct og as [q |].
  - exists q. split; [done |]. intros Hq. apply Hn. right. eauto.
  - exfalso. apply Hn. by left.
Qed.

Lemma falsy_dec og : falsy og ∨ ¬ falsy og.
Proof.
  rewrite falsy_truthyNum. destruct (truthyNum og); [right | left]; congruence.
Qed.

(** X7. Choosing the original gravity throws in one situation only: no
    usable session value, no usable manual value, and not a single
    sample. This is what the [telemetry.length > 0] guard of the loop
    rules out. *)
Theorem resolver_throws_only_without_samples (W : World) (CONFIG : Config)
    (device : Device (list Sample)) (telemetry : list Sample)
    (s s1 : State) (session : option Session) :
  lookupSession W device s = (Ok session, s1) →
  (∃ e, resolveOG W CONFIG device telemetry s = (Err e, s1))
  ↔ telemetry = [] ∧ falsy (sessionOG session)
    ∧ falsy (manualOriginalGravity CONFIG).
Proof.
  intros Hl. rewrite (resolveOG_lookup W CONFIG _ _ _ _ _ Hl). split.
  - intros [e He].
    destruct (falsy_dec (sessionOG session)) as [Hs | Hs].
    + rewrite pickOG_session_falsy in He by done.
      destruct (falsy_dec (manualOriginalGravity CONFIG)) as [Hm | Hm].
      * rewrite pickOG_fallback in He by done.
        destruct telemetry as [| t telemetry]; [done |].
        destruct (firstLeast_is_Some createdOn (t :: telemetry)) as [first Hf];
          [done |].
        rewrite Hf in He. discriminate.
      * destruct (not_falsy _ Hm) as (m & Hmv & Hz).
        rewrite (pickOG_manual CONFIG _ _ m Hmv Hz) in He. discriminate.
    + destruct (not_falsy _ Hs) as (g & Hg & Hz).
      rewrite (pickOG_session CONFIG _ _ _ g Hg Hz) in He. discriminate.
  - intros (-> & Hs & Hm).
    rewrite pickOG_session_falsy, pickOG_fallback by done. simpl. eauto.
Qed.

Lemma resolver_throws_only_without_samples_witness :
  ∃ e, resolveOG (scenario [plainPill] (Ok []) (Ok []) (Ok []))
         {| manualOriginalGravity := Some 0%Q |} plainPill [] coldStart
       = (Err e, coldStart).
Proof.
  apply (resolver_throws_only_without_samples
           (scenario [plainPill] (Ok []) (Ok []) (Ok []))
           {| manualOriginalGravity := Some 0%Q |} plainPill [] coldStart coldStart None
           eq_refl).
  split; [reflexivity |]. split; [by left |].
  right. exists 0%Q. split; reflexivity.
Defined.

Lemma toFixed2_zero_iff x :
  (0 <= x)%Q → (toFixed2 x == 0 ↔ x < 1 # 200)%Q.
Proof.
  intros Hx. unfold toFixed2.
  assert (num_lt x 0 = false) as -> by (apply num_lt_false; exact Hx).
  set (n := Qfloor (x * 100 + (1 # 2))).
  assert (Hlo : (inject_Z n <= x * 100 + (1 # 2))%Q) by apply Qfloor_le.
  assert (Hhi : (x * 100 + (1 # 2) < inject_Z (n + 1))%Q) by apply Qlt_floor.
  rewrite inject_Z_plus in Hhi. change (inject_Z 1) with 1%Q in Hhi.
  assert (Hn : (0 <= n)%Z).
  { change 0%Z with (Qfloor 0). apply Qfloor_resp_le. lra. }
  clearbody n. rewrite hundredths. split.
  - intros Hz. assert (inject_Z n == 0)%Q as Hn0 by lra.
    rewrite Hn0 in Hhi. lra.
  - intros Hsmall. assert (n < 1)%Z as Hlt.
    { rewrite Zlt_Qlt. change (inject_Z 1) with 1%Q. lra. }
    assert (n = 0)%Z as -> by lia. reflexivity.
Qed.

Lemma toFixed2_monotone x y :
  (0 <= x)%Q → (x <= y)%Q → (toFixed2 x <= toFixed2 y)%Q.
Proof.
  intros Hx Hxy. unfold toFixed2.
  assert (num_lt x 0 = false) as -> by (apply num_lt_false; exact Hx).
  assert (num_lt y 0 = false) as -> by (apply num_lt_false; lra).
  assert (Hfl : (Qfloor (x * 100 + (1 # 2)) <= Qfloor (y * 100 + (1 # 2)))%Z).
  { apply Qfloor_resp_le. lra. }
  rewrite (hundredths (Qfloor (x * 100 + (1 # 2)))).
  rewrite (hundredths (Qfloor (y * 100 + (1 # 2)))).
  rewrite Zle_Qle in Hfl. lra.
Qed.

Lemma Math_max_monotone x y : (x <= y)%Q → (Math_max 0 x <= Math_max 0 y)%Q.
Proof.
  intros Hxy. rewrite !Math_max_Qmax. apply Q.max_le_compat_l, Hxy.
Qed.

(** X8. A sample whose gravity is at or above the original gravity is
    stored with an ABV of 0. In general the stored ABV is 0 exactly when
    the binary64 product is below 0.005; in terms of the exact product,
    that is the case whenever it is below 0.005 by more than the rounding
    error, and the stored ABV is at least 0.01 whenever it reaches 0.005
    by more than the rounding error. *)
Theorem abv_is_zero_near_and_above_og (og : Q) (t : Sample) :
  ∃ v, abv (enrich og t) = Some v
    ∧ ((og <= gravity t)%Q → v = (0 # 100)%Q)
    ∧ ((v == 0)%Q ↔ (abvProduct og (gravity t) < 1 # 200)%Q)
    ∧ ((exactProduct og (gravity t) < (1 # 200) - tolerance og (gravity t))%Q →
       (v == 0)%Q)
    ∧ (((1 # 200) + tolerance og (gravity t) <= exactProduct og (gravity t))%Q →
       (1 # 100 <= v)%Q).
Proof.
  eexists. split; [apply enrich_abv |].
  set (raw := abvProduct og (gravity t)).
  pose proof (abvProduct_error og (gravity t)) as Herr. fold raw in Herr.
  apply Qabs_Qle_condition in Herr.
  assert (Hzero : (toFixed2 (Math_max 0 raw) == 0 ↔ raw < 1 # 200)%Q).
  { rewrite (toFixed2_zero_iff _ (Math_max_nonneg raw)).
    unfold Math_max. destruct (num_lt 0 raw) eqn:E.
    - done.
    - apply num_lt_false in E. split; intros; lra. }
  split; [| split; [exact Hzero | split]].
  - intros Hle. pose proof (abvProduct_nonpos og (gravity t) Hle) as Hraw.
    fold raw in Hraw. unfold Math_max.
    assert (num_lt 0 raw = false) as -> by (by apply num_lt_false).
    reflexivity.
  - intros Hlow. apply Hzero. lra.
  - intros Hhigh.
    assert (Hpos : (1 # 200 <= Math_max 0 raw)%Q).
    { rewrite Math_max_Qmax. apply Q.max_le_iff. right. lra. }
    pose proof (toFixed2_monotone (1 # 200) (Math_max 0 raw) ltac:(lra) Hpos) as Hm.
    exact Hm.
Qed.

(** X9. The stored ABV never decreases when the gravity reading goes
    down or the original gravity goes up: of two samples, one with an
    original gravity at least as high and a reading at most as high has
    the larger or equal ABV. *)
Theorem abv_grows_with_the_drop (og og' : Q) (t t' : Sample) (v v' : Q) :
  (og <= og')%Q →
  (gravity t' <= gravity t)%Q →
  abv (enrich og t) = Some v →
  abv (enrich og' t') = Some v' →
  (v <= v')%Q.
Proof.
  intros Hog Hg. rewrite !enrich_abv. intros [= <-] [= <-].
  apply toFixed2_monotone; [apply Math_max_nonneg |].
  by apply Math_max_monotone, abvProduct_monotone.
Qed.

Lemma abv_grows_with_the_drop_witness :
  (1063 <= 1063)%Q
  ∧ (gravity (reading 1 1010) <= gravity (reading 0 1030))%Q
  ∧ (433 # 100 <= 696 # 100)%Q.
Proof.
  assert (Hog : (1063 <= 1063)%Q) by discriminate.
  assert (Hg : (gravity (reading 1 1010) <= gravity (reading 0 1030))%Q)
    by discriminate.
  split; [exact Hog |]. split; [exact Hg |].
  apply (abv_grows_with_the_drop 1063 1063 (reading 0 1030) (reading 1 1010)
           (433 # 100) (696 # 100) Hog Hg); vm_compute; reflexivity.
Defined.

(** X10. Enriching a sample that is already enriched replaces its [abv]
    by the one of the new original gravity, nothing accumulates; and
    enriching touches no property other than [abv]: the five readings and
    every other property stay as they were. *)
Theorem enrich_overwrites_abv_only (og og' : Q) (t : Sample) :
  enrich og' (enrich og t) = enrich og' t
  ∧ createdOn (enrich og t) = createdOn t
  ∧ gravity (enrich og t) = gravity t
  ∧ temperature (enrich og t) = temperature t
  ∧ battery (enrich og t) = battery t
  ∧ rssi (enrich og t) = rssi t
  ∧ ∀ k, k ≠ "abv"%string → others (enrich og t) !! k = others t !! k.
Proof.
  split.
  - unfold enrich. simpl. f_equal. apply insert_insert_eq.
  - repeat split. intros k Hk. by apply enrich_others.
Qed.

(** X11. When neither a session value nor a manual value is usable, the
    loop takes the gravity of an earliest sample as original gravity, so
    that very sample comes out with an ABV of 0.00. *)
Theorem fallback_baseline_sample_has_zero_abv (W : World) (CONFIG : Config)
    (device : Device (list Sample)) (fetched : list Sample)
    (s s1 s2 : State) (session : option Session) :
  fetchTelemetry W (deviceId device) s = (Ok (Parsed fetched), s1) →
  fetched ≠ [] →
  lookupSession W device s1 = (Ok session, s2) →
  falsy (sessionOG session) →
  falsy (manualOriginalGravity CONFIG) →
  ∃ first,
    first ∈ fetched
    ∧ (∀ t, t ∈ fetched → createdOn first ≤ createdOn t)
    ∧ enrichDevice W CONFIG device s
      = (Ok (setTelemetry device (map (enrich (gravity first)) fetched)), s2)
    ∧ enrich (gravity first) first ∈ map (enrich (gravity first)) fetched
    ∧ abv (enrich (gravity first) first) = Some (0 # 100)%Q.
Proof.
  intros Hf Hne Hl Hs Hm.
  destruct (firstLeast_is_Some createdOn fetched Hne) as [first Hfirst].
  destruct (firstLeast_least createdOn fetched first Hfirst) as [Hin Hmin].
  exists first. split; [exact Hin |]. split; [exact Hmin |].
  destruct (enrichDevice_nonempty W CONFIG device s fetched s1 Hf Hne)
    as (og & s3 & Hog & He).
  rewrite (resolveOG_lookup W CONFIG _ _ _ _ _ Hl) in Hog.
  rewrite pickOG_session_falsy, pickOG_fallback, Hfirst in Hog by done.
  injection Hog as <- <-.
  split; [exact He |]. split.
  - apply list_elem_of_fmap. by exists first.
  - rewrite enrich_abv. f_equal.
    pose proof (abvProduct_nonpos (gravity first) (gravity first) (Qle_refl _)) as Hz.
    unfold Math_max.
    assert (num_lt 0 (abvProduct (gravity first) (gravity first)) = false) as ->.
    { by apply num_lt_false. }
    reflexivity.
Qed.

Lemma fallback_baseline_sample_has_zero_abv_witness :
  ∃ first,
    first ∈ brew
    ∧ (∀ t, t ∈ brew → createdOn first ≤ createdOn t)
    ∧ enrichDevice (scenario [plainPill] (Ok brew) (Ok brew) (Ok []))
        {| manualOriginalGravity := None |} plainPill coldStart
      = (Ok (setTelemetry plainPill (map (enrich (gravity first)) brew)),
         {| accessToken := Some "token"%string;
            tokenExpiry := Some 1700003600000;
            requests := [PostToken;
                         GetTelemetryWindow "pill-1" 1699913600000 1700000000000] |})
    ∧ enrich (gravity first) first ∈ map (enrich (gravity first)) brew
    ∧ abv (enrich (gravity first) first) = Some (0 # 100)%Q.
Proof.
  apply (fallback_baseline_sample_has_zero_abv
           (scenario [plainPill] (Ok brew) (Ok brew) (Ok []))
           {| manualOriginalGravity := None |} plainPill brew coldStart
           {| accessToken := Some "token"%string;
              tokenExpiry := Some 1700003600000;
              requests := [PostToken;
                           GetTelemetryWindow "pill-1" 1699913600000 1700000000000] |}
           _ None).
  - vm_compute. reflexivity.
  - discriminate.
  - reflexivity.
  - by left.
  - by left.
Defined.

(* ===================================================================== *)
(** ** More on the temperature display *)
(* ===================================================================== *)

(** X12. Whatever the four thresholds are, ordered or not, the card of a
    reading and its point on the chart show the same severity, and the
    card is never left without one. *)
Theorem card_and_chart_always_agree (p : Page) (d : Sample) :
  ∃ sev, shows p d sev.
Proof.
  unfold shows, tempClass, tempColor.
  destruct (coldCrashMode p), (monochromeMode p), (darkMode p);
    decide_comparisons; simpl;
    first [by exists Danger | by exists Warning | by exists Good | exfalso; lra].
Qed.

(** X13. A card carries a temperature alert exactly when it is rendered as
    Danger; a card without a latest reading has neither. When a reading is
    above [tempDangerMax] the alert is the high-temperature one, also if
    the reading is below [tempDangerMin] as well. *)
Theorem alert_exactly_on_danger (device : Device loc) (p : Page) :
  let card := (displayDevice device p).1 in
  (cardWarning card ≠ NoTempWarning ↔ cardClass card = "info-card temp-danger"%string)
  ∧ (latestData card = None →
     cardWarning card = NoTempWarning ∧ cardClass card = "info-card"%string)
  ∧ ∀ d, latestData card = Some d →
      (tempDangerMax (tempConfig p) < temperature d)%Q →
      cardWarning card
      = HighTemperatureWarning (temperature d) (tempDangerMax (tempConfig p)).
Proof.
  unfold displayDevice.
  assert (Hcfg : tempConfig (selectLatest device p).2 = tempConfig p
               ∧ coldCrashMode (selectLatest device p).2 = coldCrashMode p).
  { unfold selectLatest. destruct (telemetry device); [| done].
    by destruct (0 <? _). }
  destruct Hcfg as [Hcfg Hcc].
  destruct (selectLatest device p) as [latest p1]. simpl in *. rewrite Hcfg, Hcc.
  clear Hcfg Hcc p1. split; [| split].
  - destruct latest as [d |]; simpl; [| done].
    unfold num_gt. destruct (coldCrashMode p); decide_comparisons; simpl;
      split; (done || discriminate || (exfalso; lra)).
  - by intros ->.
  - intros d -> Hhigh. simpl.
    assert (num_gt (temperature d) (tempDangerMax (tempConfig p)) = true) as ->
      by (by apply num_gt_true).
    reflexivity.
Qed.

(** X14. Cold-crash mode acts on the low side only. A reading at or above
    [tempDangerMin] is rendered the same with the mode on and off. A
    reading below [tempDangerMin] loses its alert and its Danger rendering
    when the mode is on (it is shown Good when it is not above
    [tempWarningMax]), unless it is also above [tempDangerMax], as can
    happen with thresholds saved in the wrong order: then the card stays
    Danger with the high-temperature alert. *)
Theorem cold_crash_acts_on_the_low_side_only (p : Page) (d : Sample) :
  let cfg := tempConfig p in
  let on := setColdCrashMode p true in
  let off := setColdCrashMode p false in
  ((tempDangerMin cfg <= temperature d)%Q →
   tempClass cfg true (Some d) = tempClass cfg false (Some d)
   ∧ tempWarning cfg true (Some d) = tempWarning cfg false (Some d)
   ∧ tempColor on d = tempColor off d)
  ∧ ((temperature d < tempDangerMin cfg)%Q →
     (temperature d <= tempDangerMax cfg)%Q →
     tempWarning cfg true (Some d) = NoTempWarning
     ∧ ¬ shows on d Danger
     ∧ ((temperature d <= tempWarningMax cfg)%Q → shows on d Good)
     ∧ shows off d Danger
     ∧ tempWarning cfg false (Some d)
       = LowTemperatureWarning (temperature d) (tempDangerMin cfg))
  ∧ ((temperature d < tempDangerMin cfg)%Q →
     (tempDangerMax cfg < temperature d)%Q →
     shows on d Danger
     ∧ tempWarning cfg true (Some d)
       = HighTemperatureWarning (temperature d) (tempDangerMax cfg)).
Proof.
  intros cfg on off.
  unfold shows, tempClass, tempWarning, tempColor, on, off, cfg, setColdCrashMode.
  simpl. split; [| split]; intros;
    destruct (monochromeMode p), (darkMode p); decide_comparisons; simpl;
    first [exfalso; lra
          | repeat split; first [done | intros [? ?]; discriminate
                                | intros; exfalso; lra]].
Qed.

Lemma cold_crash_acts_on_the_low_side_only_witness :
  (temperature (thermo 15)
   < tempDangerMin {| tempDangerMin := 30; tempWarningMin := 20;
                      tempWarningMax := 26; tempDangerMax := 10 |})%Q
  ∧ tempWarning {| tempDangerMin := 30; tempWarningMin := 20;
                   tempWarningMax := 26; tempDangerMax := 10 |} true (Some (thermo 15))
    = HighTemperatureWarning 15 10.
Proof.
  split; [reflexivity |].
  refine (proj2 (proj2 (proj2 (cold_crash_acts_on_the_low_side_only
    (pageWith {| tempDangerMin := 30; tempWarningMin := 20;
                 tempWarningMax := 26; tempDangerMax := 10 |} true false false)
    (thermo 15))) _ _)); reflexivity.
Defined.

Lemma orElse_nonzero x d : ¬ (d == 0)%Q → ¬ (orElse x d == 0)%Q.
Proof.
  intros Hd. unfold orElse. destruct x as [q |]; [| done].
  destruct (truthy q) eqn:E; [| done]. by apply truthy_true.
Qed.

(** X15. [saveSettings] never stores a zero threshold: each field of the
    new configuration is the number entered when that is a non-zero
    number and the default (18, 20, 26, 28) when the entry is 0 or not a
    number. The order of the four is not checked, so every combination of
    non-zero thresholds can be saved; the arrays and the modes are left
    alone. *)
Theorem saveSettings_replaces_zero_by_default (form : SettingsForm) (p : Page) :
  let cfg := tempConfig (saveSettings form p) in
  (¬ (tempDangerMin cfg == 0)%Q ∧ ¬ (tempWarningMin cfg == 0)%Q
   ∧ ¬ (tempWarningMax cfg == 0)%Q ∧ ¬ (tempDangerMax cfg == 0)%Q)
  ∧ (falsy (enteredDangerMin form) → tempDangerMin cfg = 18%Q)
  ∧ (falsy (enteredWarningMin form) → tempWarningMin cfg = 20%Q)
  ∧ (falsy (enteredWarningMax form) → tempWarningMax cfg = 26%Q)
  ∧ (falsy (enteredDangerMax form) → tempDangerMax cfg = 28%Q)
  ∧ (∀ wanted,
       ¬ (tempDangerMin wanted == 0)%Q → ¬ (tempWarningMin wanted == 0)%Q →
       ¬ (tempWarningMax wanted == 0)%Q → ¬ (tempDangerMax wanted == 0)%Q →
       tempConfig
         (saveSettings
            {| enteredDangerMin := Some (tempDangerMin wanted);
               enteredWarningMin := Some (tempWarningMin wanted);
               enteredWarningMax := Some (tempWarningMax wanted);
               enteredDangerMax := Some (tempDangerMax wanted) |} p)
       = wanted)
  ∧ arrays (saveSettings form p) = arrays p
  ∧ coldCrashMode (saveSettings form p) = coldCrashMode p.
Proof.
  simpl. split; [| split; [| split; [| split; [| split; [| split]]]]].
  - repeat split; apply orElse_nonzero; discriminate.
  - intros H%falsy_truthyNum. unfold orElse.
    destruct (enteredDangerMin form); [| done]. simpl in H. by rewrite H.
  - intros H%falsy_truthyNum. unfold orElse.
    destruct (enteredWarningMin form); [| done]. simpl in H. by rewrite H.
  - intros H%falsy_truthyNum. unfold orElse.
    destruct (enteredWarningMax form); [| done]. simpl in H. by rewrite H.
  - intros H%falsy_truthyNum. unfold orElse.
    destruct (enteredDangerMax form); [| done]. simpl in H. by rewrite H.
  - intros [a b c e] Ha Hb Hc He. simpl in *.
    apply truthy_true in Ha, Hb, Hc, He.
    unfold newConfig, orElse. simpl. by rewrite Ha, Hb, Hc, He.
  - done.
Qed.

(** X16. The second variant of the page, run with the default thresholds
    and cold-crash mode off, classifies every reading as the first variant
    does: same card class, same point colour in every theme, and the same
    high-temperature alert. The low-temperature alert is the one thing it
    adds. *)
Theorem second_variant_extends_first (dark mono : bool) (latest : option Sample)
    (d : Sample) :
  tempClass defaultTempConfig false latest = tempClassV1 latest
  ∧ tempColor (pageWith defaultTempConfig false dark mono) d = tempColorV1 mono dark d
  ∧ (tempWarningV1 latest ≠ NoTempWarning →
     tempWarning defaultTempConfig false latest = tempWarningV1 latest)
  ∧ (tempWarningV1 latest = NoTempWarning →
     tempWarning defaultTempConfig false latest = NoTempWarning
     ∨ ∃ t, latest = Some t ∧ (temperature t < 18)%Q
          ∧ tempWarning defaultTempConfig false latest
            = LowTemperatureWarning (temperature t) 18).
Proof.
  split; [| split; [| split]].
  - destruct latest as [t |]; [| done].
    unfold tempClass, tempClassV1. simpl.
    decide_comparisons; simpl; first [done | exfalso; lra].
  - unfold tempColor, tempColorV1. simpl.
    destruct mono, dark; decide_comparisons; simpl; first [done | exfalso; lra].
  - destruct latest as [t |]; [| done].
    unfold tempWarning, tempWarningV1. simpl. unfold num_gt.
    decide_comparisons; simpl; done.
  - destruct latest as [t |]; [| by left].
    unfold tempWarning, tempWarningV1. simpl. unfold num_gt.
    decide_comparisons; simpl; intros; first [by left | discriminate | right; eauto].
Qed.

(* ===================================================================== *)
(** ** The colours of the attenuation line *)
(* ===================================================================== *)

Lemma Qfloor_between x (a b : Z) :
  (inject_Z a <= x)%Q → (x <= inject_Z b)%Q → a ≤ Math_floor x ≤ b.
Proof.
  intros Ha Hb. unfold Math_floor. split.
  - rewrite <- (Qfloor_Z a). by apply Qfloor_resp_le.
  - rewrite <- (Qfloor_Z b). by apply Qfloor_resp_le.
Qed.

Lemma Math_min_bounds a : (0 <= a)%Q → (0 <= Math_min a 1 <= 1)%Q.
Proof.
  intros Ha. unfold Math_min. destruct (num_lt 1 a) eqn:E.
  - split; discriminate.
  - apply num_lt_false in E. by split.
Qed.

Lemma Math_min_capped a : (1 <= a)%Q → (Math_min a 1 == 1)%Q.
Proof.
  intros Ha. unfold Math_min. destruct (num_lt 1 a) eqn:E; [reflexivity |].
  apply num_lt_false in E. lra.
Qed.

(** The operators keep the order of their operands. *)
Lemma js_div_monotone x x' y :
  (0 < round64 y)%Q → (x <= x')%Q → (js_div x y <= js_div x' y)%Q.
Proof.
  intros Hy Hx. unfold js_div. apply round64_monotone.
  apply Qmult_le_compat_r; [by apply round64_monotone |].
  apply Qlt_le_weak, Qinv_lt_0_compat, Hy.
Qed.

Lemma js_mul_monotone x y y' :
  (0 <= round64 x)%Q → (y <= y')%Q → (js_mul x y <= js_mul x y')%Q.
Proof.
  intros Hx Hy. unfold js_mul. apply round64_monotone.
  rewrite !(Qmult_comm (round64 x)).
  apply Qmult_le_compat_r; [by apply round64_monotone | exact Hx].
Qed.

Lemma js_sub_monotone x y y' : (y' <= y)%Q → (js_sub x y <= js_sub x y')%Q.
Proof.
  intros Hy. unfold js_sub. apply round64_monotone.
  apply Qplus_le_compat; [apply Qle_refl |].
  by apply Qopp_le_compat, round64_monotone.
Qed.

Lemma js_add_monotone x y y' : (y <= y')%Q → (js_add x y <= js_add x y')%Q.
Proof.
  intros Hy. unfold js_add. apply round64_monotone.
  apply Qplus_le_compat; [apply Qle_refl |]. by apply round64_monotone.
Qed.

(** An expression that grows with [progress] stays between its values at
    0 and at 1, and one that falls likewise. *)
Lemma rising_channel (f : Q → Q) (lo hi : Z) progress :
  (∀ x y, (x <= y)%Q → (f x <= f y)%Q) →
  (f 0 == inject_Z lo)%Q → (f 1 == inject_Z hi)%Q →
  (0 <= progress <= 1)%Q →
  lo ≤ Math_floor (f progress) ≤ hi
  ∧ ((1 <= progress)%Q → Math_floor (f progress) = hi).
Proof.
  intros Hf H0 H1 [Hlo Hhi].
  pose proof (Hf _ _ Hlo) as Ha. pose proof (Hf _ _ Hhi) as Hb.
  rewrite H0 in Ha. rewrite H1 in Hb. split.
  - by apply Qfloor_between.
  - intros Hfull. pose proof (Hf _ _ Hfull) as Hc. rewrite H1 in Hc.
    pose proof (Qfloor_between (f progress) hi hi Hc Hb). lia.
Qed.

Lemma falling_channel (f : Q → Q) (lo hi : Z) progress :
  (∀ x y, (x <= y)%Q → (f y <= f x)%Q) →
  (f 0 == inject_Z hi)%Q → (f 1 == inject_Z lo)%Q →
  (0 <= progress <= 1)%Q →
  lo ≤ Math_floor (f progress) ≤ hi
  ∧ ((1 <= progress)%Q → Math_floor (f progress) = lo).
Proof.
  intros Hf H0 H1 [Hlo Hhi].
  pose proof (Hf _ _ Hlo) as Ha. pose proof (Hf _ _ Hhi) as Hb.
  rewrite H0 in Ha. rewrite H1 in Hb. split.
  - by apply Qfloor_between.
  - intros Hfull. pose proof (Hf _ _ Hfull) as Hc. rewrite H1 in Hc.
    pose proof (Qfloor_between (f progress) lo lo Hb Hc). lia.
Qed.

(** X17. For a sample whose attenuation is missing or not negative, the
    coloured theme paints the attenuation point between pink (236, 72,
    153) and purple (167, 139, 250), every channel a valid byte, and
    exactly purple from 100 percent on. In the monochrome themes an
    attenuation between 0 and 100 gives a grey between 112 and 212 (dark)
    or between 64 and 164 (light). *)
Theorem attenuation_colour_stays_in_range (p : Page) (d : Sample) :
  let att := orElse (attenuation d) 0 in
  let c := attenuationColor p d in
  (0 <= att)%Q →
  (monochromeMode p = false →
   (167 ≤ red c ≤ 236 ∧ 72 ≤ green c ≤ 139 ∧ 153 ≤ blue c ≤ 250)
   ∧ ((100 <= att)%Q → c = {| red := 167; green := 139; blue := 250 |}))
  ∧ (monochromeMode p = true → (att <= 100)%Q →
     red c = green c ∧ green c = blue c
     ∧ if darkMode p then 112 ≤ red c ≤ 212 else 64 ≤ red c ≤ 164).
Proof.
  intros att c Hatt. unfold c, attenuationColor. fold att.
  assert (H100 : (0 < round64 100)%Q) by (vm_compute; reflexivity).
  assert (Hdiv0 : (js_div 0 100 == 0)%Q) by (vm_compute; reflexivity).
  assert (Hdiv1 : (js_div 100 100 == 1)%Q) by (vm_compute; reflexivity).
  pose proof (js_div_monotone 0 att 100 H100 Hatt) as Hd. rewrite Hdiv0 in Hd.
  split.
  - intros ->. pose proof (Math_min_bounds (js_div att 100) Hd) as Hp.
    assert (Hfull : (100 <= att)%Q → (1 <= Math_min (js_div att 100) 1)%Q).
    { intros H. pose proof (js_div_monotone 100 att 100 H100 H) as H1.
      rewrite Hdiv1 in H1. rewrite (Math_min_capped _ H1). apply Qle_refl. }
    set (progress := Math_min (js_div att 100) 1) in *. clearbody progress.
    cbn [red green blue].
    destruct (falling_channel
                (λ x, js_sub 236 (js_mul (js_sub 236 167) x)) 167 236 progress)
      as [Hred Hred1]; [| vm_compute; reflexivity | vm_compute; reflexivity | exact Hp |].
    { intros x y Hxy. apply js_sub_monotone, js_mul_monotone; [| exact Hxy].
      vm_compute. discriminate. }
    destruct (rising_channel
                (λ x, js_add 72 (js_mul (js_sub 139 72) x)) 72 139 progress)
      as [Hgreen Hgreen1]; [| vm_compute; reflexivity | vm_compute; reflexivity | exact Hp |].
    { intros x y Hxy. apply js_add_monotone, js_mul_monotone; [| exact Hxy].
      vm_compute. discriminate. }
    destruct (rising_channel
                (λ x, js_add 153 (js_mul (js_sub 250 153) x)) 153 250 progress)
      as [Hblue Hblue1]; [| vm_compute; reflexivity | vm_compute; reflexivity | exact Hp |].
    { intros x y Hxy. apply js_add_monotone, js_mul_monotone; [| exact Hxy].
      vm_compute. discriminate. }
    cbn beta in *. split; [exact (conj Hred (conj Hgreen Hblue)) |].
    intros H. specialize (Hfull H).
    rewrite (Hred1 Hfull), (Hgreen1 Hfull), (Hblue1 Hfull). reflexivity.
  - intros -> Hle. cbn [red green blue].
    split; [reflexivity |]. split; [reflexivity |].
    pose proof (js_div_monotone att 100 100 H100 Hle) as Hd1. rewrite Hdiv1 in Hd1.
    destruct (darkMode p); cbn [red green blue].
    + destruct (falling_channel (λ x, js_sub 212 (js_mul x 100)) 112 212
                  (js_div att 100)) as [H _];
        [| vm_compute; reflexivity | vm_compute; reflexivity | by split | exact H].
      intros x y Hxy. apply js_sub_monotone. unfold js_mul.
      apply round64_monotone, Qmult_le_compat_r; [by apply round64_monotone |].
      vm_compute. discriminate.
    + destruct (rising_channel (λ x, js_add 64 (js_mul x 100)) 64 164
                  (js_div att 100)) as [H _];
        [| vm_compute; reflexivity | vm_compute; reflexivity | by split | exact H].
      intros x y Hxy. apply js_add_monotone. unfold js_mul.
      apply round64_monotone, Qmult_le_compat_r; [by apply round64_monotone |].
      vm_compute. discriminate.
Qed.

Lemma attenuation_colour_stays_in_range_witness :
  (0 <= orElse (attenuation (reading 0 1010)) 0)%Q
  ∧ attenuationColor (pageWith defaultTempConfig false false false) (reading 0 1010)
    = {| red := 236; green := 72; blue := 153 |}
  ∧ 167 ≤ red (attenuationColor (pageWith defaultTempConfig false false false)
                 (reading 0 1010)) ≤ 236.
Proof.
  assert (H0 : (0 <= orElse (attenuation (reading 0 1010)) 0)%Q) by discriminate.
  split; [exact H0 |]. split; [vm_compute; reflexivity |].
  exact (proj1 (proj1 (proj1 (attenuation_colour_stays_in_range
    (pageWith defaultTempConfig false false false) (reading 0 1010) H0) eq_refl))).
Defined.

(* ===================================================================== *)
(** ** Stable sorting, filtering and the chart *)
(* ===================================================================== *)

Section StableSort.

Context {A : Type}.
Variable key : A → Z.
Variable cmp : A → A → Z.
Hypothesis cmp_key : ∀ a b, cmp a b = key a - key b.

Lemma sortInsert_at_front x l :
  Forall (keyLe key x) l → sortInsert cmp x l = x :: l.
Proof.
  intros Hall. destruct l as [| y l]; [done |]. simpl.
  apply Forall_cons in Hall as [Hxy _]. unfold keyLe in Hxy.
  destruct (Z.gtb_spec (cmp x y) 0) as [Hgt | Hle]; [| done].
  rewrite cmp_key in Hgt. lia.
Qed.

Lemma Forall_filter_bool (P : A → Prop) (f : A → bool) l :
  Forall P l → Forall P (List.filter f l).
Proof.
  induction 1 as [| x l Hx Hl IH]; simpl; [constructor |].
  destruct (f x); [by constructor | done].
Qed.

Lemma filter_sortInsert (f : A → bool) x l :
  StronglySorted (keyLe key) l →
  List.filter f (sortInsert cmp x l)
  = if f x then sortInsert cmp x (List.filter f l) else List.filter f l.
Proof.
  induction 1 as [| y l Hl IH Hy]; simpl.
  - by destruct (f x).
  - destruct (Z.gtb_spec (cmp x y) 0) as [Hgt | Hle]; simpl.
    + rewrite IH. destruct (f x), (f y); simpl; try done.
      destruct (Z.gtb_spec (cmp x y) 0); [done | lia].
    + destruct (f x); [| done]. f_equal. symmetry.
      apply sortInsert_at_front.
      assert (Hxy : key x ≤ key y) by (rewrite cmp_key in Hle; lia).
      assert (Hrest : Forall (keyLe key x) l).
      { eapply Forall_impl; [exact Hy |]. unfold keyLe. intros; lia. }
      destruct (f y); [constructor; [exact Hxy |] |]; by apply Forall_filter_bool.
Qed.

(** Filtering commutes with the stable sort. *)
Lemma filter_sortBy (f : A → bool) l :
  List.filter f (sortBy cmp l) = sortBy cmp (List.filter f l).
Proof.
  induction l as [| x l IH]; simpl; [done |].
  rewrite filter_sortInsert by (by apply sortBy_sorted).
  rewrite IH. by destruct (f x).
Qed.

Lemma sortBy_same_key k l : Forall (λ x, key x = k) l → sortBy cmp l = l.
Proof.
  intros Hall. apply (sortBy_of_sorted key cmp cmp_key).
  induction Hall as [| x l Hx Hl IH]; constructor; [exact IH |].
  destruct Hl as [| y l Hy _]; constructor. unfold keyLe. lia.
Qed.

(** Stability: the samples of one key come out in their input order. *)
Lemma sortBy_ties k l :
  List.filter (λ x, key x =? k) (sortBy cmp l) = List.filter (λ x, key x =? k) l.
Proof.
  rewrite filter_sortBy. apply (sortBy_same_key k).
  apply Forall_forall. intros x Hx%list_elem_of_In%filter_In.
  destruct Hx as [_ Hk]. by apply Z.eqb_eq.
Qed.

(** Two sorted lists with the same samples per key, in the same order,
    are the same list. *)
Lemma sorted_ties_unique l1 l2 :
  StronglySorted (keyLe key) l1 → StronglySorted (keyLe key) l2 →
  (∀ k, List.filter (λ x, key x =? k) l1 = List.filter (λ x, key x =? k) l2) →
  l1 = l2.
Proof.
  intros H1. revert l2. induction H1 as [| x l1 Hl1 IH Hx]; intros l2 H2 Hties.
  - destruct l2 as [| y l2]; [done |].
    specialize (Hties (key y)). simpl in Hties. rewrite Z.eqb_refl in Hties.
    discriminate.
  - destruct H2 as [| y l2 Hl2 Hy].
    { specialize (Hties (key x)). simpl in Hties. rewrite Z.eqb_refl in Hties.
      discriminate. }
    assert (Hyx : key y ≤ key x).
    { pose proof (Hties (key x)) as Hk. simpl in Hk. rewrite Z.eqb_refl in Hk.
      assert (Hin : In x (List.filter (λ z, key z =? key x) (y :: l2))).
      { simpl. rewrite <- Hk. by left. }
      apply filter_In in Hin as [[-> | Hin] _]; [lia |].
      rewrite Forall_forall in Hy. apply Hy. by apply list_elem_of_In. }
    assert (Hxy : key x ≤ key y).
    { pose proof (Hties (key y)) as Hk. simpl in Hk. rewrite Z.eqb_refl in Hk.
      assert (Hin : In y (List.filter (λ z, key z =? key y) (x :: l1))).
      { simpl. rewrite Hk. by left. }
      apply filter_In in Hin as [[-> | Hin] _]; [lia |].
      rewrite Forall_forall in Hx. apply Hx. by apply list_elem_of_In. }
    assert (Hk : key y = key x) by lia.
    pose proof (Hties (key x)) as Hhead. simpl in Hhead.
    rewrite Hk, Z.eqb_refl in Hhead. injection Hhead as -> Htail.
    f_equal. apply IH; [exact Hl2 |]. intros k.
    destruct (Z.eqb_spec (key y) k) as [<- | Hne]; [exact Htail |].
    specialize (Hties k). simpl in Hties.
    destruct (Z.eqb_spec (key y) k); [done | exact Hties].
Qed.

End StableSort.

(** Sorting oldest first gives the same array whether or not the array
    was sorted newest first before. *)
Lemma sortAscending_sortDescending l :
  sortBy byDateAscending (sortBy byDateDescending l) = sortBy byDateAscending l.
Proof.
  apply (sorted_ties_unique createdOn);
    [apply sortBy_sorted, byDateAscending_key
    | apply sortBy_sorted, byDateAscending_key |].
  intros k.
  rewrite !(sortBy_ties createdOn byDateAscending byDateAscending_key).
  assert (Hext : ∀ l', List.filter (λ x, createdOn x =? k) l'
                     = List.filter (λ x, - createdOn x =? - k) l').
  { intros l'. apply filter_ext. intros x.
    destruct (Z.eqb_spec (createdOn x) k), (Z.eqb_spec (- createdOn x) (- k));
      (done || lia). }
  rewrite !Hext.
  apply (sortBy_ties (λ t, - createdOn t) byDateDescending byDateDescending_key).
Qed.

Lemma createChart_contents p q now l range :
  settings q = settings p →
  contents q l = contents p l ∨ contents q l = sortBy byDateDescending (contents p l) →
  createChart q now l range = createChart p now l range.
Proof.
  intros Hset Hc. unfold settings in Hset. injection Hset as Hcfg Hcc Hdark Hmono.
  assert (Hsorted :
    sortBy byDateAscending (List.filter (inWindow now range) (contents q l))
    = sortBy byDateAscending (List.filter (inWindow now range) (contents p l))).
  { destruct Hc as [-> | ->]; [done |].
    rewrite (filter_sortBy (λ t, - createdOn t) byDateDescending
               byDateDescending_key).
    apply sortAscending_sortDescending. }
  assert (Hfilter : ∀ r,
    match range with
    | Hours h => List.filter (λ d, now - h * 60 * 60 * 1000 <=? createdOn d) (contents r l)
    | AllTime => contents r l
    end = List.filter (inWindow now range) (contents r l)).
  { intros r. destruct range; simpl; [done |].
    induction (contents r l) as [| x xs IH]; simpl; [done | by f_equal]. }
  unfold createChart. rewrite !Hfilter, Hsorted.
  f_equal. apply map_ext. intros d. unfold tempColor.
  by rewrite Hcfg, Hcc, Hdark, Hmono.
Qed.

Lemma filter_AllTime now l : List.filter (inWindow now AllTime) l = l.
Proof. induction l as [| x xs IH]; simpl; [done | by f_equal]. Qed.

Lemma createChart_window p now l range :
  readings (createChart p now l range)
  = sortBy byDateAscending (List.filter (inWindow now range) (contents p l)).
Proof.
  unfold createChart. simpl. destruct range; [done |].
  by rewrite filter_AllTime.
Qed.

(** X18. The chart plots exactly the samples of the array that lie in the
    chosen time range (all of them for "All Time"), oldest first, with
    one temperature, ABV, attenuation, velocity and colour per sample; a
    longer range shows every sample a shorter one shows. *)
Theorem chart_shows_the_window_oldest_first (p : Page) (now : Z) (l : loc)
    (range : TimeRange) :
  let c := createChart p now l range in
  StronglySorted (keyLe createdOn) (readings c)
  ∧ readings c ≡ₚ List.filter (inWindow now range) (contents p l)
  ∧ (range = AllTime → readings c ≡ₚ contents p l)
  ∧ (length (temperatures c) = length (readings c)
     ∧ length (abvSeries c) = length (readings c)
     ∧ length (attenuationSeries c) = length (readings c)
     ∧ length (gravityVelocitySeries c) = length (readings c)
     ∧ length (tempColors c) = length (readings c))
  ∧ ∀ h h' d,
      h ≤ h' →
      d ∈ readings (createChart p now l (Hours h)) →
      d ∈ readings (createChart p now l (Hours h')).
Proof.
  intros c. unfold c. rewrite createChart_window.
  split; [apply sortBy_sorted, byDateAscending_key |].
  split; [apply sortBy_Permutation |].
  split.
  - intros ->. by rewrite sortBy_Permutation, filter_AllTime.
  - split.
    + rewrite <- createChart_window. unfold createChart. simpl.
      by rewrite !length_map.
    + intros h h' d Hh. rewrite !createChart_window, !sortBy_elem_of.
      rewrite !list_elem_of_In, !filter_In. intros [Hin Hw]. split; [exact Hin |].
      simpl in *. apply Z.leb_le in Hw. apply Z.leb_le. nia.
Qed.

Lemma setArrays_settings p a : settings (setArrays p a) = settings p.
Proof. reflexivity. Qed.

Lemma selectLatest_settings device p :
  settings (selectLatest device p).2 = settings p.
Proof.
  unfold selectLatest. destruct (telemetry device); [| done].
  by destruct (0 <? _).
Qed.

Lemma storeTelemetry_settings hydrometers p :
  settings (foldl storeTelemetry p hydrometers) = settings p.
Proof.
  revert p. induction hydrometers as [| d hs IH]; intros p; simpl; [done |].
  rewrite IH. unfold storeTelemetry. destruct (hasTelemetry p d); [| done].
  by destruct (telemetry d).
Qed.

Lemma renderCards_settings hydrometers p :
  settings (renderCards hydrometers p).2 = settings p.
Proof.
  revert p. induction hydrometers as [| d hs IH]; intros p; simpl; [done |].
  unfold displayDevice.
  pose proof (selectLatest_settings d p) as Hs.
  destruct (selectLatest d p) as [latest p1]. simpl in Hs.
  specialize (IH p1). destruct (renderCards hs p1) as [cards p2]. simpl in *.
  congruence.
Qed.

Lemma displayDevices_settings hydrometers p :
  settings (displayDevices hydrometers p).2 = settings p.
Proof.
  rewrite displayDevices_renderCards, renderCards_settings.
  apply storeTelemetry_settings.
Qed.

Lemma displayDevices_contents hydrometers p l :
  contents (displayDevices hydrometers p).2 l =
  if decide (l ∈ telemetryRefs hydrometers)
  then sortBy byDateDescending (contents p l)
  else contents p l.
Proof.
  rewrite displayDevices_renderCards, renderCards_contents.
  by rewrite storeTelemetry_contents.
Qed.

(** X19. Selecting the latest reading reorders the arrays, and yet the
    chart drawn afterwards from any array, for any time range, is the
    chart that would have been drawn before: same samples in the same
    order, same series, same colours. *)
Theorem chart_unaffected_by_display (hydrometers : list (Device loc)) (p : Page)
    (now : Z) (l : loc) (range : TimeRange) :
  createChart (displayDevices hydrometers p).2 now l range
  = createChart p now l range.
Proof.
  apply createChart_contents; [apply displayDevices_settings |].
  rewrite displayDevices_contents. destruct (decide _); [by right | by left].
Qed.

(* ===================================================================== *)
(** ** The card of a device and the registry of arrays *)
(* ===================================================================== *)

Lemma head_sortDescending l :
  head (sortBy byDateDescending l) = firstLeast (λ t, - createdOn t) l.
Proof. apply head_sortBy, byDateDescending_key. Qed.

Lemma sortDescending_nil l : sortBy byDateDescending l = [] ↔ l = [].
Proof.
  split; [| by intros ->]. intros H. apply (f_equal length) in H.
  rewrite sortBy_length in H. by destruct l.
Qed.

(** X20. The latest reading on a card is a sample of the device's array
    that no other sample is newer than; the card has none exactly when the
    device has no array or an empty one. The low-battery flag is set
    exactly when that reading's battery is below 20, and a chart is
    scheduled exactly when there is a latest reading. *)
Theorem card_shows_the_newest_reading (device : Device loc) (p : Page) :
  let card := (displayDevice device p).1 in
  (∀ d, latestData card = Some d →
        ∃ l, telemetry device = Some l ∧ d ∈ contents p l
          ∧ ∀ t, t ∈ contents p l → createdOn t ≤ createdOn d)
  ∧ (latestData card = None ↔ ∀ l, telemetry device = Some l → contents p l = [])
  ∧ (lowBattery card = true
     ↔ ∃ d, latestData card = Some d ∧ (battery d < 20)%Q)
  ∧ (chartScheduled card = true ↔ is_Some (latestData card)).
Proof.
  unfold displayDevice.
  destruct (selectLatest_run device p) as (Hc & Hl).
  destruct (selectLatest device p) as [latest p1]. simpl in *. subst latest.
  split; [| split; [| split]].
  - intros d Hd. destruct (telemetry device) as [l |]; [| done]. simpl in Hd.
    rewrite head_sortDescending in Hd.
    apply firstLeast_least in Hd as [Hin Hmin].
    exists l. split; [done |]. split; [exact Hin |].
    intros t Ht. specialize (Hmin t Ht). simpl in Hmin. lia.
  - destruct (telemetry device) as [l |]; simpl.
    + rewrite head_None, sortDescending_nil. split.
      * by intros H l' [= <-].
      * intros H. by apply H.
    + split; [by intros _ l' | done].
  - destruct (telemetry device ≫= _) as [d |]; simpl.
    + rewrite num_lt_true. split; [by exists d |]. by intros (d' & [= <-] & H).
    + split; [done | by intros (d' & H & _)].
  - unfold hasTelemetry. destruct (telemetry device) as [l |]; simpl.
    + rewrite Hc, decide_True by done. rewrite sortBy_length.
      destruct (contents p l) as [| t ts] eqn:E; simpl.
      * split; [done | by intros [x Hx]].
      * split; [intros _ | done].
        change (is_Some (head (sortBy byDateDescending (t :: ts)))).
        rewrite head_sortDescending.
        apply (firstLeast_is_Some (λ t, - createdOn t) (t :: ts)). done.
    + split; [done | by intros [x Hx]].
Qed.

Lemma renderCards_registry hydrometers p :
  deviceTelemetryData (renderCards hydrometers p).2 = deviceTelemetryData p.
Proof.
  revert p. induction hydrometers as [| d hs IH]; intros p; simpl; [done |].
  unfold displayDevice.
  assert (Hs : deviceTelemetryData (selectLatest d p).2 = deviceTelemetryData p).
  { unfold selectLatest. destruct (telemetry d); [| done]. by destruct (0 <? _). }
  destruct (selectLatest d p) as [latest p1]. simpl in Hs.
  specialize (IH p1). destruct (renderCards hs p1) as [cards p2]. simpl in *.
  congruence.
Qed.

Lemma hasTelemetry_contents p q device :
  (∀ l, contents q l = contents p l) → hasTelemetry q device = hasTelemetry p device.
Proof.
  intros H. unfold hasTelemetry. destruct (telemetry device); [| done].
  by rewrite H.
Qed.

Lemma storeTelemetry_step_contents p d l :
  contents (storeTelemetry p d) l = contents p l.
Proof.
  unfold storeTelemetry. destruct (hasTelemetry p d); [| done].
  by destruct (telemetry d).
Qed.

Lemma storeTelemetry_kept hydrometers p k :
  is_Some (deviceTelemetryData p !! k) →
  is_Some (deviceTelemetryData (foldl storeTelemetry p hydrometers) !! k).
Proof.
  revert p. induction hydrometers as [| d hs IH]; intros p Hk; simpl; [done |].
  apply IH. unfold storeTelemetry. destruct (hasTelemetry p d); [| done].
  destruct (telemetry d) as [l |]; [| done]. simpl.
  destruct (decide (deviceId d = k)) as [-> | Hne].
  - rewrite lookup_insert_eq. eauto.
  - by rewrite lookup_insert_ne.
Qed.

Lemma storeTelemetry_other hydrometers p k :
  k ∉ map deviceId hydrometers →
  deviceTelemetryData (foldl storeTelemetry p hydrometers) !! k
  = deviceTelemetryData p !! k.
Proof.
  revert p. induction hydrometers as [| d hs IH]; intros p Hk; simpl; [done |].
  simpl in Hk. apply not_elem_of_cons in Hk as [Hne Hk].
  rewrite IH by done. unfold storeTelemetry.
  destruct (hasTelemetry p d); [| done].
  destruct (telemetry d) as [l |]; [| done]. simpl.
  by rewrite lookup_insert_ne.
Qed.

Lemma storeTelemetry_registered hydrometers p device l :
  NoDup (map deviceId hydrometers) →
  device ∈ hydrometers → telemetry device = Some l → hasTelemetry p device = true →
  deviceTelemetryData (foldl storeTelemetry p hydrometers) !! deviceId device = Some l.
Proof.
  revert p. induction hydrometers as [| d hs IH]; intros p Hnd Hin Ht Hhas; simpl.
  - by apply elem_of_nil in Hin.
  - simpl in Hnd. apply NoDup_cons in Hnd as [Hfresh Hnd].
    apply elem_of_cons in Hin as [<- | Hin].
    + rewrite storeTelemetry_other by done.
      unfold storeTelemetry. rewrite Hhas, Ht. simpl. apply lookup_insert_eq.
    + apply IH; [done | done | done |].
      rewrite <- Hhas. apply hasTelemetry_contents.
      intros l'. apply storeTelemetry_step_contents.
Qed.

Lemma storeTelemetry_skipped hydrometers p device :
  NoDup (map deviceId hydrometers) →
  device ∈ hydrometers → hasTelemetry p device = false →
  deviceTelemetryData (foldl storeTelemetry p hydrometers) !! deviceId device
  = deviceTelemetryData p !! deviceId device.
Proof.
  revert p. induction hydrometers as [| d hs IH]; intros p Hnd Hin Hhas; simpl.
  - done.
  - simpl in Hnd. apply NoDup_cons in Hnd as [Hfresh Hnd].
    apply elem_of_cons in Hin as [<- | Hin].
    + rewrite storeTelemetry_other by done.
      unfold storeTelemetry. by rewrite Hhas.
    + rewrite IH; [| done | done |].
      * unfold storeTelemetry. destruct (hasTelemetry p d); [| done].
        destruct (telemetry d) as [l |]; [| done]. simpl.
        rewrite lookup_insert_ne; [done |]. intros Heq. apply Hfresh.
        rewrite Heq. apply list_elem_of_fmap. by exists device.
      * rewrite <- Hhas. apply hasTelemetry_contents.
        intros l'. apply storeTelemetry_step_contents.
Qed.

(** X21. [window.deviceTelemetryData] only grows: a pass of
    [displayDevices] removes no entry and leaves the entries of devices it
    was not given as they are. With distinct device ids, a device with at
    least one sample is registered under its id with the very array the
    pass has just sorted newest first, and a device without samples keeps
    whatever entry an earlier pass left for it. *)
Theorem registry_only_grows (hydrometers : list (Device loc)) (p : Page) :
  let p' := (displayDevices hydrometers p).2 in
  (∀ k, is_Some (deviceTelemetryData p !! k) → is_Some (deviceTelemetryData p' !! k))
  ∧ (∀ k, k ∉ map deviceId hydrometers →
          deviceTelemetryData p' !! k = deviceTelemetryData p !! k)
  ∧ (NoDup (map deviceId hydrometers) →
     ∀ device,
       device ∈ hydrometers →
       (∀ l, telemetry device = Some l → contents p l ≠ [] →
             deviceTelemetryData p' !! deviceId device = Some l
             ∧ contents p' l = sortBy byDateDescending (contents p l))
       ∧ (hasTelemetry p device = false →
          deviceTelemetryData p' !! deviceId device
          = deviceTelemetryData p !! deviceId device)).
Proof.
  intros p'. unfold p'. clear p'.
  split; [| split].
  - intros k Hk. rewrite displayDevices_renderCards, renderCards_registry.
    by apply storeTelemetry_kept.
  - intros k Hk. rewrite displayDevices_renderCards, renderCards_registry.
    by apply storeTelemetry_other.
  - intros Hnd device Hin. split.
    + intros l Ht Hne. split.
      * rewrite displayDevices_renderCards, renderCards_registry.
        apply storeTelemetry_registered; [done | done | done |].
        unfold hasTelemetry. rewrite Ht. apply Z.ltb_lt.
        destruct (contents p l); [done | simpl; lia].
      * rewrite displayDevices_contents. rewrite decide_True; [done |].
        unfold telemetryRefs. apply list_elem_of_omap. eauto.
    + intros Hhas. rewrite displayDevices_renderCards, renderCards_registry.
      by apply storeTelemetry_skipped.
Qed.

Lemma registry_only_grows_witness :
  NoDup (map deviceId [shownPill])
  ∧ deviceTelemetryData (displayDevices [shownPill] loadedPage).2 !! "pill-1"%string
    = Some 1%positive.
Proof.
  assert (Hnd : NoDup (map deviceId [shownPill])).
  { apply NoDup_singleton. }
  split; [exact Hnd |].
  refine (proj1 (proj1 (proj2 (proj2 (registry_only_grows [shownPill] loadedPage))
                          Hnd shownPill _) 1%positive eq_refl _)).
  - left.
  - vm_compute. discriminate.
Defined.

(* ===================================================================== *)
(** ** Loading the data into the page *)
(* ===================================================================== *)

Lemma newArray_fresh samples p :
((newArray samples p).1 ∉ dom (arrays p))
  ∧ arrays (newArray samples p).2 !! (newArray samples p).1 = Some samples
  ∧ (∀ l, l ∈ dom (arrays p) →
          arrays (newArray samples p).2 !! l = arrays p !! l)
  ∧ settings (newArray samples p).2 = settings p
  ∧ deviceTelemetryData (newArray samples p).2 = deviceTelemetryData p.
Proof.
  unfold newArray. simpl.
  pose proof (is_fresh (dom (arrays p))) as Hfresh.
  split; [exact Hfresh |]. split; [apply lookup_insert_eq |].
  split; [| done]. intros l Hl. rewrite lookup_insert_ne; [done |].
  intros <-. contradiction.
Qed.

(** Parsing gives every device an array of its own holding its samples,
    and leaves the arrays that exist alone. *)
Lemma parseDevices_run devices p :
  Forall2
    (λ d h,
       deviceId h = deviceId d
       ∧ match telemetry d with
         | Some samples =>
             ∃ l, telemetry h = Some l ∧ (l ∉ dom (arrays p))
               ∧ arrays (parseDevices devices p).2 !! l = Some samples
         | None => telemetry h = None
         end)
    devices (parseDevices devices p).1
  ∧ (∀ l, l ∈ dom (arrays p) →
          arrays (parseDevices devices p).2 !! l = arrays p !! l)
  ∧ settings (parseDevices devices p).2 = settings p
  ∧ deviceTelemetryData (parseDevices devices p).2 = deviceTelemetryData p.
Proof.
  revert p. induction devices as [| d rest IH]; intros p; cbn [parseDevices].
  - split; [constructor | done].
  - destruct (telemetry d) as [samples |] eqn:Et.
    + destruct (newArray_fresh samples p) as (Hf & Hl & Hold & Hset & Hreg).
      destruct (newArray samples p) as [l p1]. simpl in Hf, Hl, Hold, Hset, Hreg.
      destruct (IH p1) as (Hall & Hold' & Hset' & Hreg').
      destruct (parseDevices rest p1) as [rest' p2]. simpl in *.
      assert (Hdom : ∀ l', l' ∈ dom (arrays p) → l' ∈ dom (arrays p1)).
      { intros l' Hl'. apply elem_of_dom. rewrite Hold by done.
        by apply elem_of_dom. }
      split; [| split; [| split]].
      * constructor.
        -- split; [done |]. rewrite Et. exists l. split; [done |].
           split; [exact Hf |]. rewrite Hold'; [exact Hl |].
           apply elem_of_dom. rewrite Hl. eauto.
        -- eapply Forall2_impl; [exact Hall |]. simpl.
           intros d' h [Hid Ht]. split; [exact Hid |].
           destruct (telemetry d'); [| done].
           destruct Ht as (l' & Hl' & Hn & Hs). exists l'.
           split; [done |]. split; [| done]. intros Hin. apply Hn. by apply Hdom.
      * intros l' Hl'. rewrite Hold' by (by apply Hdom). by apply Hold.
      * congruence.
      * congruence.
    + destruct (IH p) as (Hall & Hold' & Hset' & Hreg').
      destruct (parseDevices rest p) as [rest' p2]. simpl in *.
      split; [| done]. constructor; [| exact Hall]. by rewrite Et.
Qed.

Lemma showStatus_page message type b : page (Main.showStatus message type b) = page b.
Proof. reflexivity. Qed.

(** X22. The page's [fetchHydrometers] always returns. When the load
    fails in any of its ways it returns the empty array, marks the status
    line as an error and changes nothing else: thresholds, modes and the
    existing arrays stay. When the load works the status line is hidden;
    nothing ever makes it visible again, so the error of a later failed
    load is written to a hidden line. No load alters an array that
    existed before. *)
Theorem page_fetch_never_throws (reply : Fetched) (b : Browser) :
  let h := (Main.fetchHydrometers reply b).1 in
  let b' := (Main.fetchHydrometers reply b).2 in
  (fetchFails reply →
   h = DeviceList [] ∧ statusType b' = "error"%string
   ∧ settings (page b') = settings (page b)
   ∧ statusHidden b' = statusHidden b)
  ∧ (¬ fetchFails reply → statusHidden b' = true)
  ∧ (statusHidden b = true → statusHidden b' = true)
  ∧ (∀ l, l ∈ dom (arrays (page b)) →
          arrays (page b') !! l = arrays (page b) !! l)
  ∧ refreshDisabled b' = refreshDisabled b.
Proof.
  intros h b'. unfold h, b', Main.fetchHydrometers, Main.failed. clear h b'.
  destruct reply as [message | ok status statusText json]; simpl.
  { repeat split; (done || tauto). }
  destruct ok; simpl; [| repeat split; (done || tauto)].
  destruct json as [[devices | data] | message]; simpl.
  - destruct (parseDevices_run devices (page b)) as (_ & Hold & Hset & _).
    destruct (parseDevices devices (page b)) as [hs p1]. simpl in *.
    split; [| repeat split; done].
    intros [? | [[m ?] | (d & ? & _)]]; discriminate.
  - assert (Hparse : ∀ l, l ∈ dom (arrays (page b)) →
              arrays (match payloadDevices data with
                      | Some devices =>
                          let '(hs, p) := parseDevices devices (page b) in (Some hs, p)
                      | None => (None, page b)
                      end).2 !! l = arrays (page b) !! l).
    { destruct (payloadDevices data) as [devices |]; [| done].
      destruct (parseDevices_run devices (page b)) as (_ & Hold & _).
      by destruct (parseDevices devices (page b)). }
    assert (Hset : settings (match payloadDevices data with
                      | Some devices =>
                          let '(hs, p) := parseDevices devices (page b) in (Some hs, p)
                      | None => (None, page b)
                      end).2 = settings (page b)).
    { destruct (payloadDevices data) as [devices |]; [| done].
      destruct (parseDevices_run devices (page b)) as (_ & _ & Hs & _).
      by destruct (parseDevices devices (page b)). }
    destruct (match payloadDevices data with
              | Some devices => _
              | None => _
              end) as [hydrometers p1]. simpl in *.
    destruct (truthyStr (payloadError data)) eqn:Eerr; simpl.
    + repeat split; try done. intros Hn. exfalso. apply Hn.
      right. right. eauto.
    + split.
      { intros [? | [[m ?] | (d & [= <-] & Hd)]]; [done | done | congruence]. }
      destruct (payloadConfig data); simpl; repeat split; done.
  - repeat split; try done. intros Hn. exfalso. apply Hn. right. left. eauto.
Qed.

Lemma page_fetch_never_throws_witness :
  fetchFails (FetchResponse false 500 "Internal Server Error" (Err "no body"))
  ∧ (Main.fetchHydrometers
       (FetchResponse false 500 "Internal Server Error" (Err "no body"))
       {| page := loadedPage; statusMessage := ""; statusType := "loading";
          statusHidden := true; refreshDisabled := true |}).1
    = DeviceList [].
Proof.
  assert (Hf : fetchFails
            (FetchResponse false 500 "Internal Server Error" (Err "no body"))).
  { by left. }
  split; [exact Hf |].
  exact (proj1 (proj1 (page_fetch_never_throws _ _) Hf)).
Defined.

Lemma renderCards_cards hydrometers p :
  Forall2
    (λ device card,
       cardDevice card = deviceId device
       ∧ latestData card
         = telemetry device ≫= (λ l, head (sortBy byDateDescending (contents p l))))
    hydrometers (renderCards hydrometers p).1.
Proof.
  revert p. induction hydrometers as [| d hs IH]; intros p; [constructor |].
  cbn [renderCards]. unfold displayDevice.
  destruct (selectLatest_run d p) as (Hc & Hl).
  destruct (selectLatest d p) as [latest p1]. simpl in Hc, Hl.
  specialize (IH p1). destruct (renderCards hs p1) as [cards p2]. simpl in *.
  constructor; [by split |].
  eapply Forall2_impl; [exact IH |]. simpl. intros h card [Hid Hlatest].
  split; [exact Hid |]. rewrite Hlatest.
  destruct (telemetry h) as [l |]; [| done]. simpl. rewrite Hc.
  destruct (decide _); [| done]. by rewrite sortDescending_idempotent.
Qed.

Lemma displayDevices_cards hydrometers p :
  Forall2
    (λ device card,
       cardDevice card = deviceId device
       ∧ latestData card
         = telemetry device ≫= (λ l, head (sortBy byDateDescending (contents p l))))
    hydrometers (displayDevices hydrometers p).1.
Proof.
  rewrite displayDevices_renderCards.
  eapply Forall2_impl; [apply renderCards_cards |]. simpl.
  intros h card [Hid Hlatest]. split; [exact Hid |]. rewrite Hlatest.
  destruct (telemetry h) as [l |]; [| done]. simpl.
  by rewrite storeTelemetry_contents.
Qed.

Lemma loadData_cards devices hs b p :
  parseDevices devices (page b) = (hs, p) →
  ∀ q, arrays q = arrays p →
  Forall2
    (λ d card,
       cardDevice card = deviceId d
       ∧ latestData card
         = telemetry d ≫= (λ samples, head (sortBy byDateDescending samples)))
    devices (displayDevices hs q).1.
Proof.
  intros Hparse q Hq.
  destruct (parseDevices_run devices (page b)) as (Hall & _).
  rewrite Hparse in Hall. simpl in Hall.
  pose proof (displayDevices_cards hs q) as Hcards.
  revert Hall Hcards. generalize (displayDevices hs q).1. intros cards.
  clear Hparse. revert hs cards.
  induction devices as [| d rest IH]; intros hs cards Hall Hcards.
  - apply Forall2_nil_inv_l in Hall as ->.
    apply Forall2_nil_inv_l in Hcards as ->. constructor.
  - apply Forall2_cons_inv_l in Hall as (h & hs' & [Hid Ht] & Hrest & ->).
    apply Forall2_cons_inv_l in Hcards as (card & cards' & [Hcid Hlatest] & Hc & ->).
    constructor; [| by apply (IH hs')].
    split; [congruence |]. rewrite Hlatest.
    destruct (telemetry d) as [samples |].
    + destruct Ht as (l & -> & _ & Hl). simpl.
      unfold contents. by rewrite Hq, Hl.
    + by rewrite Ht.
Qed.

(** X23. A load that delivers a device array, bare or under [devices],
    ends with one card per device, in the array's order, each under its
    device's id and showing the newest sample of that device's own
    telemetry (none when the device has no telemetry or an empty one).
    The status line is hidden and the refresh button enabled again. *)
Theorem load_shows_newest_reading_of_each_device (reply : Fetched) (b : Browser)
    (devices : list (Device (list Sample))) :
  delivers reply devices →
  ∃ cards,
    (Main.loadData reply b).1 = Ok cards
    ∧ Forall2
        (λ d card,
           cardDevice card = deviceId d
           ∧ latestData card
             = telemetry d ≫= (λ samples, head (sortBy byDateDescending samples)))
        devices cards
    ∧ statusHidden (Main.loadData reply b).2 = true
    ∧ refreshDisabled (Main.loadData reply b).2 = false.
Proof.
  intros (status & statusText & [-> | (data & -> & Herr & Hdev)]);
    unfold Main.loadData, Main.fetchHydrometers; simpl.
  - destruct (parseDevices devices (page b)) as [hs p] eqn:Hparse.
    pose proof (loadData_cards devices hs b p Hparse p eq_refl) as Hcards.
    simpl. destruct (displayDevices hs p) as [cards p']. simpl in *.
    by exists cards.
  - rewrite Hdev, Herr.
    destruct (parseDevices devices (page b)) as [hs p] eqn:Hparse.
    destruct (payloadConfig data) as [config |]; simpl.
    + pose proof (loadData_cards devices hs b p Hparse
                    (setTempConfig p config) eq_refl) as Hcards.
      destruct (displayDevices hs (setTempConfig p config)) as [cards p'].
      simpl in *. by exists cards.
    + pose proof (loadData_cards devices hs b p Hparse p eq_refl) as Hcards.
      destruct (displayDevices hs p) as [cards p']. simpl in *.
      by exists cards.
Qed.

Lemma load_shows_newest_reading_of_each_device_witness :
  delivers (FetchResponse true 200 "OK"
              (Ok (JsonArray [withTelemetry plainPill (Some brew)])))
           [withTelemetry plainPill (Some brew)]
  ∧ ∃ cards,
      (Main.loadData
         (FetchResponse true 200 "OK"
            (Ok (JsonArray [withTelemetry plainPill (Some brew)])))
         {| page := loadedPage; statusMessage := ""; statusType := "loading";
            statusHidden := false; refreshDisabled := false |}).1 = Ok cards.
Proof.
  assert (Hd : delivers (FetchResponse true 200 "OK"
                           (Ok (JsonArray [withTelemetry plainPill (Some brew)])))
                        [withTelemetry plainPill (Some brew)]).
  { exists 200, "OK"%string. by left. }
  split; [exact Hd |].
  destruct (load_shows_newest_reading_of_each_device _
              {| page := loadedPage; statusMessage := ""; statusType := "loading";
                 statusHidden := false; refreshDisabled := false |} _ Hd)
    as (cards & Hcards & _).
  by exists cards.
Defined.



(* ===================================================================== *)
(** ** Switching cold crash mode *)
(* ===================================================================== *)

Lemma settings_inv p q :
  settings p = settings q →
  tempConfig p = tempConfig q ∧ coldCrashMode p = coldCrashMode q.
Proof. unfold settings. by intros [= -> -> _ _]. Qed.

(** Every card is classified under the thresholds and the mode the page
    had when the cards were rendered. *)
Lemma renderCards_classified hydrometers p :
  Forall
    (λ card,
       cardWarning card = tempWarning (tempConfig p) (coldCrashMode p) (latestData card)
       ∧ cardClass card = tempClass (tempConfig p) (coldCrashMode p) (latestData card))
    (renderCards hydrometers p).1.
Proof.
  revert p. induction hydrometers as [| d hs IH]; intros p; [constructor |].
  cbn [renderCards]. unfold displayDevice.
  destruct (settings_inv _ _ (selectLatest_settings d p)) as [Hcfg Hcc].
  destruct (selectLatest d p) as [latest p1]. simpl in Hcfg, Hcc.
  specialize (IH p1). destruct (renderCards hs p1) as [cards p2]. simpl in *.
  rewrite Hcfg, Hcc in *. by constructor.
Qed.

Lemma displayDevices_classified hydrometers p :
  Forall
    (λ card,
       cardWarning card = tempWarning (tempConfig p) (coldCrashMode p) (latestData card)
       ∧ cardClass card = tempClass (tempConfig p) (coldCrashMode p) (latestData card))
    (displayDevices hydrometers p).1.
Proof.
  rewrite displayDevices_renderCards.
  destruct (settings_inv _ _ (storeTelemetry_settings hydrometers p)) as [<- <-].
  apply renderCards_classified.
Qed.

Lemma parseDevices_settings devices p :
  settings (parseDevices devices p).2 = settings p.
Proof. by destruct (parseDevices_run devices p) as (_ & _ & H & _). Qed.

Lemma fetchHydrometers_coldCrashMode reply b :
  coldCrashMode (page (Main.fetchHydrometers reply b).2) = coldCrashMode (page b).
Proof.
  unfold Main.fetchHydrometers, Main.failed.
  destruct reply as [message | [] status statusText [[devices | data] | message]];
    simpl; try done.
  - destruct (settings_inv _ _ (parseDevices_settings devices (page b))) as [_ H].
    by destruct (parseDevices devices (page b)).
  - assert (H : coldCrashMode
                  (match payloadDevices data with
                   | Some devices =>
                       let '(hs, p) := parseDevices devices (page b) in (Some hs, p)
                   | None => (None, page b)
                   end).2 = coldCrashMode (page b)).
    { destruct (payloadDevices data) as [devices |]; [| done].
      destruct (settings_inv _ _ (parseDevices_settings devices (page b))) as [_ H].
      by destruct (parseDevices devices (page b)). }
    destruct (match payloadDevices data with
              | Some devices => _
              | None => _
              end) as [hydrometers p1]. simpl in H.
    destruct (truthyStr (payloadError data)); simpl; [done |].
    by destruct (payloadConfig data).
Qed.

Lemma loadData_classified reply b :
  coldCrashMode (page (Main.loadData reply b).2) = coldCrashMode (page b)
  ∧ ∀ cards, (Main.loadData reply b).1 = Ok cards →
      Forall
        (λ card,
           cardWarning card
           = tempWarning (tempConfig (page (Main.loadData reply b).2))
               (coldCrashMode (page b)) (latestData card)
           ∧ cardClass card
             = tempClass (tempConfig (page (Main.loadData reply b).2))
                 (coldCrashMode (page b)) (latestData card))
        cards.
Proof.
  unfold Main.loadData.
  pose proof (fetchHydrometers_coldCrashMode reply (setRefreshDisabled b true)) as Hcc.
  destruct (Main.fetchHydrometers reply (setRefreshDisabled b true)) as [[hs |] b1];
    simpl in Hcc |- *; [| done].
  pose proof (displayDevices_classified hs (page b1)) as Hcards.
  destruct (settings_inv _ _ (displayDevices_settings hs (page b1))) as [Hcfg Hcc'].
  destruct (displayDevices hs (page b1)) as [cards p']. simpl in *.
  split; [congruence |]. intros cards' [= <-].
  by rewrite Hcfg, <- Hcc.
Qed.

(** X25. Switching cold crash mode flips the flag and reloads. The cards
    of the reload are classified under the new flag: switched on, no card
    carries a low-temperature alert; switched off, every card whose
    reading lies below the danger minimum, and not above the danger
    maximum, carries one. The flag stays flipped also when the reload
    throws. *)
Theorem cold_crash_switch_reclassifies_cards (reply : Fetched) (b : Browser) :
  let r := toggleColdCrashMode reply b in
  coldCrashMode (page r.2) = negb (coldCrashMode (page b))
  ∧ ∀ cards, r.1 = Ok cards →
      Forall
        (λ card,
           if coldCrashMode (page b)
           then ∀ d, latestData card = Some d →
                  (temperature d < tempDangerMin (tempConfig (page r.2)))%Q →
                  (temperature d <= tempDangerMax (tempConfig (page r.2)))%Q →
                  cardWarning card
                  = LowTemperatureWarning (temperature d)
                      (tempDangerMin (tempConfig (page r.2)))
           else ∀ temp limit, cardWarning card ≠ LowTemperatureWarning temp limit)
        cards.
Proof.
  intros r. unfold r, toggleColdCrashMode. clear r.
  set (b0 := setPage b (setColdCrashMode (page b) (negb (coldCrashMode (page b))))).
  destruct (loadData_classified reply b0) as [Hflag Hcards].
  split; [exact Hflag |]. intros cards Hok.
  eapply Forall_impl; [exact (Hcards cards Hok) |]. simpl.
  intros card [Hw _]. rewrite Hw. unfold tempWarning.
  destruct (coldCrashMode (page b)); simpl.
  - intros d -> Hlow Hhigh.
    apply num_lt_true in Hlow. apply num_gt_false in Hhigh.
    by rewrite Hhigh, Hlow.
  - intros temp limit. destruct (latestData card) as [d |]; [| done].
    rewrite andb_false_r. by destruct (num_gt _ _).
Qed.

Lemma cold_crash_switch_reclassifies_cards_witness :
  ∃ cards,
    (toggleColdCrashMode
       (FetchResponse true 200 "OK"
          (Ok (JsonArray [withTelemetry plainPill (Some [thermo 15])])))
       {| page := loadedPage; statusMessage := ""; statusType := "loading";
          statusHidden := false; refreshDisabled := false |}).1 = Ok cards
    ∧ Forall
        (λ card, ∀ temp limit, cardWarning card ≠ LowTemperatureWarning temp limit)
        cards.
Proof.
  assert (H : ∃ cards,
    (toggleColdCrashMode
       (FetchResponse true 200 "OK"
          (Ok (JsonArray [withTelemetry plainPill (Some [thermo 15])])))
       {| page := loadedPage; statusMessage := ""; statusType := "loading";
          statusHidden := false; refreshDisabled := false |}).1 = Ok cards).
  { eexists. vm_compute. reflexivity. }
  destruct H as [cards H]. exists cards. split; [exact H |].
  exact (proj2 (cold_crash_switch_reclassifies_cards _ _) cards H).
Defined.
